(** * The bubble engine of the Sia renter: directory metadata aggregation

    A shallow embedding of [modules/renter]'s bubble code (the coordinator
    [managedBubbleNeeded] / [managedCompleteBubbleUpdate], the calculator
    [managedCalculateDirectoryMetadata], the file probe
    [managedCalculateAndUpdateFileMetadata], the subdirectory read
    [managedDirectoryMetadata] and the driver [managedBubbleMetadata]),
    and the properties of the specification proved or refuted on it.
    Two smaller embeddings follow the same conventions: the contractor's
    reaction to consensus changes ([modules/renter/contractor/update.go])
    and the chunk count of a new file ([modules/renter/upload.go]).

    Conventions of the embedding:
    - a Go [float64] is a [spec_float] (the IEEE-754 values and their
      comparisons, as the Standard Library specifies them);
    - a Go [uint64] is a [Z] reduced modulo [2^64] after every addition;
    - a [time.Time] is a [Z], the zero instant being [0];
    - a Go result [(T, error)] is a pair [T * option error], [None] being
      [nil];
    - the renter is a record threaded through a state monad; every call
      of a collaborator that is not part of this package (filesystem,
      directory store, file store, thread group, clock, persistence) goes
      through the [Collaborators] interface and is appended to the
      renter's [trace]. *)

From Stdlib Require Import ZArith List Bool Lia Ascii String SpecFloat.
From stdpp Require Import base gmap strings list.
Import ListNotations.

Local Open Scope string_scope.
Local Open Scope Z_scope.

(** ** Go base types *)

Abbreviation float64 := spec_float.

Definition float64_zero : float64 := S754_zero false.

(** The constant [1], that is [2^52 * 2^(-52)]. *)
Definition float64_one : float64 := S754_finite false 4503599627370496 (-52).

(** [math.MaxFloat64], that is [(2^53 - 1) * 2^971]. *)
Definition MaxFloat64 : float64 := S754_finite false 9007199254740991 971.

Definition uint64_modulus : Z := 2 ^ 64.

(** Addition on [uint64] wraps around. *)
Definition uint64_add (a b : Z) : Z := (a + b) mod uint64_modulus.

(** [a > b], [a < b], [a >= b] and [a == b] on [float64]. *)
Definition fgt (a b : float64) : bool := SFltb b a.
Definition flt (a b : float64) : bool := SFltb a b.
Definition fge (a b : float64) : bool := SFleb b a.
Definition feq (a b : float64) : bool := SFeqb a b.

Definition is_pos_inf (x : float64) : bool :=
  match x with S754_infinity false => true | _ => false end.

Definition is_nan (x : float64) : bool :=
  match x with S754_nan => true | _ => false end.

Definition signbit (x : float64) : bool :=
  match x with
  | S754_zero s | S754_infinity s | S754_finite s _ _ => s
  | S754_nan => false
  end.

(** [math.Max] of the Go library, with its special cases. *)
Definition math_Max (x y : float64) : float64 :=
  if is_pos_inf x || is_pos_inf y then S754_infinity false
  else if is_nan x || is_nan y then S754_nan
  else if feq x float64_zero && feq x y then (if signbit x then y else x)
  else if fgt x y then x
  else y.

(** A [time.Time]; [time.Time{}] is the zero instant. *)
Definition Time : Type := Z.
Definition Time_zero : Time := 0.
Definition Time_After (t u : Time) : bool := u <? t.
Definition Time_Before (t u : Time) : bool := t <? u.
Definition Time_IsZero (t : Time) : bool := t =? 0.

(** ** Errors

    An error made by a collaborator is opaque to this package, which only
    asks [os.IsNotExist] of it.  [errors.New] and [fmt.Errorf] make a
    fresh error, never equal to a collaborator's; [errors.AddContext]
    wraps an error. *)

Record oserror : Type := OSError { notExist : bool; text : string }.

Inductive error : Type :=
| errOS (e : oserror)
| errNew (msg : string)
| errAddContext (err : error) (context : string).

Definition os_IsNotExist (err : option error) : bool :=
  match err with
  | Some (errOS e) => notExist e
  | _ => false
  end.

Definition errors_AddContext (err : error) (context : string) : error :=
  errAddContext err context.

Definition liftErr (e : option oserror) : option error := errOS <$> e.

(** ** [path/filepath] and [strings] helpers *)

Definition isPathSeparator (c : ascii) : bool := Ascii.eqb c "/"%char.

Fixpoint hasSeparator (s : string) : bool :=
  match s with
  | EmptyString => false
  | String c rest => isPathSeparator c || hasSeparator rest
  end.

(** [filepath.Ext]: the suffix starting at the last dot of the last
    element of the path, empty when there is no dot. *)
Fixpoint filepath_Ext (path : string) : string :=
  match path with
  | EmptyString => EmptyString
  | String c rest =>
      match filepath_Ext rest with
      | EmptyString =>
          if hasSeparator rest then EmptyString
          else if Ascii.eqb c "."%char then path
          else EmptyString
      | e => e
      end
  end.

Definition strings_HasSuffix (s suffix : string) : bool :=
  let n := String.length s in
  let k := String.length suffix in
  (k <=? n)%nat && String.eqb (String.substring (n - k) k s) suffix.

Definition strings_TrimSuffix (s suffix : string) : string :=
  if strings_HasSuffix s suffix
  then String.substring 0 (String.length s - String.length suffix) s
  else s.

(** ** The data model *)

(** [bubbleStatus] and its four constants, in the order of the [iota]. *)
Inductive bubbleStatus : Type :=
| bubbleError
| bubbleInit
| bubbleActive
| bubblePending.

#[global] Instance bubbleStatus_eq_dec : EqDecision bubbleStatus.
Proof. solve_decision. Defined.

(** [os.FileInfo], as far as the package looks at it. *)
Record FileInfo : Type := { Name : string; IsDir : bool }.

(** [siadir.Metadata], with the fields this package sets. *)
Record Metadata : Type := {
  AggregateHealth : float64;
  AggregateNumFiles : Z;
  AggregateSize : Z;
  Health : float64;
  LastHealthCheckTime : Time;
  MinRedundancy : float64;
  ModTime : Time;
  NumFiles : Z;
  NumStuckChunks : Z;
  NumSubDirs : Z;
  StuckHealth : float64
}.

(** [siadir.Metadata{}] *)
Definition Metadata_zero : Metadata := {|
  AggregateHealth := float64_zero;
  AggregateNumFiles := 0;
  AggregateSize := 0;
  Health := float64_zero;
  LastHealthCheckTime := Time_zero;
  MinRedundancy := float64_zero;
  ModTime := Time_zero;
  NumFiles := 0;
  NumStuckChunks := 0;
  NumSubDirs := 0;
  StuckHealth := float64_zero
|}.

(** [siafile.BubbledMetadata] *)
Record BubbledMetadata : Type := {
  bHealth : float64;
  bLastHealthCheckTime : Time;
  bModTime : Time;
  bNumStuckChunks : Z;
  bRedundancy : float64;
  bSize : Z;
  bStuckHealth : float64
}.

(** [siafile.BubbledMetadata{}] *)
Definition BubbledMetadata_zero : BubbledMetadata := {|
  bHealth := float64_zero;
  bLastHealthCheckTime := Time_zero;
  bModTime := Time_zero;
  bNumStuckChunks := 0;
  bRedundancy := float64_zero;
  bSize := 0;
  bStuckHealth := float64_zero
|}.

(** [siafile.CachedHealthMetadata] *)
Record CachedHealthMetadata : Type := {
  cHealth : float64;
  cRedundancy : float64;
  cStuckHealth : float64
}.

(** Assignments to one field of a [Metadata]. *)
Definition set_AggregateHealth (m : Metadata) (v : float64) : Metadata :=
  {| AggregateHealth := v; AggregateNumFiles := AggregateNumFiles m;
     AggregateSize := AggregateSize m; Health := Health m;
     LastHealthCheckTime := LastHealthCheckTime m;
     MinRedundancy := MinRedundancy m; ModTime := ModTime m;
     NumFiles := NumFiles m; NumStuckChunks := NumStuckChunks m;
     NumSubDirs := NumSubDirs m; StuckHealth := StuckHealth m |}.

Definition set_AggregateNumFiles (m : Metadata) (v : Z) : Metadata :=
  {| AggregateHealth := AggregateHealth m; AggregateNumFiles := v;
     AggregateSize := AggregateSize m; Health := Health m;
     LastHealthCheckTime := LastHealthCheckTime m;
     MinRedundancy := MinRedundancy m; ModTime := ModTime m;
     NumFiles := NumFiles m; NumStuckChunks := NumStuckChunks m;
     NumSubDirs := NumSubDirs m; StuckHealth := StuckHealth m |}.

Definition set_AggregateSize (m : Metadata) (v : Z) : Metadata :=
  {| AggregateHealth := AggregateHealth m;
     AggregateNumFiles := AggregateNumFiles m;
     AggregateSize := v; Health := Health m;
     LastHealthCheckTime := LastHealthCheckTime m;
     MinRedundancy := MinRedundancy m; ModTime := ModTime m;
     NumFiles := NumFiles m; NumStuckChunks := NumStuckChunks m;
     NumSubDirs := NumSubDirs m; StuckHealth := StuckHealth m |}.

Definition set_Health (m : Metadata) (v : float64) : Metadata :=
  {| AggregateHealth := AggregateHealth m;
     AggregateNumFiles := AggregateNumFiles m;
     AggregateSize := AggregateSize m; Health := v;
     LastHealthCheckTime := LastHealthCheckTime m;
     MinRedundancy := MinRedundancy m; ModTime := ModTime m;
     NumFiles := NumFiles m; NumStuckChunks := NumStuckChunks m;
     NumSubDirs := NumSubDirs m; StuckHealth := StuckHealth m |}.

Definition set_LastHealthCheckTime (m : Metadata) (v : Time) : Metadata :=
  {| AggregateHealth := AggregateHealth m;
     AggregateNumFiles := AggregateNumFiles m;
     AggregateSize := AggregateSize m; Health := Health m;
     LastHealthCheckTime := v;
     MinRedundancy := MinRedundancy m; ModTime := ModTime m;
     NumFiles := NumFiles m; NumStuckChunks := NumStuckChunks m;
     NumSubDirs := NumSubDirs m; StuckHealth := StuckHealth m |}.

Definition set_MinRedundancy (m : Metadata) (v : float64) : Metadata :=
  {| AggregateHealth := AggregateHealth m;
     AggregateNumFiles := AggregateNumFiles m;
     AggregateSize := AggregateSize m; Health := Health m;
     LastHealthCheckTime := LastHealthCheckTime m;
     MinRedundancy := v; ModTime := ModTime m;
     NumFiles := NumFiles m; NumStuckChunks := NumStuckChunks m;
     NumSubDirs := NumSubDirs m; StuckHealth := StuckHealth m |}.

Definition set_ModTime (m : Metadata) (v : Time) : Metadata :=
  {| AggregateHealth := AggregateHealth m;
     AggregateNumFiles := AggregateNumFiles m;
     AggregateSize := AggregateSize m; Health := Health m;
     LastHealthCheckTime := LastHealthCheckTime m;
     MinRedundancy := MinRedundancy m; ModTime := v;
     NumFiles := NumFiles m; NumStuckChunks := NumStuckChunks m;
     NumSubDirs := NumSubDirs m; StuckHealth := StuckHealth m |}.

Definition set_NumFiles (m : Metadata) (v : Z) : Metadata :=
  {| AggregateHealth := AggregateHealth m;
     AggregateNumFiles := AggregateNumFiles m;
     AggregateSize := AggregateSize m; Health := Health m;
     LastHealthCheckTime := LastHealthCheckTime m;
     MinRedundancy := MinRedundancy m; ModTime := ModTime m;
     NumFiles := v; NumStuckChunks := NumStuckChunks m;
     NumSubDirs := NumSubDirs m; StuckHealth := StuckHealth m |}.

Definition set_NumStuckChunks (m : Metadata) (v : Z) : Metadata :=
  {| AggregateHealth := AggregateHealth m;
     AggregateNumFiles := AggregateNumFiles m;
     AggregateSize := AggregateSize m; Health := Health m;
     LastHealthCheckTime := LastHealthCheckTime m;
     MinRedundancy := MinRedundancy m; ModTime := ModTime m;
     NumFiles := NumFiles m; NumStuckChunks := v;
     NumSubDirs := NumSubDirs m; StuckHealth := StuckHealth m |}.

Definition set_NumSubDirs (m : Metadata) (v : Z) : Metadata :=
  {| AggregateHealth := AggregateHealth m;
     AggregateNumFiles := AggregateNumFiles m;
     AggregateSize := AggregateSize m; Health := Health m;
     LastHealthCheckTime := LastHealthCheckTime m;
     MinRedundancy := MinRedundancy m; ModTime := ModTime m;
     NumFiles := NumFiles m; NumStuckChunks := NumStuckChunks m;
     NumSubDirs := v; StuckHealth := StuckHealth m |}.

Definition set_StuckHealth (m : Metadata) (v : float64) : Metadata :=
  {| AggregateHealth := AggregateHealth m;
     AggregateNumFiles := AggregateNumFiles m;
     AggregateSize := AggregateSize m; Health := Health m;
     LastHealthCheckTime := LastHealthCheckTime m;
     MinRedundancy := MinRedundancy m; ModTime := ModTime m;
     NumFiles := NumFiles m; NumStuckChunks := NumStuckChunks m;
     NumSubDirs := NumSubDirs m; StuckHealth := v |}.

(** ** The collaborators

    [modules.SiaPath] and the stores are not part of this package; the
    embedding takes them through two interfaces, so that every theorem
    holds for any implementation of them. *)

(** The path model: [String], [IsRoot], [Dir], [Join] and
    [SiaDirSysPath] of [modules.SiaPath]. *)
Class PathOps (SiaPath : Type) : Type := {
  SiaPath_String : SiaPath -> string;
  SiaPath_IsRoot : SiaPath -> bool;
  SiaPath_Dir : SiaPath -> SiaPath * option error;
  SiaPath_Join : SiaPath -> string -> SiaPath * option error;
  SiaPath_SiaDirSysPath : SiaPath -> string -> string
}.

(** The stateful collaborators, as functions on the state [W] of the
    world outside the package: the filesystem ([ioutil.ReadDir],
    [os.Stat]), the thread group [r.tg], the clock, the directory store
    [r.staticDirSet] and its entries, the file store [r.staticFileSet]
    and its entries, the host catalog and the persistence of the
    coordinator map. *)
Class Collaborators (W SiaPath SiaDirSetEntry SiaFileSetEntry HostMap : Type)
  : Type := {
  ioutil_ReadDir : string -> W -> (list FileInfo * option oserror) * W;
  os_Stat : string -> W -> (FileInfo * option oserror) * W;
  tg_StopChan_closed : W -> bool * W;
  tg_Add : W -> option oserror * W;
  tg_Done : W -> unit * W;
  time_Now : W -> Time * W;
  staticDirSet_Open : SiaPath -> W -> (SiaDirSetEntry * option oserror) * W;
  staticDirSet_NewSiaDir :
    SiaPath -> W -> (SiaDirSetEntry * option oserror) * W;
  siaDir_Close : SiaDirSetEntry -> W -> option oserror * W;
  siaDir_Metadata : SiaDirSetEntry -> W -> Metadata * W;
  siaDir_UpdateMetadata :
    SiaDirSetEntry -> Metadata -> W -> option oserror * W;
  staticFileSet_Open : SiaPath -> W -> (SiaFileSetEntry * option oserror) * W;
  sf_Close : SiaFileSetEntry -> W -> option oserror * W;
  managedRenterContractsAndUtilities :
    list SiaFileSetEntry -> W -> (HostMap * HostMap) * W;
  sf_MarkAllHealthyChunksAsUnstuck :
    SiaFileSetEntry -> HostMap -> HostMap -> W -> option oserror * W;
  sf_Health :
    SiaFileSetEntry -> HostMap -> HostMap -> W -> (float64 * float64 * Z) * W;
  sf_UpdateLastHealthCheckTime : SiaFileSetEntry -> W -> option oserror * W;
  sf_Redundancy : SiaFileSetEntry -> HostMap -> HostMap -> W -> float64 * W;
  sf_LocalPath : SiaFileSetEntry -> W -> string * W;
  sf_LastHealthCheckTime : SiaFileSetEntry -> W -> Time * W;
  sf_ModTime : SiaFileSetEntry -> W -> Time * W;
  sf_Size : SiaFileSetEntry -> W -> Z * W;
  sf_UpdateCachedHealthMetadata :
    SiaFileSetEntry -> CachedHealthMetadata -> W -> option oserror * W;
  saveBubbleUpdates : gmap string bubbleStatus -> W -> option oserror * W
}.

(** The constants [modules.SiaFileExtension], [siadir.DefaultDirHealth]
    and [siafile.RemoteRepairDownloadThreshold]. *)
Class Constants : Type := {
  SiaFileExtension : string;
  DefaultDirHealth : float64;
  RemoteRepairDownloadThreshold : float64
}.

(** The two signals of the upload heap. *)
Inductive Signal : Type := SigRepairNeeded | SigStuckChunkFound.

(** Modelled from the spec: the signal channels [repairNeeded] and
    [stuckChunkFound] are made outside this package; the specification
    gives them capacity 1. *)
Definition signalCapacity : nat := 1%nat.

(** ** An in-memory implementation of the collaborators

    Paths are strings (the root is the empty string), an entry of a store
    is the path it was opened with, the filesystem is a map from system
    paths to directory listings, and the stores are maps from paths to
    records.  It serves to run the engine on concrete trees. *)
Module Sim.

Definition errAbsent (what : string) : oserror :=
  {| notExist := true; text := what |}.

Definition errIO (what : string) : oserror :=
  {| notExist := false; text := what |}.

(** The record of a file in the file store; [fUnreadable] makes the sweep
    of its stuck chunks fail. *)
Record FileRecord : Type := {
  fHealth : float64;
  fStuckHealth : float64;
  fNumStuckChunks : Z;
  fRedundancy : float64;
  fLastHealthCheckTime : Time;
  fModTime : Time;
  fSize : Z;
  fUnreadable : bool
}.

(** The world: filesystem, directory store, file store, the answers of
    the coming polls of the stop channel, the clock, whether persisting
    the coordinator map or writing a directory record fails, and the map
    persisted last. *)
Record World : Type := {
  fsDirs : gmap string (list FileInfo);
  dirRecords : gmap string Metadata;
  fileRecords : gmap string FileRecord;
  stopPolls : list bool;
  clock : Time;
  saveFails : bool;
  updateFails : bool;
  persisted : option (gmap string bubbleStatus)
}.

Definition set_dirRecords (w : World) (d : gmap string Metadata) : World :=
  {| fsDirs := fsDirs w; dirRecords := d; fileRecords := fileRecords w;
     stopPolls := stopPolls w; clock := clock w; saveFails := saveFails w;
     updateFails := updateFails w; persisted := persisted w |}.

Definition set_fileRecords (w : World) (f : gmap string FileRecord) : World :=
  {| fsDirs := fsDirs w; dirRecords := dirRecords w; fileRecords := f;
     stopPolls := stopPolls w; clock := clock w; saveFails := saveFails w;
     updateFails := updateFails w; persisted := persisted w |}.

Definition set_stopPolls (w : World) (l : list bool) : World :=
  {| fsDirs := fsDirs w; dirRecords := dirRecords w;
     fileRecords := fileRecords w;
     stopPolls := l; clock := clock w; saveFails := saveFails w;
     updateFails := updateFails w; persisted := persisted w |}.

Definition set_clock (w : World) (t : Time) : World :=
  {| fsDirs := fsDirs w; dirRecords := dirRecords w;
     fileRecords := fileRecords w;
     stopPolls := stopPolls w; clock := t; saveFails := saveFails w;
     updateFails := updateFails w; persisted := persisted w |}.

Definition set_persisted (w : World) (m : gmap string bubbleStatus) : World :=
  {| fsDirs := fsDirs w; dirRecords := dirRecords w;
     fileRecords := fileRecords w;
     stopPolls := stopPolls w; clock := clock w; saveFails := saveFails w;
     updateFails := updateFails w; persisted := Some m |}.

(** *** Paths *)

(** The path without its last element. *)
Fixpoint dirOf (s : string) : string :=
  match s with
  | EmptyString => EmptyString
  | String c rest =>
      if hasSeparator rest then String c (dirOf rest) else EmptyString
  end.

Definition isRoot (p : string) : bool := String.eqb p "".

#[export] Instance paths : PathOps string := {|
  SiaPath_String p := p;
  SiaPath_IsRoot := isRoot;
  SiaPath_Dir p :=
    if isRoot p then (p, Some (errNew "can't get the parent of the root"))
    else (dirOf p, None);
  SiaPath_Join p name :=
    if String.eqb name "" then (p, Some (errNew "empty name"))
    else if isRoot p then (name, None)
    else (p +:+ "/" +:+ name, None);
  SiaPath_SiaDirSysPath p dir :=
    if isRoot p then dir else dir +:+ "/" +:+ p
|}.

(** *** Constants: the extension [.sia], a healthy directory has health
    [0], and repair starts at health [0.25]. *)
#[export] Instance consts : Constants := {|
  SiaFileExtension := ".sia";
  DefaultDirHealth := float64_zero;
  RemoteRepairDownloadThreshold := S754_finite false 4503599627370496 (-54)
|}.

Definition defaultMetadata : Metadata := {|
  AggregateHealth := DefaultDirHealth;
  AggregateNumFiles := 0;
  AggregateSize := 0;
  Health := DefaultDirHealth;
  LastHealthCheckTime := Time_zero;
  MinRedundancy := MaxFloat64;
  ModTime := Time_zero;
  NumFiles := 0;
  NumStuckChunks := 0;
  NumSubDirs := 0;
  StuckHealth := DefaultDirHealth
|}.

Definition noFile : FileRecord := {|
  fHealth := float64_zero; fStuckHealth := float64_zero;
  fNumStuckChunks := 0; fRedundancy := float64_zero;
  fLastHealthCheckTime := 0; fModTime := 0; fSize := 0;
  fUnreadable := true
|}.

Definition fileOf (f : string) (w : World) : FileRecord :=
  default noFile (fileRecords w !! f).

(** *** The collaborators *)

Definition readDir (sys : string) (w : World)
  : (list FileInfo * option oserror) * World :=
  match fsDirs w !! sys with
  | Some l => ((l, None), w)
  | None => (([], Some (errAbsent sys)), w)
  end.

Definition stat (sys : string) (w : World)
  : (FileInfo * option oserror) * World :=
  match fsDirs w !! sys with
  | Some _ => (({| Name := sys; IsDir := true |}, None), w)
  | None => (({| Name := sys; IsDir := false |}, Some (errAbsent sys)), w)
  end.

Definition pollStop (w : World) : bool * World :=
  match stopPolls w with
  | [] => (false, w)
  | b :: l => (b, set_stopPolls w l)
  end.

Definition now (w : World) : Time * World :=
  (clock w, set_clock w (clock w + 1)).

Definition openDir (p : string) (w : World)
  : (string * option oserror) * World :=
  match dirRecords w !! p with
  | Some _ => ((p, None), w)
  | None => ((p, Some (errAbsent p)), w)
  end.

Definition newSiaDir (p : string) (w : World)
  : (string * option oserror) * World :=
  ((p, None), set_dirRecords w (<[p := defaultMetadata]> (dirRecords w))).

Definition dirMetadata (d : string) (w : World) : Metadata * World :=
  (default Metadata_zero (dirRecords w !! d), w).

Definition updateMetadata (d : string) (md : Metadata) (w : World)
  : option oserror * World :=
  if updateFails w then (Some (errIO "write failed"), w)
  else (None, set_dirRecords w (<[d := md]> (dirRecords w))).

Definition openFile (p : string) (w : World)
  : (string * option oserror) * World :=
  match fileRecords w !! p with
  | Some _ => ((p, None), w)
  | None => ((p, Some (errAbsent p)), w)
  end.

Definition markUnstuck (f : string) (_ _ : unit) (w : World)
  : option oserror * World :=
  if fUnreadable (fileOf f w) then (Some (errIO "unreadable"), w)
  else (None, w).

Definition updateLastHealthCheckTime (f : string) (w : World)
  : option oserror * World :=
  let fr := fileOf f w in
  (None,
   set_fileRecords w
     (<[f := {| fHealth := fHealth fr; fStuckHealth := fStuckHealth fr;
               fNumStuckChunks := fNumStuckChunks fr;
               fRedundancy := fRedundancy fr;
               fLastHealthCheckTime := clock w;
               fModTime := fModTime fr; fSize := fSize fr;
               fUnreadable := fUnreadable fr |}]> (fileRecords w))).

Definition save (m : gmap string bubbleStatus) (w : World)
  : option oserror * World :=
  if saveFails w then (Some (errIO "persist failed"), w)
  else (None, set_persisted w m).

#[export] Instance collab : Collaborators World string string string unit := {|
  ioutil_ReadDir := readDir;
  os_Stat := stat;
  tg_StopChan_closed := pollStop;
  tg_Add w := (None, w);
  tg_Done w := (tt, w);
  time_Now := now;
  staticDirSet_Open := openDir;
  staticDirSet_NewSiaDir := newSiaDir;
  siaDir_Close _ w := (None, w);
  siaDir_Metadata := dirMetadata;
  siaDir_UpdateMetadata := updateMetadata;
  staticFileSet_Open := openFile;
  sf_Close _ w := (None, w);
  managedRenterContractsAndUtilities _ w := ((tt, tt), w);
  sf_MarkAllHealthyChunksAsUnstuck := markUnstuck;
  sf_Health f _ _ w :=
    ((fHealth (fileOf f w), fStuckHealth (fileOf f w),
      fNumStuckChunks (fileOf f w)), w);
  sf_UpdateLastHealthCheckTime := updateLastHealthCheckTime;
  sf_Redundancy f _ _ w := (fRedundancy (fileOf f w), w);
  sf_LocalPath f w := ("/local/" +:+ f, w);
  sf_LastHealthCheckTime f w := (fLastHealthCheckTime (fileOf f w), w);
  sf_ModTime f w := (fModTime (fileOf f w), w);
  sf_Size f w := (fSize (fileOf f w), w);
  sf_UpdateCachedHealthMetadata _ _ w := (None, w);
  saveBubbleUpdates := save
|}.

(** *** Worlds *)

Definition filesDir : string := "/renter".

(** A file of health [0.5] and redundancy [3] with [n] stuck chunks. *)
Definition fileWithStuck (n : Z) : FileRecord := {|
  fHealth := S754_finite false 4503599627370496 (-53);
  fStuckHealth := float64_zero;
  fNumStuckChunks := n;
  fRedundancy := S754_finite false 6755399441055744 (-51);
  fLastHealthCheckTime := 5;
  fModTime := 7;
  fSize := 1024;
  fUnreadable := false
|}.

Definition emptyWorld : World := {|
  fsDirs := {[ filesDir := [] ]};
  dirRecords := ∅;
  fileRecords := ∅;
  stopPolls := [];
  clock := 100;
  saveFails := false;
  updateFails := false;
  persisted := None
|}.

(** The root holds the single file [x.sia], which has 3 stuck chunks. *)
Definition oneFileWorld : World := {|
  fsDirs := {[ filesDir := [ {| Name := "x.sia"; IsDir := false |} ] ]};
  dirRecords := {[ "" := defaultMetadata ]};
  fileRecords := {[ "x" := fileWithStuck 3 ]};
  stopPolls := [];
  clock := 100;
  saveFails := false;
  updateFails := false;
  persisted := None
|}.

(** The root holds [x.sia] and [y.sia]; the stop channel is found open
    once and closed at the second poll. *)
Definition shutdownWorld : World := {|
  fsDirs := {[ filesDir := [ {| Name := "x.sia"; IsDir := false |};
                             {| Name := "y.sia"; IsDir := false |} ] ]};
  dirRecords := {[ "" := defaultMetadata ]};
  fileRecords := {[ "x" := fileWithStuck 0; "y" := fileWithStuck 0 ]};
  stopPolls := [false; true];
  clock := 100;
  saveFails := false;
  updateFails := false;
  persisted := None
|}.

(** The root holds [x.sia], [broken.sia], which has no record in the file
    store, [y.sia], and the directory [gone], which is not on the
    filesystem any more. *)
Definition mixedWorld : World := {|
  fsDirs := {[ filesDir := [ {| Name := "x.sia"; IsDir := false |};
                             {| Name := "broken.sia"; IsDir := false |};
                             {| Name := "y.sia"; IsDir := false |};
                             {| Name := "gone"; IsDir := true |} ] ]};
  dirRecords := {[ "" := defaultMetadata ]};
  fileRecords := {[ "x" := fileWithStuck 1; "y" := fileWithStuck 2 ]};
  stopPolls := [];
  clock := 100;
  saveFails := false;
  updateFails := false;
  persisted := None
|}.

(** The metadata of a subdirectory of health and aggregate health
    [0.75]. *)
Definition unhealthySubdirectory : Metadata := {|
  AggregateHealth := S754_finite false 6755399441055744 (-53);
  AggregateNumFiles := 4;
  AggregateSize := 4096;
  Health := S754_finite false 6755399441055744 (-53);
  LastHealthCheckTime := 3;
  MinRedundancy := S754_finite false 4503599627370496 (-52);
  ModTime := 9;
  NumFiles := 4;
  NumStuckChunks := 0;
  NumSubDirs := 0;
  StuckHealth := float64_zero
|}.

(** The root holds [x.sia], of health [0.5], and the directory [sub], of
    health [0.75]. *)
Definition nestedWorld : World := {|
  fsDirs := {[ filesDir := [ {| Name := "x.sia"; IsDir := false |};
                             {| Name := "sub"; IsDir := true |} ];
               "/renter/sub" := [ {| Name := "z.sia"; IsDir := false |} ] ]};
  dirRecords := {[ "" := defaultMetadata; "sub" := unhealthySubdirectory ]};
  fileRecords := {[ "x" := fileWithStuck 0 ]};
  stopPolls := [];
  clock := 100;
  saveFails := false;
  updateFails := false;
  persisted := None
|}.

(** The directory [sub] holds [z.sia] and has no record in the directory
    store. *)
Definition absentRecordWorld : World := {|
  fsDirs := {[ filesDir := [ {| Name := "sub"; IsDir := true |} ];
               "/renter/sub" := [ {| Name := "z.sia"; IsDir := false |} ] ]};
  dirRecords := {[ "" := defaultMetadata ]};
  fileRecords := {[ "sub/z" := fileWithStuck 0 ]};
  stopPolls := [];
  clock := 100;
  saveFails := false;
  updateFails := false;
  persisted := None
|}.


(** The directory of the root is not on the filesystem. *)
Definition unreadableWorld : World := {|
  fsDirs := ∅;
  dirRecords := {[ "" := defaultMetadata ]};
  fileRecords := ∅;
  stopPolls := [];
  clock := 100;
  saveFails := false;
  updateFails := false;
  persisted := None
|}.

(** The root holds [x.sia], which has 3 stuck chunks and health [0.5];
    writing a directory record fails. *)
Definition writeFailsWorld : World := {|
  fsDirs := {[ filesDir := [ {| Name := "x.sia"; IsDir := false |} ] ]};
  dirRecords := {[ "" := defaultMetadata ]};
  fileRecords := {[ "x" := fileWithStuck 3 ]};
  stopPolls := [];
  clock := 100;
  saveFails := false;
  updateFails := true;
  persisted := None
|}.

(** The directory [a] of the root holds [x.sia]; [saveFailure] tells
    whether persisting the coordinator map fails. *)
Definition subdirectoryWorld (saveFailure : bool) : World := {|
  fsDirs := {[ filesDir := [ {| Name := "a"; IsDir := true |} ];
               "/renter/a" := [ {| Name := "x.sia"; IsDir := false |} ] ]};
  dirRecords := {[ "" := defaultMetadata; "a" := defaultMetadata ]};
  fileRecords := {[ "a/x" := fileWithStuck 0 ]};
  stopPolls := [];
  clock := 100;
  saveFails := saveFailure;
  updateFails := false;
  persisted := None
|}.


(** The root holds [x.sia]; the stop channel is found closed at the
    first poll. *)
Definition stoppedWorld : World := {|
  fsDirs := {[ filesDir := [ {| Name := "x.sia"; IsDir := false |} ] ]};
  dirRecords := {[ "" := defaultMetadata ]};
  fileRecords := {[ "x" := fileWithStuck 0 ]};
  stopPolls := [true];
  clock := 100;
  saveFails := false;
  updateFails := false;
  persisted := None
|}.

End Sim.

(** * The contractor and consensus changes

    [modules/renter/contractor/update.go].  The chain types, the wallet,
    the contract set and the persistence of the contractor live in other
    packages; they are the fields of [Chain].  [types.BlockHeight] is a
    [uint64], a [types.Specifier] an array of [SpecifierLen] bytes and a
    [proto.ContractSignedIdentifier] an array of [FCSignedIdentiferSize]
    bytes. *)

Abbreviation byte := Byte.byte.

(** Subtraction on [uint64] wraps around. *)
Definition uint64_sub (a b : Z) : Z := (a - b) mod uint64_modulus.

(** [a == b] on byte arrays. *)
Fixpoint bytes_eqb (a b : list byte) : bool :=
  match a, b with
  | [], [] => true
  | x :: a', y :: b' => Byte.eqb x y && bytes_eqb a' b'
  | _, _ => false
  end.

(** The builtin [copy(dst, src)]: the first [min(len(dst), len(src))]
    bytes of [dst] become those of [src]. *)
Definition copy (dst src : list byte) : list byte :=
  (take (length dst) src ++ drop (length src) dst)%list.

(** The zero value of a byte array of length [n]. *)
Definition zeroBytes (n : nat) : list byte := repeat Byte.x00 n.

Class Chain : Type := {
  FileContractID : Type;
  FileContractID_eq :: EqDecision FileContractID;
  FileContractID_countable :: Countable FileContractID;
  BlockID : Type;
  BlockID_eq :: EqDecision BlockID;
  GenesisID : BlockID;
  ConsensusChangeID : Type;
  (** [modules.Seed] and [proto.RenterSeed]. *)
  Seed : Type;
  RenterSeed : Type;
  (** [types.FileContract]. *)
  FileContract : Type;
  WindowStart : FileContract -> Z;
  WindowEnd : FileContract -> Z;
  (** [types.Transaction]; [Transaction_FileContractID txn i] is
      [txn.FileContractID(i)]. *)
  Transaction : Type;
  ArbitraryData : Transaction -> list (list byte);
  FileContracts : Transaction -> list FileContract;
  Transaction_FileContractID : Transaction -> Z -> FileContractID;
  (** [types.Block]. *)
  Block : Type;
  Block_ID : Block -> BlockID;
  Transactions : Block -> list Transaction;
  (** [modules.RenterContract]. *)
  RenterContract : Type;
  ID : RenterContract -> FileContractID;
  EndHeight : RenterContract -> Z;
  (** [proto.EphemeralRenterSeed] and
      [proto.ContractSignedIdentifier.IsValid]. *)
  EphemeralRenterSeed : Seed -> Z -> RenterSeed;
  IsValid : list byte -> RenterSeed -> Transaction -> bool;
  SpecifierLen : nat;
  FCSignedIdentiferSize : nat;
  PrefixNonSia : list byte;
  PrefixFileContractIdentifier : list byte;
  metricsContractID : FileContractID;
  (** [proto.ContractSet.ViewAll]: the contracts of the set, in the order
      of a Go map iteration. *)
  ViewAll : gmap FileContractID RenterContract -> list RenterContract;
  (** What the wallet and the persist file of the contractor are in. *)
  CW : Type;
  wallet_PrimarySeed : CW -> (Seed * option oserror) * CW;
  persist_save :
    Z -> Z -> ConsensusChangeID ->
    gmap FileContractID RenterContract ->
    gmap FileContractID FileContractID ->
    CW -> option oserror * CW;
}.

Module SimChain.

(** A chain whose identifiers are numbers, whose wallet always has a
    seed and whose saves succeed.  A transaction is its arbitrary data
    and its file contracts, a file contract its window, the identifier
    of the [i]th contract of a transaction [i] plus the number of its
    arbitrary data.  An identifier is valid for a seed when its last
    byte is [x01]. *)
Definition simPrefix (b : byte) : list byte := [b; b].

#[export] Instance simChain : Chain := {|
  FileContractID := Z;
  BlockID := Z;
  GenesisID := 0;
  ConsensusChangeID := Z;
  Seed := Z;
  RenterSeed := Z * Z;
  FileContract := Z * Z;
  WindowStart := fst;
  WindowEnd := snd;
  Transaction := list (list byte) * list (Z * Z);
  ArbitraryData := fst;
  FileContracts := snd;
  Transaction_FileContractID txn i := i + 100 * Z.of_nat (length (fst txn));
  Block := Z * list (list (list byte) * list (Z * Z));
  Block_ID := fst;
  Transactions := snd;
  RenterContract := Z * Z;
  ID := fst;
  EndHeight := snd;
  EphemeralRenterSeed s ws := (s, ws);
  IsValid csi rs txn :=
    match last csi with Some Byte.x01 => true | _ => false end;
  SpecifierLen := 2;
  FCSignedIdentiferSize := 3;
  PrefixNonSia := simPrefix Byte.x4e;
  PrefixFileContractIdentifier := simPrefix Byte.x46;
  metricsContractID := 7;
  ViewAll s := (map_to_list s).*2;
  CW := unit;
  wallet_PrimarySeed w := ((42, None), w);
  persist_save _ _ _ _ _ w := (None, w);
|}.

(** A transaction that carries an identifier which is valid, with one
    contract whose window ends at height 30, and one whose identifier is
    not valid. *)
Definition recoverTxn : list (list byte) * list (Z * Z) :=
  ([[Byte.x4e; Byte.x4e; Byte.x01]], [(20, 30)]).

Definition plainTxn : list (list byte) * list (Z * Z) :=
  ([[Byte.x00]; [Byte.x46; Byte.x46; Byte.x00]; [Byte.x4e; Byte.x4e; Byte.x01]],
   [(20, 30); (21, 31)]).

Definition genesisBlock : Z * list (list (list byte) * list (Z * Z)) :=
  (0, []).

Definition plainBlock : Z * list (list (list byte) * list (Z * Z)) :=
  (5, [plainTxn]).

Definition recoverBlock : Z * list (list (list byte) * list (Z * Z)) :=
  (6, [plainTxn; recoverTxn]).

Definition emptyBlock (id : Z) : Z * list (list (list byte) * list (Z * Z)) :=
  (id, []).

End SimChain.

Section Contractor.

Context {chain : Chain}.

(** What the contractor does outside its own fields, in order: its log
    lines, its saves (with the height, the period, the change and the old
    contracts that are saved), the overwriting of an ephemeral seed and
    the start of the maintenance thread. *)
Inductive Event : Type :=
| EvLogArchived (id : FileContractID)
| EvLogSeedFailed (e : oserror)
| EvLogSaveFailed (e : oserror)
| EvSave (height period : Z) (change : ConsensusChangeID)
    (old : gmap FileContractID RenterContract)
| EvWipe (rs : RenterSeed)
| EvGoMaintenance.

Record Contractor : Type := {
  blockHeight : Z;
  currentPeriod : Z;
  allowance_Period : Z;
  lastChange : ConsensusChangeID;
  staticContracts : gmap FileContractID RenterContract;
  oldContracts : gmap FileContractID RenterContract;
  renewedTo : gmap FileContractID FileContractID;
  chainWorld : CW;
  events : list Event;
}.

Definition with_blockHeight (c : Contractor) (h : Z) : Contractor :=
  {| blockHeight := h; currentPeriod := currentPeriod c;
     allowance_Period := allowance_Period c; lastChange := lastChange c;
     staticContracts := staticContracts c; oldContracts := oldContracts c;
     renewedTo := renewedTo c; chainWorld := chainWorld c;
     events := events c |}.

Definition with_currentPeriod (c : Contractor) (p : Z) : Contractor :=
  {| blockHeight := blockHeight c; currentPeriod := p;
     allowance_Period := allowance_Period c; lastChange := lastChange c;
     staticContracts := staticContracts c; oldContracts := oldContracts c;
     renewedTo := renewedTo c; chainWorld := chainWorld c;
     events := events c |}.

Definition with_lastChange (c : Contractor) (id : ConsensusChangeID)
    : Contractor :=
  {| blockHeight := blockHeight c; currentPeriod := currentPeriod c;
     allowance_Period := allowance_Period c; lastChange := id;
     staticContracts := staticContracts c; oldContracts := oldContracts c;
     renewedTo := renewedTo c; chainWorld := chainWorld c;
     events := events c |}.

Definition with_staticContracts (c : Contractor)
    (s : gmap FileContractID RenterContract) : Contractor :=
  {| blockHeight := blockHeight c; currentPeriod := currentPeriod c;
     allowance_Period := allowance_Period c; lastChange := lastChange c;
     staticContracts := s; oldContracts := oldContracts c;
     renewedTo := renewedTo c; chainWorld := chainWorld c;
     events := events c |}.

Definition with_oldContracts (c : Contractor)
    (o : gmap FileContractID RenterContract) : Contractor :=
  {| blockHeight := blockHeight c; currentPeriod := currentPeriod c;
     allowance_Period := allowance_Period c; lastChange := lastChange c;
     staticContracts := staticContracts c; oldContracts := o;
     renewedTo := renewedTo c; chainWorld := chainWorld c;
     events := events c |}.

Definition with_chainWorld (c : Contractor) (w : CW) : Contractor :=
  {| blockHeight := blockHeight c; currentPeriod := currentPeriod c;
     allowance_Period := allowance_Period c; lastChange := lastChange c;
     staticContracts := staticContracts c; oldContracts := oldContracts c;
     renewedTo := renewedTo c; chainWorld := w;
     events := events c |}.

Definition record (ev : Event) (c : Contractor) : Contractor :=
  {| blockHeight := blockHeight c; currentPeriod := currentPeriod c;
     allowance_Period := allowance_Period c; lastChange := lastChange c;
     staticContracts := staticContracts c; oldContracts := oldContracts c;
     renewedTo := renewedTo c; chainWorld := chainWorld c;
     events := (events c ++ [ev])%list |}.

(** [c.save()]. *)
Definition save (c : Contractor) : option oserror * Contractor :=
  let c1 :=
    record (EvSave (blockHeight c) (currentPeriod c) (lastChange c)
              (oldContracts c)) c in
  let saved :=
    persist_save (blockHeight c) (currentPeriod c) (lastChange c)
      (oldContracts c) (renewedTo c) (chainWorld c) in
  (fst saved, with_chainWorld c1 (snd saved)).

(** *** [hasFCIdentifier] *)

(** The loop of [hasFCIdentifier]; [prefix] is declared before the loop
    and so is carried from one entry of the arbitrary data to the
    next. *)
Fixpoint hasFCIdentifier_loop (prefix : list byte) (arbs : list (list byte))
    : list byte * bool :=
  match arbs with
  | [] => (zeroBytes FCSignedIdentiferSize, false)
  | arb :: rest =>
      if negb (length arb =? FCSignedIdentiferSize)%nat
      then hasFCIdentifier_loop prefix rest
      else
        let prefix := copy prefix arb in
        if negb (bytes_eqb prefix PrefixNonSia)
           && negb (bytes_eqb prefix PrefixFileContractIdentifier)
        then hasFCIdentifier_loop prefix rest
        else (copy (zeroBytes FCSignedIdentiferSize) arb, true)
  end.

Definition hasFCIdentifier (txn : Transaction) : list byte * bool :=
  hasFCIdentifier_loop (zeroBytes SpecifierLen) (ArbitraryData txn).

(** An entry of the arbitrary data, looked at on its own: it has the
    length of an identifier and its first bytes, as a specifier, are one
    of the two prefixes. *)
Definition specifierOf (arb : list byte) : list byte :=
  copy (zeroBytes SpecifierLen) arb.

Definition isIdentifier (arb : list byte) : bool :=
  (length arb =? FCSignedIdentiferSize)%nat
  && (bytes_eqb (specifierOf arb) PrefixNonSia
      || bytes_eqb (specifierOf arb) PrefixFileContractIdentifier).

(** *** [managedArchiveContracts] *)

(** The condition under which a contract is archived. *)
Definition archivable (c : Contractor) (contract : RenterContract) : bool :=
  (EndHeight contract <? blockHeight c)
  || bool_decide (is_Some (renewedTo c !! ID contract)).

(** One iteration of the first loop. *)
Definition archiveContract (currentHeight : Z)
    (acc : Contractor * list FileContractID) (contract : RenterContract)
    : Contractor * list FileContractID :=
  let '(c, expired) := acc in
  let renewed := bool_decide (is_Some (renewedTo c !! ID contract)) in
  if (EndHeight contract <? currentHeight) || renewed
  then
    let id := ID contract in
    let c := with_oldContracts c (<[id := contract]> (oldContracts c)) in
    (record (EvLogArchived id) c, (expired ++ [id])%list)
  else (c, expired).

(** One iteration of the second loop: [Acquire] and, when the contract is
    there, [Delete]. *)
Definition deleteExpired (s : gmap FileContractID RenterContract)
    (id : FileContractID) : gmap FileContractID RenterContract :=
  match s !! id with
  | Some _ => delete id s
  | None => s
  end.

Definition managedArchiveContracts (c : Contractor) : Contractor :=
  let currentHeight := blockHeight c in
  let archived :=
    fold_left (archiveContract currentHeight)
      (ViewAll (staticContracts c)) (c, []) in
  let c := snd (save (fst archived)) in
  with_staticContracts c
    (fold_left deleteExpired (snd archived) (staticContracts c)).

(** *** [recoverContracts] *)

(** How a function ends: it returns, or it panics with a message; in both
    cases with the contractor as it is then. *)
Inductive Outcome : Type :=
| Returned (c : Contractor)
| Panicked (msg : string) (c : Contractor).

Definition final (o : Outcome) : Contractor :=
  match o with Returned c | Panicked _ c => c end.

Definition returned (o : Outcome) : bool :=
  match o with Returned _ => true | Panicked _ _ => false end.

Definition recoverContract (fc : FileContract) (c : Contractor) : Outcome :=
  Panicked "not implemented" c.

(** The inner loop of [recoverContracts] from the contract of index [i]
    on.  [deferred] are the seeds whose overwriting has been deferred,
    the last one first. *)
Fixpoint recoverFileContracts (walletSeed : Seed) (csi : list byte)
    (txn : Transaction) (i : nat) (fcs : list FileContract)
    (deferred : list RenterSeed) (c : Contractor)
    : Outcome * list RenterSeed :=
  match fcs with
  | [] => (Returned c, deferred)
  | fc :: rest =>
      let rs := EphemeralRenterSeed walletSeed (WindowStart fc) in
      let deferred := rs :: deferred in
      let continue :=
        recoverFileContracts walletSeed csi txn (S i) rest deferred in
      if negb (IsValid csi rs txn) then continue c
      else if WindowEnd fc <=? blockHeight c then continue c
      else if bool_decide
                (is_Some (staticContracts c
                            !! Transaction_FileContractID txn (Z.of_nat i)))
      then continue c
      else
        match recoverContract fc c with
        | Returned c => continue c
        | Panicked msg c => (Panicked msg c, deferred)
        end
  end.

Fixpoint recoverTransactions (walletSeed : Seed) (txns : list Transaction)
    (deferred : list RenterSeed) (c : Contractor)
    : Outcome * list RenterSeed :=
  match txns with
  | [] => (Returned c, deferred)
  | txn :: rest =>
      let '(csi, hasIdentifier) := hasFCIdentifier txn in
      if negb hasIdentifier
      then recoverTransactions walletSeed rest deferred c
      else
        match recoverFileContracts walletSeed csi txn 0 (FileContracts txn)
                deferred c with
        | (Returned c, deferred) =>
            recoverTransactions walletSeed rest deferred c
        | (Panicked msg c, deferred) => (Panicked msg c, deferred)
        end
  end.

(** The deferred calls run when the function returns and when it
    panics, the last deferred first. *)
Definition wipeSeeds (deferred : list RenterSeed) (c : Contractor)
    : Contractor :=
  fold_left (fun c rs => record (EvWipe rs) c) deferred c.

Definition runDeferred (deferred : list RenterSeed) (o : Outcome) : Outcome :=
  match o with
  | Returned c => Returned (wipeSeeds deferred c)
  | Panicked msg c => Panicked msg (wipeSeeds deferred c)
  end.

Definition recoverContracts (walletSeed : Seed) (b : Block) (c : Contractor)
    : Outcome :=
  let '(o, deferred) :=
    recoverTransactions walletSeed (Transactions b) [] c in
  runDeferred deferred o.

(** The contract of index [i] of [txn] passes the three checks of the
    inner loop for the identifier [csi]. *)
Definition wanted (walletSeed : Seed) (c : Contractor) (csi : list byte)
    (txn : Transaction) (i : nat) (fc : FileContract) : bool :=
  IsValid csi (EphemeralRenterSeed walletSeed (WindowStart fc)) txn
  && negb (WindowEnd fc <=? blockHeight c)
  && negb (bool_decide
             (is_Some (staticContracts c
                         !! Transaction_FileContractID txn (Z.of_nat i)))).

(** The contract of index [i] of [txn] is one that [recoverContracts]
    goes on to recover. *)
Definition recoverable (walletSeed : Seed) (c : Contractor)
    (txn : Transaction) (i : nat) (fc : FileContract) : bool :=
  snd (hasFCIdentifier txn)
  && wanted walletSeed c (fst (hasFCIdentifier txn)) txn i fc.

(** *** [ProcessConsensusChange] *)

Record ConsensusChange : Type := {
  cc_ID : ConsensusChangeID;
  RevertedBlocks : list Block;
  AppliedBlocks : list Block;
  Synced : bool;
}.

Definition notGenesis (block : Block) : bool :=
  negb (bool_decide (Block_ID block = GenesisID)).

Definition revertBlock (c : Contractor) (block : Block) : Contractor :=
  if notGenesis block
  then with_blockHeight c (uint64_sub (blockHeight c) 1)
  else c.

Fixpoint applyBlocks (s : Seed) (blocks : list Block) (c : Contractor)
    : Outcome :=
  match blocks with
  | [] => Returned c
  | block :: rest =>
      let c :=
        if notGenesis block
        then with_blockHeight c (uint64_add (blockHeight c) 1)
        else c in
      match recoverContracts s block c with
      | Returned c => applyBlocks s rest c
      | Panicked msg c => Panicked msg c
      end
  end.

(** The part of [ProcessConsensusChange] after the two loops. *)
Definition finishConsensusChange (cc : ConsensusChange) (c : Contractor)
    : Contractor :=
  let c :=
    if uint64_add (currentPeriod c) (allowance_Period c) <=? blockHeight c
    then
      let c :=
        with_currentPeriod c
          (uint64_add (currentPeriod c) (allowance_Period c)) in
      with_oldContracts c (delete metricsContractID (oldContracts c))
    else c in
  let c := with_lastChange c (cc_ID cc) in
  let '(err, c) := save c in
  let c :=
    match err with
    | Some e => record (EvLogSaveFailed e) c
    | None => c
    end in
  if Synced cc then record EvGoMaintenance c else c.

(** The call of the wallet at the start of [ProcessConsensusChange]:
    the seed it returns is used whether or not it comes with an error. *)
Definition askWallet (c : Contractor) : Seed * Contractor :=
  let '((s, err), w) := wallet_PrimarySeed (chainWorld c) in
  let c := with_chainWorld c w in
  (s, match err with
      | Some e => record (EvLogSeedFailed e) c
      | None => c
      end).

Definition ProcessConsensusChange (cc : ConsensusChange) (c : Contractor)
    : Outcome :=
  let '(s, c) := askWallet c in
  let c := fold_left revertBlock (RevertedBlocks cc) c in
  match applyBlocks s (AppliedBlocks cc) c with
  | Returned c => Returned (finishConsensusChange cc c)
  | Panicked msg c => Panicked msg c
  end.

(** The fields of the contractor that [managedArchiveContracts] and
    [recoverContracts] could change but are shown not to. *)
Definition settings (c : Contractor)
    : Z * Z * ConsensusChangeID * gmap FileContractID FileContractID * CW :=
  (currentPeriod c, allowance_Period c, lastChange c, renewedTo c,
   chainWorld c).

Definition isLogArchived (ev : Event) : bool :=
  match ev with EvLogArchived _ => true | _ => false end.

Definition isWipe (ev : Event) : bool :=
  match ev with EvWipe _ => true | _ => false end.

(** The ephemeral seeds that [recoverContracts] derives for a block
    none of whose contracts it goes on to recover, in the order it
    derives them. *)
Definition derivedSeeds (walletSeed : Seed) (txns : list Transaction)
    : list RenterSeed :=
  concat
    (map (fun txn =>
            if snd (hasFCIdentifier txn)
            then map (fun fc => EphemeralRenterSeed walletSeed
                                  (WindowStart fc))
                   (FileContracts txn)
            else [])
       txns).

(** How many of [blocks] are not the genesis block. *)
Definition countBlocks (blocks : list Block) : Z :=
  Z.of_nat (length (filter (fun b => notGenesis b = true) blocks)).

Definition isSave (ev : Event) : bool :=
  match ev with EvSave _ _ _ _ => true | _ => false end.

Definition isGoMaintenance (ev : Event) : bool :=
  match ev with EvGoMaintenance => true | _ => false end.

(** An event that is neither a save nor the start of the maintenance. *)
Definition quiet (ev : Event) : bool :=
  negb (isSave ev) && negb (isGoMaintenance ev).

End Contractor.

Module SimContractor.

Import SimChain.

(** A contractor at height 10 in the period that started at 0, with an
    allowance period of 4 blocks: contract 1 has ended, contract 2 has
    not, contract 3 has not but has been renewed; the old contracts hold
    the metrics contract. *)
Definition simContractor : Contractor := {|
  blockHeight := 10;
  currentPeriod := 0;
  allowance_Period := 4;
  lastChange := 0;
  staticContracts := <[1 := (1, 5)]> (<[2 := (2, 50)]> (<[3 := (3, 60)]> ∅));
  oldContracts := <[7 := (7, 1)]> ∅;
  renewedTo := <[3 := 9]> ∅;
  chainWorld := tt;
  events := [];
|}.

(** One block reverted, then the genesis block and two others applied,
    none with a contract to recover. *)
Definition simChange : ConsensusChange := {|
  cc_ID := 77;
  RevertedBlocks := [emptyBlock 4];
  AppliedBlocks := [genesisBlock; plainBlock; emptyBlock 8];
  Synced := true;
|}.

(** The second applied block has a contract to recover. *)
Definition simPanicChange : ConsensusChange := {|
  cc_ID := 78;
  RevertedBlocks := [];
  AppliedBlocks := [plainBlock; recoverBlock; emptyBlock 8];
  Synced := true;
|}.

End SimContractor.


(** * New files of an upload

    [modules/renter/upload.go].  The sector size, the erasure coder, the
    cipher key and [siafile.New] live in other packages, and the limits
    of an allocation belong to the Go runtime; they are the fields of
    [Files].  An [int] and a [uintptr] have 64 bits. *)

Definition int_modulus : Z := 2 ^ 63.

(** The conversions [int(x)] of a [uint64] and [uint64(x)] of an [int];
    [x + 1] on an [int] is [to_int (x + 1)]. *)
Definition to_int (x : Z) : Z :=
  (x + int_modulus) mod uint64_modulus - int_modulus.

Definition to_uint64 (x : Z) : Z := x mod uint64_modulus.

Definition uint64_mul (a b : Z) : Z := (a * b) mod uint64_modulus.

Class Files : Type := {
  SectorSize : Z;
  ErasureCoder : Type;
  MinPieces : ErasureCoder -> Z;
  CipherKey : Type;
  (** [sk.Type().Overhead()] *)
  Overhead : CipherKey -> Z;
  WAL : Type;
  FileMode : Type;
  (** What [siafile.New] returns. *)
  NewSiaFile : Type;
  siafile_New :
    string -> string -> string -> WAL -> list ErasureCoder -> CipherKey ->
    Z -> FileMode -> NewSiaFile;
  (** The size in bytes of a [modules.ErasureCoder] value, the runtime's
      [maxAlloc], and whether the heap can provide a number of bytes. *)
  ErasureCoder_size : Z;
  maxAlloc : Z;
  heapProvides : Z -> bool;
}.

Module SimFiles.

(** Sectors of 4096 bytes, an erasure coder that is its number of data
    pieces, a key that is its overhead, and a [siafile.New] that returns
    the number of its erasure coders and the size of the file.  An
    erasure coder, an interface value, takes 16 bytes; the runtime
    allocates up to [2^48] bytes and the heap provides [2^30]. *)
#[export] Instance simFiles : Files := {|
  SectorSize := 4096;
  ErasureCoder := Z;
  MinPieces ec := ec;
  CipherKey := Z;
  Overhead sk := sk;
  WAL := unit;
  FileMode := unit;
  NewSiaFile := nat * Z;
  siafile_New _ _ _ _ ecs _ fileSize _ := (length ecs, fileSize);
  ErasureCoder_size := 16;
  maxAlloc := 2 ^ 48;
  heapProvides mem := mem <=? 2 ^ 30;
|}.

End SimFiles.

Section Upload.

Context {files : Files}.

(** How a call of [newFile] ends: it returns what [siafile.New] returns,
    it panics with a run-time error, or the process dies because the
    heap is exhausted. *)
Inductive NewFileResult : Type :=
| NewFileReturns (f : NewSiaFile)
| NewFilePanics (msg : string)
| NewFileOutOfMemory.

(** The size of a chunk. *)
Definition chunkSize (rsc : ErasureCoder) (sk : CipherKey) : Z :=
  uint64_mul (uint64_sub SectorSize (Overhead sk))
    (to_uint64 (MinPieces rsc)).

(** The number of chunks that [newFile] computes; [None] when the
    division panics. *)
Definition numChunks (fileSize chunkSize : Z) : option Z :=
  let numChunks := 1 in
  if 0 <? fileSize
  then
    if chunkSize =? 0 then None
    else
      let numChunks := to_int (fileSize / chunkSize) in
      Some (if negb (fileSize mod chunkSize =? 0)
            then to_int (numChunks + 1)
            else numChunks)
  else Some numChunks.

(** The check of the runtime's [makeslice] on [make([]T, len)] for
    elements of [size] bytes: the length is negative, or the number of
    bytes overflows a [uintptr] or is above [maxAlloc]. *)
Definition lenOutOfRange (size len : Z) : bool :=
  (len <? 0) || (uint64_modulus <=? size * len) || (maxAlloc <? size * len).

(** [make([]modules.ErasureCoder, numChunks)] and the loop that fills
    it. *)
Inductive MakeResult : Type :=
| Made (ecs : list ErasureCoder)
| MakePanics
| MakeOutOfMemory.

Definition makeErasureCoders (rsc : ErasureCoder) (numChunks : Z)
    : MakeResult :=
  if lenOutOfRange ErasureCoder_size numChunks then MakePanics
  else if heapProvides (ErasureCoder_size * numChunks)
  then Made (repeat rsc (Z.to_nat numChunks))
  else MakeOutOfMemory.

Definition errDivide : string := "runtime error: integer divide by zero".
Definition errMakeslice : string :=
  "runtime error: makeslice: len out of range".

(** [newFile]. *)
Definition newFile (siaFilePath name : string) (wal : WAL)
    (rsc : ErasureCoder) (sk : CipherKey) (fileSize : Z) (mode : FileMode)
    (source : string) : NewFileResult :=
  match numChunks fileSize (chunkSize rsc sk) with
  | None => NewFilePanics errDivide
  | Some n =>
      match makeErasureCoders rsc n with
      | MakePanics => NewFilePanics errMakeslice
      | MakeOutOfMemory => NewFileOutOfMemory
      | Made ecs =>
          NewFileReturns
            (siafile_New siaFilePath name source wal ecs sk fileSize mode)
      end
  end.

(** The number of chunks of size [chunkSize] that a file of [fileSize]
    bytes needs; a file of no bytes has one chunk. *)
Definition chunksNeeded (fileSize chunkSize : Z) : Z :=
  if fileSize =? 0 then 1 else (fileSize + chunkSize - 1) / chunkSize.

End Upload.


(** ** The engine *)

Section Engine.

Context {W SiaPath SiaDirSetEntry SiaFileSetEntry HostMap : Type}.
Context {paths : PathOps SiaPath}.
Context {collab :
  Collaborators W SiaPath SiaDirSetEntry SiaFileSetEntry HostMap}.

Context {consts : Constants}.

(** The calls that leave the package, in the order they are made: the
    calls of collaborators that do I/O or change a store, the [go]
    statements, the sends on the signal channels and the log lines.
    (Getters of an open entry and the clock thread the world but are not
    recorded.) *)
Inductive Call : Type :=
| CallReadDir (sys : string)
| CallStat (sys : string)
| CallStopChan (closed : bool)
| CallTgAdd
| CallTgDone
| CallDirOpen (p : SiaPath)
| CallNewSiaDir (p : SiaPath)
| CallDirClose (d : SiaDirSetEntry)
| CallUpdateMetadata (d : SiaDirSetEntry) (md : Metadata)
| CallFileOpen (p : SiaPath)
| CallFileClose (f : SiaFileSetEntry)
| CallMarkAllHealthyChunksAsUnstuck (f : SiaFileSetEntry)
| CallUpdateLastHealthCheckTime (f : SiaFileSetEntry)
| CallUpdateCachedHealthMetadata (f : SiaFileSetEntry)
    (c : CachedHealthMetadata)
| CallSave (m : gmap string bubbleStatus)
| CallGo (p : SiaPath)
| CallSend (sig : Signal) (sent : bool)
| CallLog (line : string).

(** The renter, as far as the bubble code reads and writes it: the
    coordinator map, the number of units queued on each of the two signal
    channels and the files directory; with it, the state [world] of the
    collaborators and the [trace] of the calls made so far. *)
Record Renter : Type := {
  bubbleUpdates : gmap string bubbleStatus;
  repairNeeded : nat;
  stuckChunkFound : nat;
  staticFilesDir : string;
  world : W;
  trace : list Call
}.

(** *** The state monad of the renter *)

Definition M (A : Type) : Type := Renter -> A * Renter.

Definition ret {A : Type} (a : A) : M A := fun r => (a, r).

Definition bind {A B : Type} (c : M A) (k : A -> M B) : M B :=
  fun r => let (a, r') := c r in k a r'.

Notation "x <- c ;; k" := (bind c (fun x => k))
  (at level 62, c at level 61, right associativity).
Notation "c ;;; k" := (bind c (fun _ => k))
  (at level 62, right associativity).

Definition gets {A : Type} (f : Renter -> A) : M A := fun r => (f r, r).

(** Assignments to one field of the renter. *)
Definition with_bubbleUpdates (r : Renter) (m : gmap string bubbleStatus)
  : Renter :=
  {| bubbleUpdates := m;
     repairNeeded := repairNeeded r;
     stuckChunkFound := stuckChunkFound r;
     staticFilesDir := staticFilesDir r;
     world := world r;
     trace := trace r |}.

Definition with_world (r : Renter) (w : W) : Renter :=
  {| bubbleUpdates := bubbleUpdates r;
     repairNeeded := repairNeeded r;
     stuckChunkFound := stuckChunkFound r;
     staticFilesDir := staticFilesDir r;
     world := w;
     trace := trace r |}.

Definition with_trace (r : Renter) (t : list Call) : Renter :=
  {| bubbleUpdates := bubbleUpdates r;
     repairNeeded := repairNeeded r;
     stuckChunkFound := stuckChunkFound r;
     staticFilesDir := staticFilesDir r;
     world := world r;
     trace := t |}.

Definition emit (ev : Call) : M unit :=
  fun r => (tt, with_trace r (trace r ++ [ev])).

(** A call of a collaborator: it runs on the world of the renter. *)
Definition ask {A : Type} (op : W -> A * W) : M A :=
  fun r => let (a, w) := op (world r) in (a, with_world r w).

Definition putBubbleUpdates (m : gmap string bubbleStatus) : M unit :=
  fun r => (tt, with_bubbleUpdates r m).

(** [r.bubbleUpdates[key] = status] and [delete(r.bubbleUpdates, key)] *)
Definition storeStatus (key : string) (status : bubbleStatus) : M unit :=
  m <- gets bubbleUpdates ;; putBubbleUpdates (<[key := status]> m).

Definition deleteStatus (key : string) : M unit :=
  m <- gets bubbleUpdates ;; putBubbleUpdates (delete key m).

(** [r.log.Printf], [r.log.Println] and [r.log.Debugln] *)
Definition log (line : string) : M unit := emit (CallLog line).

(** [go r.threadedBubbleMetadata(p)]: the new task is recorded, it runs
    later. *)
Definition go_threadedBubbleMetadata (p : SiaPath) : M unit :=
  emit (CallGo p).

(** [r.saveBubbleUpdates()] *)
Definition r_saveBubbleUpdates : M (option error) :=
  m <- gets bubbleUpdates ;;
  emit (CallSave m) ;;;
  e <- ask (saveBubbleUpdates m) ;;
  ret (liftErr e).

(** ** The coordinator

    Both operations run under [r.bubbleUpdatesMu] from their first to
    their last statement, so that each is one atomic step on the map. *)

Definition errInvalidBubbleStatus : error :=
  errNew "WARN: invalid bubble status".

(** [managedBubbleNeeded] *)
Definition managedBubbleNeeded (siaPath : SiaPath) : M (bool * option error) :=
  let siaPathStr := SiaPath_String siaPath in
  m <- gets bubbleUpdates ;;
  status <- match m !! siaPathStr with
            | Some status => ret status
            | None => storeStatus siaPathStr bubbleInit ;;; ret bubbleInit
            end ;;
  match status with
  | bubblePending => ret (false, None)
  | bubbleActive =>
      storeStatus siaPathStr bubblePending ;;; ret (false, None)
  | bubbleInit =>
      storeStatus siaPathStr bubbleActive ;;; ret (true, None)
  | bubbleError => ret (false, Some errInvalidBubbleStatus)
  end.

(** [managedCompleteBubbleUpdate].  In the [bubblePending] case the
    deferred [go] statement runs once the result of
    [r.saveBubbleUpdates()] is known. *)
Definition managedCompleteBubbleUpdate (siaPath : SiaPath) : M (option error) :=
  let siaPathStr := SiaPath_String siaPath in
  m <- gets bubbleUpdates ;;
  match m !! siaPathStr with
  | None => ret None
  | Some bubblePending =>
      storeStatus siaPathStr bubbleInit ;;;
      err <- r_saveBubbleUpdates ;;
      go_threadedBubbleMetadata siaPath ;;;
      ret err
  | Some bubbleActive =>
      deleteStatus siaPathStr ;;;
      r_saveBubbleUpdates
  | Some _ => ret (Some errInvalidBubbleStatus)
  end.


(** ** The file probe *)

(** [managedCalculateAndUpdateFileMetadata] *)
Definition managedCalculateAndUpdateFileMetadata (siaPath : SiaPath)
  : M (BubbledMetadata * option error) :=
  emit (CallFileOpen siaPath) ;;;
  o <- ask (staticFileSet_Open siaPath) ;;
  let '(sf, err) := o in
  match err with
  | Some e => ret (BubbledMetadata_zero, Some (errOS e))
  | None =>
      res <-
        (maps <- ask (managedRenterContractsAndUtilities [sf]) ;;
         let '(hostOfflineMap, hostGoodForRenewMap) := maps in
         emit (CallMarkAllHealthyChunksAsUnstuck sf) ;;;
         err <- ask (sf_MarkAllHealthyChunksAsUnstuck sf hostOfflineMap
                       hostGoodForRenewMap) ;;
         match err with
         | Some e =>
             ret (BubbledMetadata_zero,
                  Some (errors_AddContext (errOS e)
                          "unable to mark healthy chunks as unstuck"))
         | None =>
             h <- ask (sf_Health sf hostOfflineMap hostGoodForRenewMap) ;;
             let '(health, stuckHealth, numStuckChunks) := h in
             emit (CallUpdateLastHealthCheckTime sf) ;;;
             err <- ask (sf_UpdateLastHealthCheckTime sf) ;;
             match err with
             | Some e => ret (BubbledMetadata_zero, Some (errOS e))
             | None =>
                 redundancy <-
                   ask (sf_Redundancy sf hostOfflineMap hostGoodForRenewMap) ;;
                 localPath <- ask (sf_LocalPath sf) ;;
                 emit (CallStat localPath) ;;;
                 st <- ask (os_Stat localPath) ;;
                 (if os_IsNotExist (liftErr (snd st))
                     && flt redundancy float64_one
                  then
                    lp <- ask (sf_LocalPath sf) ;;
                    log ("File not found on disk and possibly unrecoverable: "
                           +:+ lp)
                  else ret tt) ;;;
                 let metadata := {| cHealth := health;
                                    cRedundancy := redundancy;
                                    cStuckHealth := stuckHealth |} in
                 lastHealthCheckTime <- ask (sf_LastHealthCheckTime sf) ;;
                 modTime <- ask (sf_ModTime sf) ;;
                 size <- ask (sf_Size sf) ;;
                 emit (CallUpdateCachedHealthMetadata sf metadata) ;;;
                 err <- ask (sf_UpdateCachedHealthMetadata sf metadata) ;;
                 ret ({| bHealth := health;
                         bLastHealthCheckTime := lastHealthCheckTime;
                         bModTime := modTime;
                         bNumStuckChunks := numStuckChunks;
                         bRedundancy := redundancy;
                         bSize := size;
                         bStuckHealth := stuckHealth |}, liftErr err)
             end
         end) ;;
      (* defer sf.Close() *)
      emit (CallFileClose sf) ;;;
      _ <- ask (sf_Close sf) ;;
      ret res
  end.

(** ** The subdirectory read *)

(** [managedDirectoryMetadata].  Inside the [if os.IsNotExist(err)] block,
    [fileInfos, err := ioutil.ReadDir(...)] declares a second [err], local
    to the block; [siaDir, err = r.staticDirSet.NewSiaDir(siaPath)] then
    assigns the [siaDir] of the function and the [err] of the block, and
    the [err] of the function keeps the error of [Open]. *)
Definition managedDirectoryMetadata (siaPath : SiaPath)
  : M (Metadata * option error) :=
  filesDir <- gets staticFilesDir ;;
  let sys := SiaPath_SiaDirSysPath siaPath filesDir in
  emit (CallStat sys) ;;;
  st <- ask (os_Stat sys) ;;
  let '(fi, err) := st in
  match err with
  | Some e => ret (Metadata_zero, Some (errOS e))
  | None =>
      if negb (IsDir fi)
      then ret (Metadata_zero,
                Some (errNew (SiaPath_String siaPath +:+ " is not a directory")))
      else
        emit (CallDirOpen siaPath) ;;;
        o <- ask (staticDirSet_Open siaPath) ;;
        let siaDir := fst o in
        let err := liftErr (snd o) in
        blk <-
          (if os_IsNotExist err
           then
             let initError := err in
             emit (CallReadDir sys) ;;;
             rd <- ask (ioutil_ReadDir sys) ;;
             let '(fileInfos, err') := rd in
             match err' with
             | Some e => ret (inl (Metadata_zero, Some (errOS e)))
             | None =>
                 if (length fileInfos =? 0)%nat
                    && negb (SiaPath_IsRoot siaPath)
                 then ret (inl (Metadata_zero, initError))
                 else
                   emit (CallNewSiaDir siaPath) ;;;
                   n <- ask (staticDirSet_NewSiaDir siaPath) ;;
                   ret (inr (fst n))
             end
           else ret (inr siaDir)) ;;
        match blk with
        | inl result => ret result
        | inr siaDir =>
            match err with
            | Some e => ret (Metadata_zero, Some e)
            | None =>
                md <- ask (siaDir_Metadata siaDir) ;;
                (* defer siaDir.Close() *)
                emit (CallDirClose siaDir) ;;;
                _ <- ask (siaDir_Close siaDir) ;;
                ret (md, None)
            end
        end
  end.

(** ** The directory metadata calculator *)

(** What one iteration of the loop over the directory does next: leave
    the function with a result, or go on with the next entry. *)
Inductive Flow : Type :=
| Return (result : Metadata * option error)
| Next (metadata : Metadata).

(** The metadata a step of the loop carries. *)
Definition flowMetadata (step : Flow) : Metadata :=
  match step with
  | Return result => fst result
  | Next metadata => metadata
  end.

(** The end of the loop body, from "Update the Health of the directory"
    to the second addition to [NumStuckChunks]. *)
Definition foldChild (fileMetadata : BubbledMetadata)
    (aggregateHealth stuckHealth redundancy : float64) (numStuckChunks : Z)
    (lastHealthCheckTime modTime : Time) (metadata : Metadata) : Metadata :=
  let metadata :=
    if fgt (bHealth fileMetadata) (Health metadata)
    then set_Health metadata (bHealth fileMetadata) else metadata in
  let metadata :=
    if fgt aggregateHealth (AggregateHealth metadata)
    then set_AggregateHealth metadata aggregateHealth else metadata in
  let metadata :=
    if fgt stuckHealth (StuckHealth metadata)
    then set_StuckHealth metadata stuckHealth else metadata in
  let metadata :=
    if flt redundancy (MinRedundancy metadata)
    then set_MinRedundancy metadata redundancy else metadata in
  let metadata :=
    if Time_After modTime (ModTime metadata)
    then set_ModTime metadata modTime else metadata in
  let metadata :=
    set_NumStuckChunks metadata
      (uint64_add (NumStuckChunks metadata) numStuckChunks) in
  let metadata :=
    if Time_Before lastHealthCheckTime (LastHealthCheckTime metadata)
    then set_LastHealthCheckTime metadata lastHealthCheckTime
    else metadata in
  let metadata :=
    set_NumStuckChunks metadata
      (uint64_add (NumStuckChunks metadata) numStuckChunks) in
  metadata.

(** The non-blocking receive on [r.tg.StopChan()]. *)
Definition stopped : M bool :=
  closed <- ask tg_StopChan_closed ;;
  emit (CallStopChan closed) ;;;
  ret closed.

(** The body of [for _, fi := range fileinfos].  [err] is the variable of
    the function, assigned by [ioutil.ReadDir]; the [err] of the two
    branches are variables of their blocks. *)
Definition calculateEntry (siaPath : SiaPath) (err : option error)
    (fi : FileInfo) (metadata : Metadata) : M Flow :=
  closed <- stopped ;;
  if closed then ret (Return (Metadata_zero, err))
  else
    let fileMetadata := BubbledMetadata_zero in
    let ext := filepath_Ext (Name fi) in
    if String.eqb ext SiaFileExtension then
      let fName := strings_TrimSuffix (Name fi) SiaFileExtension in
      let '(fileSiaPath, err) := SiaPath_Join siaPath fName in
      match err with
      | Some _ =>
          log "unable to join siapath with dirpath while calculating directory metadata" ;;;
          ret (Next metadata)
      | None =>
          pr <- managedCalculateAndUpdateFileMetadata fileSiaPath ;;
          let '(fileMetadata, err) := pr in
          match err with
          | Some _ =>
              log ("failed to calculate file metadata " +:+ Name fi) ;;;
              ret (Next metadata)
          | None =>
              let aggregateHealth := bHealth fileMetadata in
              let stuckHealth := bStuckHealth fileMetadata in
              let redundancy := bRedundancy fileMetadata in
              let numStuckChunks := bNumStuckChunks fileMetadata in
              let lastHealthCheckTime := bLastHealthCheckTime fileMetadata in
              let modTime := bModTime fileMetadata in
              let metadata :=
                set_NumFiles metadata (uint64_add (NumFiles metadata) 1) in
              let metadata :=
                set_AggregateNumFiles metadata
                  (uint64_add (AggregateNumFiles metadata) 1) in
              let metadata :=
                set_AggregateSize metadata
                  (uint64_add (AggregateSize metadata) (bSize fileMetadata)) in
              ret (Next (foldChild fileMetadata aggregateHealth stuckHealth
                           redundancy numStuckChunks lastHealthCheckTime
                           modTime metadata))
          end
      end
    else if IsDir fi then
      let '(dirSiaPath, err) := SiaPath_Join siaPath (Name fi) in
      match err with
      | Some e => ret (Return (Metadata_zero, Some e))
      | None =>
          dr <- managedDirectoryMetadata dirSiaPath ;;
          let '(dirMetadata, err) := dr in
          match err with
          | Some e => ret (Return (Metadata_zero, Some e))
          | None =>
              let aggregateHealth :=
                math_Max (AggregateHealth dirMetadata) (Health dirMetadata) in
              let stuckHealth := StuckHealth dirMetadata in
              let redundancy := MinRedundancy dirMetadata in
              let numStuckChunks := NumStuckChunks dirMetadata in
              let lastHealthCheckTime := LastHealthCheckTime dirMetadata in
              let modTime := ModTime dirMetadata in
              let metadata :=
                set_AggregateNumFiles metadata
                  (uint64_add (AggregateNumFiles metadata)
                     (AggregateNumFiles dirMetadata)) in
              let metadata :=
                set_AggregateSize metadata
                  (uint64_add (AggregateSize metadata)
                     (AggregateSize dirMetadata)) in
              let metadata :=
                set_NumSubDirs metadata (uint64_add (NumSubDirs metadata) 1) in
              ret (Next (foldChild fileMetadata aggregateHealth stuckHealth
                           redundancy numStuckChunks lastHealthCheckTime
                           modTime metadata))
          end
      end
    else ret (Next metadata).

(** The loop over the directory: it ends at the first [return]. *)
Fixpoint calculateEntries (siaPath : SiaPath) (err : option error)
    (fileinfos : list FileInfo) (metadata : Metadata) : M Flow :=
  match fileinfos with
  | [] => ret (Next metadata)
  | fi :: rest =>
      step <- calculateEntry siaPath err fi metadata ;;
      match step with
      | Return result => ret (Return result)
      | Next metadata => calculateEntries siaPath err rest metadata
      end
  end.

(** The metadata the calculation starts from; [now] is [time.Now()]. *)
Definition initialMetadata (now : Time) : Metadata := {|
  AggregateHealth := DefaultDirHealth;
  AggregateNumFiles := 0;
  AggregateSize := 0;
  Health := DefaultDirHealth;
  LastHealthCheckTime := now;
  MinRedundancy := MaxFloat64;
  ModTime := Time_zero;
  NumFiles := 0;
  NumStuckChunks := 0;
  NumSubDirs := 0;
  StuckHealth := DefaultDirHealth
|}.

(** The start of [managedCalculateDirectoryMetadata]: the default
    metadata and the reading of the directory. *)
Definition startCalculation (siaPath : SiaPath)
  : M (Metadata * list FileInfo * option error) :=
  now <- ask time_Now ;;
  let metadata := initialMetadata now in
  filesDir <- gets staticFilesDir ;;
  emit (CallReadDir (SiaPath_SiaDirSysPath siaPath filesDir)) ;;;
  rd <- ask (ioutil_ReadDir (SiaPath_SiaDirSysPath siaPath filesDir)) ;;
  ret (metadata, fst rd, liftErr (snd rd)).

(** The end of [managedCalculateDirectoryMetadata], after the loop: the
    two sanity checks and the last [return]. *)
Definition finishCalculation (step : Flow) : M (Metadata * option error) :=
  match step with
  | Return result => ret result
  | Next metadata =>
      metadata <-
        (if Time_IsZero (ModTime metadata)
         then now <- ask time_Now ;; ret (set_ModTime metadata now)
         else ret metadata) ;;
      let metadata :=
        if feq (MinRedundancy metadata) MaxFloat64
        then set_MinRedundancy metadata float64_zero else metadata in
      ret (metadata, None)
  end.

(** [managedCalculateDirectoryMetadata] *)
Definition managedCalculateDirectoryMetadata (siaPath : SiaPath)
  : M (Metadata * option error) :=
  s <- startCalculation siaPath ;;
  let '(metadata, fileinfos, err) := s in
  match err with
  | Some e =>
      filesDir <- gets staticFilesDir ;;
      log ("WARN: Error in reading files in directory "
             +:+ SiaPath_SiaDirSysPath siaPath filesDir) ;;;
      ret (Metadata_zero, Some e)
  | None =>
      step <- calculateEntries siaPath err fileinfos metadata ;;
      finishCalculation step
  end.

(** *** The children of a directory

    The same loop, keeping what each entry contributes instead of folding
    it: the children that were processed, in order, and the result of the
    early [return] when there is one. *)

Inductive Child : Type :=
| FileChild (fileMetadata : BubbledMetadata)
| DirChild (dirMetadata : Metadata).

Inductive Visit : Type :=
| VisitReturn (result : Metadata * option error)
| VisitSkip
| VisitChild (c : Child).

(** The calls of one iteration. *)
Definition visitEntry (siaPath : SiaPath) (err : option error)
    (fi : FileInfo) : M Visit :=
  closed <- stopped ;;
  if closed then ret (VisitReturn (Metadata_zero, err))
  else if String.eqb (filepath_Ext (Name fi)) SiaFileExtension then
    match SiaPath_Join siaPath
            (strings_TrimSuffix (Name fi) SiaFileExtension) with
    | (_, Some _) =>
        log "unable to join siapath with dirpath while calculating directory metadata" ;;;
        ret VisitSkip
    | (fileSiaPath, None) =>
        pr <- managedCalculateAndUpdateFileMetadata fileSiaPath ;;
        match snd pr with
        | Some _ =>
            log ("failed to calculate file metadata " +:+ Name fi) ;;;
            ret VisitSkip
        | None => ret (VisitChild (FileChild (fst pr)))
        end
    end
  else if IsDir fi then
    match SiaPath_Join siaPath (Name fi) with
    | (_, Some e) => ret (VisitReturn (Metadata_zero, Some e))
    | (dirSiaPath, None) =>
        dr <- managedDirectoryMetadata dirSiaPath ;;
        match snd dr with
        | Some e => ret (VisitReturn (Metadata_zero, Some e))
        | None => ret (VisitChild (DirChild (fst dr)))
        end
    end
  else ret VisitSkip.

(** What the loop body does to the metadata for a file child and for a
    subdirectory child. *)
Definition foldFile (fileMetadata : BubbledMetadata) (metadata : Metadata)
  : Metadata :=
  foldChild fileMetadata (bHealth fileMetadata) (bStuckHealth fileMetadata)
    (bRedundancy fileMetadata) (bNumStuckChunks fileMetadata)
    (bLastHealthCheckTime fileMetadata) (bModTime fileMetadata)
    (set_AggregateSize
       (set_AggregateNumFiles
          (set_NumFiles metadata (uint64_add (NumFiles metadata) 1))
          (uint64_add (AggregateNumFiles metadata) 1))
       (uint64_add (AggregateSize metadata) (bSize fileMetadata))).

Definition foldDir (dirMetadata : Metadata) (metadata : Metadata)
  : Metadata :=
  foldChild BubbledMetadata_zero
    (math_Max (AggregateHealth dirMetadata) (Health dirMetadata))
    (StuckHealth dirMetadata) (MinRedundancy dirMetadata)
    (NumStuckChunks dirMetadata) (LastHealthCheckTime dirMetadata)
    (ModTime dirMetadata)
    (set_NumSubDirs
       (set_AggregateSize
          (set_AggregateNumFiles metadata
             (uint64_add (AggregateNumFiles metadata)
                (AggregateNumFiles dirMetadata)))
          (uint64_add (AggregateSize metadata) (AggregateSize dirMetadata)))
       (uint64_add (NumSubDirs metadata) 1)).

Definition foldOne (metadata : Metadata) (c : Child) : Metadata :=
  match c with
  | FileChild fileMetadata => foldFile fileMetadata metadata
  | DirChild dirMetadata => foldDir dirMetadata metadata
  end.

Definition flowOfVisit (v : Visit) (metadata : Metadata) : Flow :=
  match v with
  | VisitReturn result => Return result
  | VisitSkip => Next metadata
  | VisitChild c => Next (foldOne metadata c)
  end.

(** The children processed by the loop, and the result of its early
    [return] if it made one. *)
Fixpoint visitEntries (siaPath : SiaPath) (err : option error)
    (fileinfos : list FileInfo)
  : M (list Child * option (Metadata * option error)) :=
  match fileinfos with
  | [] => ret ([], None)
  | fi :: rest =>
      v <- visitEntry siaPath err fi ;;
      match v with
      | VisitReturn result => ret ([], Some result)
      | VisitSkip => visitEntries siaPath err rest
      | VisitChild c =>
          vs <- visitEntries siaPath err rest ;;
          ret (c :: fst vs, snd vs)
      end
  end.

(** The children of a calculation that reaches its last [return]: the
    directory was read and the loop ran to its end. *)
Definition processedChildren (siaPath : SiaPath) (r : Renter)
  : option (list Child) :=
  let '((_, fileinfos, err), r1) := startCalculation siaPath r in
  match err with
  | Some _ => None
  | None =>
      match fst (visitEntries siaPath err fileinfos r1) with
      | (cs, None) => Some cs
      | (_, Some _) => None
      end
  end.

(** The healths of the file children and the stuck chunks of all
    children. *)
Definition fileHealths (cs : list Child) : list float64 :=
  omap (fun c => match c with
                 | FileChild fileMetadata => Some (bHealth fileMetadata)
                 | DirChild _ => None
                 end) cs.

Definition childStuckChunks (c : Child) : Z :=
  match c with
  | FileChild fileMetadata => bNumStuckChunks fileMetadata
  | DirChild dirMetadata => NumStuckChunks dirMetadata
  end.

Definition sumStuckChunks (cs : list Child) : Z :=
  foldr (fun c acc => childStuckChunks c + acc) 0 cs.

(** The greater of two healths, and the greatest of a default and a list
    of healths. *)
Definition worse (m h : float64) : float64 := if fgt h m then h else m.

Definition maxHealth (d : float64) (hs : list float64) : float64 :=
  fold_left worse hs d.

(** ** The driver *)

(** [select { case ch <- struct{}{}: default: }] on a signal channel: the
    unit is queued when the channel has room and dropped otherwise. *)
Definition trySend (sig : Signal) : M unit :=
  fun r =>
    match sig with
    | SigRepairNeeded =>
        if (repairNeeded r <? signalCapacity)%nat
        then emit (CallSend sig true)
               {| bubbleUpdates := bubbleUpdates r;
                  repairNeeded := S (repairNeeded r);
                  stuckChunkFound := stuckChunkFound r;
                  staticFilesDir := staticFilesDir r;
                  world := world r;
                  trace := trace r |}
        else emit (CallSend sig false) r
    | SigStuckChunkFound =>
        if (stuckChunkFound r <? signalCapacity)%nat
        then emit (CallSend sig true)
               {| bubbleUpdates := bubbleUpdates r;
                  repairNeeded := repairNeeded r;
                  stuckChunkFound := S (stuckChunkFound r);
                  staticFilesDir := staticFilesDir r;
                  world := world r;
                  trace := trace r |}
        else emit (CallSend sig false) r
    end.

(** The function deferred by [managedBubbleMetadata]. *)
Definition deferredCompletion (siaPath : SiaPath) : M (option error) :=
  err <- managedCompleteBubbleUpdate siaPath ;;
  match err with
  | Some e => ret (Some (errors_AddContext e "error in completing bubble"))
  | None =>
      if SiaPath_IsRoot siaPath then ret None
      else
        let '(parentDir, err) := SiaPath_Dir siaPath in
        match err with
        | Some e =>
            ret (Some (errors_AddContext e
                         "failed to defer threadedBubbleMetadata on parent dir"))
        | None => go_threadedBubbleMetadata parentDir ;;; ret None
        end
  end.

(** The update of the directory record in [managedBubbleMetadata]: the
    record is opened and [metadata] written to it.  The result is the value
    of [err] after these statements and the entry whose [Close] has been
    deferred, if the record was opened. *)
Definition updateDirectoryMetadata (siaPath : SiaPath) (metadata : Metadata)
  : M (option error * option SiaDirSetEntry) :=
  filesDir <- gets staticFilesDir ;;
  let sys := SiaPath_SiaDirSysPath siaPath filesDir in
  emit (CallDirOpen siaPath) ;;;
  o <- ask (staticDirSet_Open siaPath) ;;
  let '(siaDir, err) := o in
  match err with
  | Some e =>
      ret (Some (errors_AddContext (errOS e)
                   ("could not open directory " +:+ sys)), None)
  | None =>
      emit (CallUpdateMetadata siaDir metadata) ;;;
      err <- ask (siaDir_UpdateMetadata siaDir metadata) ;;
      match err with
      | Some e =>
          ret (Some (errors_AddContext (errOS e)
                       ("could not update the metadata of the  directory "
                          +:+ sys)), Some siaDir)
      | None => ret (None, Some siaDir)
      end
  end.

(** The signals to the repair loops in [managedBubbleMetadata], sent at
    the root only. *)
Definition signalRepairLoops (siaPath : SiaPath) (metadata : Metadata)
  : M unit :=
  if SiaPath_IsRoot siaPath then
    (if fge (AggregateHealth metadata) RemoteRepairDownloadThreshold
     then trySend SigRepairNeeded else ret tt) ;;;
    (if 0 <? NumStuckChunks metadata
     then trySend SigStuckChunkFound else ret tt)
  else ret tt.

(** The deferred [siaDir.Close()] of [managedBubbleMetadata]; it was
    deferred only if the record was opened. *)
Definition closeDirectory (opened : option SiaDirSetEntry) : M unit :=
  match opened with
  | Some siaDir =>
      emit (CallDirClose siaDir) ;;;
      _ <- ask (siaDir_Close siaDir) ;; ret tt
  | None => ret tt
  end.

(** The statements of [managedBubbleMetadata] that follow the [defer],
    with the deferred [siaDir.Close()] at their end. *)
Definition bubbleBody (siaPath : SiaPath) : M (option error) :=
  c <- managedCalculateDirectoryMetadata siaPath ;;
  let '(metadata, err) := c in
  match err with
  | Some e =>
      filesDir <- gets staticFilesDir ;;
      ret (Some (errors_AddContext e
                   ("could not calculate the metadata of directory "
                      +:+ SiaPath_SiaDirSysPath siaPath filesDir)))
  | None =>
      u <- updateDirectoryMetadata siaPath metadata ;;
      let '(err, opened) := u in
      signalRepairLoops siaPath metadata ;;;
      closeDirectory opened ;;;
      ret err
  end.

(** [managedBubbleMetadata].  Its result is not named, so that the
    assignment to [err] in the deferred function does not change it. *)
Definition managedBubbleMetadata (siaPath : SiaPath) : M (option error) :=
  n <- managedBubbleNeeded siaPath ;;
  let '(needed, err) := n in
  match err with
  | Some e =>
      ret (Some (errors_AddContext e "error in checking if bubble is needed"))
  | None =>
      if negb needed then ret None
      else
        result <- bubbleBody siaPath ;;
        _ <- deferredCompletion siaPath ;;
        ret result
  end.

(** [threadedBubbleMetadata] *)
Definition threadedBubbleMetadata (siaPath : SiaPath) : M unit :=
  emit CallTgAdd ;;;
  err <- ask tg_Add ;;
  match err with
  | Some _ => ret tt
  | None =>
      err <- managedBubbleMetadata siaPath ;;
      (match err with
       | Some _ => log "WARN: error with bubbling metadata"
       | None => ret tt
       end) ;;;
      (* defer r.tg.Done() *)
      emit CallTgDone ;;;
      _ <- ask tg_Done ;;
      ret tt
  end.

(** A renter that has done nothing yet, on the world [w]. *)
Definition newRenter (filesDir : string) (w : W) : Renter := {|
  bubbleUpdates := ∅;
  repairNeeded := 0;
  stuckChunkFound := 0;
  staticFilesDir := filesDir;
  world := w;
  trace := []
|}.

(** ** Runs of the coordinator

    A sequence of calls of the two operations, each with its path, as
    tasks that take the mutex one after the other make them. *)

Inductive CoordOp : Type :=
| OpNeeded (p : SiaPath)
| OpComplete (p : SiaPath).

Inductive CoordResult : Type :=
| ResNeeded (needed : bool) (err : option error)
| ResComplete (err : option error).

Definition runOp (op : CoordOp) : M CoordResult :=
  match op with
  | OpNeeded p =>
      n <- managedBubbleNeeded p ;; ret (ResNeeded (fst n) (snd n))
  | OpComplete p =>
      e <- managedCompleteBubbleUpdate p ;; ret (ResComplete e)
  end.

Fixpoint runOps (ops : list CoordOp) : M (list CoordResult) :=
  match ops with
  | [] => ret []
  | op :: rest =>
      x <- runOp op ;;
      xs <- runOps rest ;;
      ret (x :: xs)
  end.

(** The call [op] is [managedCompleteBubbleUpdate] on the key [key]. *)
Definition completes (key : string) (op : CoordOp) : bool :=
  match op with
  | OpComplete q => String.eqb (SiaPath_String q) key
  | OpNeeded _ => false
  end.

(** The call [op] is [managedBubbleNeeded] on the key [key] and it
    returned [true]. *)
Definition admitted (key : string) (op : CoordOp) (res : CoordResult) : bool :=
  match op, res with
  | OpNeeded q, ResNeeded true _ => String.eqb (SiaPath_String q) key
  | _, _ => false
  end.

(** How many calls of a run were admitted on [key]. *)
Fixpoint countAdmitted (key : string) (ops : list CoordOp)
    (results : list CoordResult) : nat :=
  match ops, results with
  | op :: ops, res :: results =>
      ((if admitted key op res then 1 else 0)
       + countAdmitted key ops results)%nat
  | _, _ => 0%nat
  end.

(** The claim that, from a map with no entry for the path, no run of the
    coordinator leads to a state in which [bubbleError] is stored or in
    which one of the two operations returns the invalid-status error. *)
Definition invalid_status_unreachable (p : SiaPath) (ops : list CoordOp)
    (r : Renter) : Prop :=
  bubbleUpdates r !! SiaPath_String p = None ->
  bubbleUpdates (snd (runOps ops r)) !! SiaPath_String p <> Some bubbleError
  /\ snd (fst (managedBubbleNeeded p (snd (runOps ops r))))
     <> Some errInvalidBubbleStatus
  /\ fst (managedCompleteBubbleUpdate p (snd (runOps ops r)))
     <> Some errInvalidBubbleStatus.


(** The statuses in which a bubble is in flight: no call is admitted
    before the next completion. *)
Definition inFlight (st : option bubbleStatus) : Prop :=
  st = Some bubbleActive \/ st = Some bubblePending.

(** The claim that a calculation which finds the stop channel closed as
    it is about to process an entry returns the metadata accumulated so
    far together with an error. *)
Definition shutdown_returns_partial_metadata_and_error (p : SiaPath)
    (r : Renter) : Prop :=
  forall pre fi post m0 r1 m1 r2,
    startCalculation p r = ((m0, (pre ++ fi :: post)%list, None), r1) ->
    calculateEntries p None pre m0 r1 = (Next m1, r2) ->
    fst (stopped r2) = true ->
    fst (fst (managedCalculateDirectoryMetadata p r)) = m1
    /\ snd (fst (managedCalculateDirectoryMetadata p r)) <> None.


(** *** Calm computations

    A computation is calm when it leaves the coordinator map, the signal
    channels and the files directory of the renter as they are, and the
    calls it adds to the trace start no task and send no signal. *)

Definition isGo (ev : Call) : bool :=
  match ev with CallGo _ => true | _ => false end.

Definition isGoOrSend (ev : Call) : bool :=
  match ev with CallGo _ | CallSend _ _ => true | _ => false end.

Definition calm {A : Type} (c : M A) : Prop :=
  forall r,
    bubbleUpdates (snd (c r)) = bubbleUpdates r
    /\ repairNeeded (snd (c r)) = repairNeeded r
    /\ stuckChunkFound (snd (c r)) = stuckChunkFound r
    /\ staticFilesDir (snd (c r)) = staticFilesDir r
    /\ exists t, trace (snd (c r)) = (trace r ++ t)%list
                 /\ Forall (fun ev => isGoOrSend ev = false) t.

(** The claim that an error of the calculation does not keep the driver
    from opening the directory record. *)
Definition calculation_error_does_not_short_circuit (p : SiaPath)
    (r : Renter) : Prop :=
  fst (fst (managedBubbleNeeded p r)) = true ->
  forall e,
    snd (fst (managedCalculateDirectoryMetadata p
                (snd (managedBubbleNeeded p r)))) = Some e ->
    In (CallDirOpen p) (trace (snd (managedBubbleMetadata p r))).



(** Whether the deferred function of the driver starts the bubble of the
    parent, given the result [saved] of persisting the coordinator map:
    the completion returned no error, the path is not the root and its
    parent could be computed. *)
Definition parentScheduled (saved : option oserror) (p : SiaPath) : bool :=
  match saved with
  | Some _ => false
  | None =>
      negb (SiaPath_IsRoot p)
      && match snd (SiaPath_Dir p) with None => true | Some _ => false end
  end.

(** The channel [repairNeeded] after a non-blocking send when [send]
    holds, and as it was otherwise. *)
Definition afterSend (send : bool) (queued : nat) : nat :=
  if send && (queued <? signalCapacity)%nat then S queued else queued.


(** *** What a child contributes to each field *)

Definition isFileChild (c : Child) : bool :=
  match c with FileChild _ => true | DirChild _ => false end.

Definition childAggregateHealth (c : Child) : float64 :=
  match c with
  | FileChild fileMetadata => bHealth fileMetadata
  | DirChild dirMetadata =>
      math_Max (AggregateHealth dirMetadata) (Health dirMetadata)
  end.

Definition childStuckHealth (c : Child) : float64 :=
  match c with
  | FileChild fileMetadata => bStuckHealth fileMetadata
  | DirChild dirMetadata => StuckHealth dirMetadata
  end.

Definition childRedundancy (c : Child) : float64 :=
  match c with
  | FileChild fileMetadata => bRedundancy fileMetadata
  | DirChild dirMetadata => MinRedundancy dirMetadata
  end.

Definition childAggregateNumFiles (c : Child) : Z :=
  match c with
  | FileChild _ => 1
  | DirChild dirMetadata => AggregateNumFiles dirMetadata
  end.

Definition childAggregateSize (c : Child) : Z :=
  match c with
  | FileChild fileMetadata => bSize fileMetadata
  | DirChild dirMetadata => AggregateSize dirMetadata
  end.



(** The number of file children and of subdirectory children, and a sum
    over the children. *)
Definition countFiles (cs : list Child) : Z :=
  Z.of_nat (length (List.filter isFileChild cs)).

Definition countSubDirs (cs : list Child) : Z :=
  Z.of_nat (length (List.filter (fun c => negb (isFileChild c)) cs)).

Definition sumOver (f : Child -> Z) (cs : list Child) : Z :=
  foldr (fun c acc => f c + acc) 0 cs.

(** The lesser of two redundancies, and the least of a start and a list
    of redundancies. *)
Definition lesser (m h : float64) : float64 := if flt h m then h else m.

Definition minRedundancy (d : float64) (hs : list float64) : float64 :=
  fold_left lesser hs d.


(** The metadata of an empty directory read at [now] whose calculation
    ended at [now']. *)
Definition emptyDirectoryMetadata (now now' : Time) : Metadata := {|
  AggregateHealth := DefaultDirHealth;
  AggregateNumFiles := 0;
  AggregateSize := 0;
  Health := DefaultDirHealth;
  LastHealthCheckTime := now;
  MinRedundancy := float64_zero;
  ModTime := now';
  NumFiles := 0;
  NumStuckChunks := 0;
  NumSubDirs := 0;
  StuckHealth := DefaultDirHealth
|}.


(** *** The calls a computation makes

    [emitsOnly ok c]: the calls that [c] adds to the trace all satisfy
    [ok]. *)
Definition emitsOnly (ok : Call -> bool) {A : Type} (c : M A) : Prop :=
  forall r, exists t, trace (snd (c r)) = (trace r ++ t)%list
                      /\ Forall (fun ev => ok ev = true) t.

(** The calls that open or close an entry of the file store. *)
Definition isFileOpenClose (ev : Call) : bool :=
  match ev with CallFileOpen _ | CallFileClose _ => true | _ => false end.

(** The calls the calculator and the two functions it uses can make:
    [ReadDir] and [Stat] on the filesystem, the poll of the stop channel
    of the thread group, [Open], [NewSiaDir] (which creates a missing
    record) and [Close] on the directory store, the calls of the probe on
    the file store (three of which write the file record), and log
    lines.  The other calls are [UpdateMetadata] on a directory record,
    the save of the coordinator map, the [go] statement, the sends on
    the signal channels, [r.tg.Add()] and [r.tg.Done()]. *)
Definition isCalculatorCall (ev : Call) : bool :=
  match ev with
  | CallReadDir _ | CallStat _ | CallStopChan _
  | CallDirOpen _ | CallNewSiaDir _ | CallDirClose _
  | CallFileOpen _ | CallFileClose _
  | CallMarkAllHealthyChunksAsUnstuck _ | CallUpdateLastHealthCheckTime _
  | CallUpdateCachedHealthMetadata _ _
  | CallLog _ => true
  | CallUpdateMetadata _ _ | CallSave _ | CallGo _ | CallSend _ _
  | CallTgAdd | CallTgDone => false
  end.

(** [r.tg.Add()] and [r.tg.Done()].  The third call on the thread group,
    the poll of [r.tg.StopChan()], is [CallStopChan] and is not one of
    them. *)
Definition isAddOrDone (ev : Call) : bool :=
  match ev with CallTgAdd | CallTgDone => true | _ => false end.

Definition notAddOrDone (ev : Call) : bool := negb (isAddOrDone ev).

Definition isNewSiaDir (ev : Call) : bool :=
  match ev with CallNewSiaDir _ => true | _ => false end.

Definition isUpdateCached (ev : Call) : bool :=
  match ev with CallUpdateCachedHealthMetadata _ _ => true | _ => false end.

Definition isSend (ev : Call) : bool :=
  match ev with CallSend _ _ => true | _ => false end.

(** The health numbers of a [BubbledMetadata], as the probe caches
    them. *)
Definition cachedOf (b : BubbledMetadata) : CachedHealthMetadata :=
  {| cHealth := bHealth b;
     cRedundancy := bRedundancy b;
     cStuckHealth := bStuckHealth b |}.

(** Whether [managedDirectoryMetadata] gets as far as [NewSiaDir]: the
    path is a directory, its record is reported absent, the directory
    could be read and it has entries or is the root. *)
Definition recordCreated (p : SiaPath) (r : Renter) : bool :=
  let sys := SiaPath_SiaDirSysPath p (staticFilesDir r) in
  let st := os_Stat sys (world r) in
  let o := staticDirSet_Open p (snd st) in
  let rd := ioutil_ReadDir sys (snd o) in
  match snd (fst st) with
  | Some _ => false
  | None =>
      IsDir (fst (fst st))
      && os_IsNotExist (liftErr (snd (fst o)))
      && match snd (fst rd) with
         | Some _ => false
         | None =>
             negb ((length (fst (fst rd)) =? 0)%nat
                   && negb (SiaPath_IsRoot p))
         end
  end.

(** The call [op] is [managedBubbleNeeded] on the key [key], and the call
    [op] is on the key [key]. *)
Definition requests (key : string) (op : CoordOp) : bool :=
  match op with
  | OpNeeded q => String.eqb (SiaPath_String q) key
  | OpComplete _ => false
  end.

Definition touches (key : string) (op : CoordOp) : bool :=
  match op with
  | OpNeeded q | OpComplete q => String.eqb (SiaPath_String q) key
  end.


(** * Properties of the coordinator *)

Implicit Types (p q : SiaPath) (r : Renter) (key : string).

(** What [managedBubbleNeeded] does, by the status it finds. *)
Lemma managedBubbleNeeded_unfold p r :
  managedBubbleNeeded p r =
  match bubbleUpdates r !! SiaPath_String p with
  | None | Some bubbleInit =>
      ((true, None),
       with_bubbleUpdates r
         (<[SiaPath_String p := bubbleActive]> (bubbleUpdates r)))
  | Some bubbleActive =>
      ((false, None),
       with_bubbleUpdates r
         (<[SiaPath_String p := bubblePending]> (bubbleUpdates r)))
  | Some bubblePending => ((false, None), r)
  | Some bubbleError => ((false, Some errInvalidBubbleStatus), r)
  end.
Proof.
  unfold managedBubbleNeeded, bind, gets, storeStatus, putBubbleUpdates, ret.
  cbn.
  destruct (bubbleUpdates r !! SiaPath_String p) as [[]|] eqn:E; cbn; try done.
  unfold with_bubbleUpdates; cbn. by rewrite insert_insert_eq.
Qed.

(** What [managedCompleteBubbleUpdate] does, by the status it finds. *)
Lemma managedCompleteBubbleUpdate_unfold p r :
  managedCompleteBubbleUpdate p r =
  match bubbleUpdates r !! SiaPath_String p with
  | None => (None, r)
  | Some bubblePending =>
      let m := <[SiaPath_String p := bubbleInit]> (bubbleUpdates r) in
      let saved := saveBubbleUpdates m (world r) in
      (liftErr (fst saved),
       with_trace (with_world (with_bubbleUpdates r m) (snd saved))
         (trace r ++ [CallSave m; CallGo p]))
  | Some bubbleActive =>
      let m := delete (SiaPath_String p) (bubbleUpdates r) in
      let saved := saveBubbleUpdates m (world r) in
      (liftErr (fst saved),
       with_trace (with_world (with_bubbleUpdates r m) (snd saved))
         (trace r ++ [CallSave m]))
  | Some _ => (Some errInvalidBubbleStatus, r)
  end.
Proof.
  unfold managedCompleteBubbleUpdate, r_saveBubbleUpdates,
    go_threadedBubbleMetadata, bind, gets, storeStatus, deleteStatus,
    putBubbleUpdates, emit, ask, ret.
  cbn.
  destruct (bubbleUpdates r !! SiaPath_String p) as [[]|] eqn:E; cbn; try done.
  - by destruct (saveBubbleUpdates _ _) as [e w].
  - destruct (saveBubbleUpdates _ _) as [e w]; cbn.
    unfold with_trace, with_world, with_bubbleUpdates; cbn.
    by rewrite <- app_assoc.
Qed.

Lemma runOp_OpNeeded p r :
  runOp (OpNeeded p) r =
  (ResNeeded (fst (fst (managedBubbleNeeded p r)))
     (snd (fst (managedBubbleNeeded p r))),
   snd (managedBubbleNeeded p r)).
Proof.
  unfold runOp, bind, ret. by destruct (managedBubbleNeeded p r).
Qed.

Lemma runOp_OpComplete p r :
  runOp (OpComplete p) r =
  (ResComplete (fst (managedCompleteBubbleUpdate p r)),
   snd (managedCompleteBubbleUpdate p r)).
Proof.
  unfold runOp, bind, ret. by destruct (managedCompleteBubbleUpdate p r).
Qed.

(** An operation on another key leaves the entry of [key] alone. *)
Lemma runOp_other_key key op r :
  match op with OpNeeded q | OpComplete q => SiaPath_String q ≠ key end ->
  bubbleUpdates (snd (runOp op r)) !! key = bubbleUpdates r !! key.
Proof.
  destruct op as [q|q]; intros Hne.
  - rewrite runOp_OpNeeded, managedBubbleNeeded_unfold.
    destruct (bubbleUpdates r !! SiaPath_String q) as [[]|]; cbn;
      by rewrite ?lookup_insert_ne.
  - rewrite runOp_OpComplete, managedCompleteBubbleUpdate_unfold.
    destruct (bubbleUpdates r !! SiaPath_String q) as [[]|]; cbn;
      by rewrite ?lookup_insert_ne, ?lookup_delete_ne.
Qed.

Lemma runOps_cons op ops r :
  runOps (op :: ops) r =
  (fst (runOp op r) :: fst (runOps ops (snd (runOp op r))),
   snd (runOps ops (snd (runOp op r)))).
Proof.
  cbn [runOps]. unfold bind, ret.
  destruct (runOp op r) as [x r1]; cbn [fst snd].
  by destruct (runOps ops r1).
Qed.

Lemma runOps_app ops1 ops2 r :
  runOps (ops1 ++ ops2) r =
  ((fst (runOps ops1 r) ++ fst (runOps ops2 (snd (runOps ops1 r))))%list,
   snd (runOps ops2 (snd (runOps ops1 r)))).
Proof.
  revert r. induction ops1 as [|op ops1 IH]; intros r.
  - cbn. by destruct (runOps ops2 r).
  - rewrite <- app_comm_cons, !runOps_cons, IH. done.
Qed.

Lemma managedBubbleNeeded_key p r :
  (fst (fst (managedBubbleNeeded p r)) = true <->
   bubbleUpdates r !! SiaPath_String p = None
   \/ bubbleUpdates r !! SiaPath_String p = Some bubbleInit)
  /\ (fst (fst (managedBubbleNeeded p r)) = true ->
      snd (fst (managedBubbleNeeded p r)) = None
      /\ bubbleUpdates (snd (managedBubbleNeeded p r)) !! SiaPath_String p
         = Some bubbleActive)
  /\ (inFlight (bubbleUpdates r !! SiaPath_String p) ->
      fst (fst (managedBubbleNeeded p r)) = false
      /\ inFlight
           (bubbleUpdates (snd (managedBubbleNeeded p r))
              !! SiaPath_String p)).
Proof.
  rewrite managedBubbleNeeded_unfold. unfold inFlight.
  destruct (bubbleUpdates r !! SiaPath_String p) as [[]|] eqn:E; cbn;
    rewrite ?lookup_insert_eq, ?E; intuition congruence.
Qed.

(** One call that is not a completion of [key], from a status in flight:
    it is not admitted and the status stays in flight. *)
Lemma inFlight_step key op r :
  completes key op = false ->
  inFlight (bubbleUpdates r !! key) ->
  admitted key op (fst (runOp op r)) = false
  /\ inFlight (bubbleUpdates (snd (runOp op r)) !! key).
Proof.
  intros Hop Hfl. destruct op as [q|q].
  - destruct (String.eqb_spec (SiaPath_String q) key) as [<-|Hne].
    + destruct (managedBubbleNeeded_key q r) as (_ & _ & H3).
      destruct (H3 Hfl) as [Hf Hin].
      rewrite runOp_OpNeeded. cbn [admitted fst snd]. by rewrite Hf.
    + split; [|by rewrite runOp_other_key].
      rewrite runOp_OpNeeded. cbn [admitted fst snd].
      destruct (fst (fst (managedBubbleNeeded q r))); [|done].
      by apply String.eqb_neq.
  - cbn in Hop. apply String.eqb_neq in Hop.
    split; [|by rewrite runOp_other_key].
    by rewrite runOp_OpComplete.
Qed.

(** From a status in flight, a segment without completion of [key] admits
    nothing on [key]. *)
Lemma inFlight_admits_nothing key seg : forall r,
  Forall (fun op => completes key op = false) seg ->
  inFlight (bubbleUpdates r !! key) ->
  countAdmitted key seg (fst (runOps seg r)) = 0%nat.
Proof.
  induction seg as [|op seg IH]; intros r Hseg Hfl; [done|].
  inversion Hseg as [|? ? Hop Hrest]; subst.
  rewrite runOps_cons. cbn [countAdmitted fst].
  destruct (inFlight_step key op r Hop Hfl) as [Ha Hfl'].
  rewrite Ha. cbn. by apply IH.
Qed.

(** From any state, a segment without completion of [key] admits at most
    one call on [key]. *)
Lemma segment_admits_at_most_one key seg : forall r,
  Forall (fun op => completes key op = false) seg ->
  (countAdmitted key seg (fst (runOps seg r)) <= 1)%nat.
Proof.
  induction seg as [|op seg IH]; intros r Hseg; [cbn; lia|].
  inversion Hseg as [|? ? Hop Hrest]; subst.
  rewrite runOps_cons. cbn [countAdmitted fst].
  destruct (admitted key op (fst (runOp op r))) eqn:Ha.
  - rewrite inFlight_admits_nothing; [lia|done|].
    destruct op as [q|q]; [|done].
    rewrite runOp_OpNeeded in Ha |- *. cbn [admitted fst snd] in Ha |- *.
    destruct (managedBubbleNeeded_key q r) as (_ & H2 & _).
    destruct (fst (fst (managedBubbleNeeded q r))); [|done].
    apply String.eqb_eq in Ha. subst key.
    left. by apply H2.
  - specialize (IH (snd (runOp op r)) Hrest). lia.
Qed.

Lemma runOps_length ops : forall r,
  length (fst (runOps ops r)) = length ops.
Proof.
  induction ops as [|op ops IH]; intros r; [done|].
  rewrite runOps_cons. cbn. by rewrite IH.
Qed.

(** The results of the middle part of a run. *)
Lemma runOps_segment pre seg post r :
  take (length seg) (drop (length pre) (fst (runOps (pre ++ seg ++ post) r)))
  = fst (runOps seg (snd (runOps pre r))).
Proof.
  rewrite !runOps_app. cbn [fst snd].
  rewrite drop_app_length'; [|by rewrite runOps_length].
  rewrite take_app_length'; [done|by rewrite runOps_length].
Qed.

(** C3. Coordinator coalescing: in any interleaving of calls of
    [managedBubbleNeeded] and [managedCompleteBubbleUpdate], run from a map
    with no entry for the path, a stretch [seg] of the run without
    [managedCompleteBubbleUpdate] on that path (so, in particular, the
    calls between two consecutive completions) has at most one
    [managedBubbleNeeded] on the path that returns [true].  Equivalently,
    in any state, [managedBubbleNeeded] returns [true] exactly when the
    entry is absent or [bubbleInit], and the entry is then
    [bubbleActive]. *)
Theorem coordinator_coalescing p (pre seg post : list CoordOp) r :
  bubbleUpdates r !! SiaPath_String p = None ->
  Forall (fun op => completes (SiaPath_String p) op = false) seg ->
  (countAdmitted (SiaPath_String p) seg
     (take (length seg)
        (drop (length pre) (fst (runOps (pre ++ seg ++ post) r)))) <= 1)%nat
  /\ forall r',
       (fst (fst (managedBubbleNeeded p r')) = true <->
        bubbleUpdates r' !! SiaPath_String p = None
        \/ bubbleUpdates r' !! SiaPath_String p = Some bubbleInit)
       /\ (fst (fst (managedBubbleNeeded p r')) = true ->
           bubbleUpdates (snd (managedBubbleNeeded p r')) !! SiaPath_String p
           = Some bubbleActive).
Proof.
  intros _ Hseg. split.
  - rewrite runOps_segment. by apply segment_admits_at_most_one.
  - intros r'. destruct (managedBubbleNeeded_key p r') as (H1 & H2 & _).
    split; [done|]. intros H. by apply H2.
Qed.

(** C6. [managedCompleteBubbleUpdate], by the entry of the path: absent,
    it returns [nil] and changes nothing; [bubbleActive], the entry is
    deleted and the map persisted; [bubblePending], the entry becomes
    [bubbleInit], the map is persisted and a new run on the path is
    started with [go]; any other status, it returns the invalid-status
    error and changes nothing.  When the map is persisted the result is
    the result of [saveBubbleUpdates]. *)
Theorem complete_by_status p r :
  let key := SiaPath_String p in
  let err := fst (managedCompleteBubbleUpdate p r) in
  let r' := snd (managedCompleteBubbleUpdate p r) in
  match bubbleUpdates r !! key with
  | None => err = None /\ r' = r
  | Some bubbleActive =>
      let m := delete key (bubbleUpdates r) in
      bubbleUpdates r' = m
      /\ m !! key = None
      /\ trace r' = (trace r ++ [CallSave m])%list
      /\ err = liftErr (fst (saveBubbleUpdates m (world r)))
      /\ world r' = snd (saveBubbleUpdates m (world r))
  | Some bubblePending =>
      let m := <[key := bubbleInit]> (bubbleUpdates r) in
      bubbleUpdates r' = m
      /\ m !! key = Some bubbleInit
      /\ trace r' = (trace r ++ [CallSave m; CallGo p])%list
      /\ err = liftErr (fst (saveBubbleUpdates m (world r)))
      /\ world r' = snd (saveBubbleUpdates m (world r))
  | Some _ => err = Some errInvalidBubbleStatus /\ r' = r
  end.
Proof.
  intros key err r'; subst key err r'.
  rewrite managedCompleteBubbleUpdate_unfold.
  destruct (bubbleUpdates r !! SiaPath_String p) as [[]|]; cbn;
    rewrite ?lookup_delete_eq, ?lookup_insert_eq; done.
Qed.

(** One call of the coordinator does not store [bubbleError]. *)
Lemma runOp_no_bubbleError key op r :
  bubbleUpdates r !! key <> Some bubbleError ->
  bubbleUpdates (snd (runOp op r)) !! key <> Some bubbleError.
Proof.
  intros H. destruct op as [q|q].
  - rewrite runOp_OpNeeded, managedBubbleNeeded_unfold.
    destruct (decide (SiaPath_String q = key)) as [<-|Hne].
    + destruct (bubbleUpdates r !! SiaPath_String q) as [[]|] eqn:E; cbn;
        rewrite ?lookup_insert_eq, ?E; congruence.
    + destruct (bubbleUpdates r !! SiaPath_String q) as [[]|]; cbn;
        by rewrite ?lookup_insert_ne.
  - rewrite runOp_OpComplete, managedCompleteBubbleUpdate_unfold.
    destruct (decide (SiaPath_String q = key)) as [<-|Hne].
    + destruct (bubbleUpdates r !! SiaPath_String q) as [[]|] eqn:E; cbn;
        rewrite ?lookup_insert_eq, ?lookup_delete_eq, ?E; congruence.
    + destruct (bubbleUpdates r !! SiaPath_String q) as [[]|]; cbn;
        by rewrite ?lookup_insert_ne, ?lookup_delete_ne.
Qed.

Lemma runOps_no_bubbleError key ops : forall r,
  bubbleUpdates r !! key <> Some bubbleError ->
  bubbleUpdates (snd (runOps ops r)) !! key <> Some bubbleError.
Proof.
  induction ops as [|op ops IH]; intros r H; [done|].
  rewrite runOps_cons. cbn [snd]. by apply IH, runOp_no_bubbleError.
Qed.

(** C10, amended. From a map with no entry for a path, no sequence of
    calls of the coordinator stores [bubbleError] for it; consequently
    [managedBubbleNeeded] never returns its invalid-status error, and
    [managedCompleteBubbleUpdate] returns it exactly when it finds the
    entry [bubbleInit]. *)
Theorem bubbleError_never_stored p (ops : list CoordOp) r :
  bubbleUpdates r !! SiaPath_String p = None ->
  let r' := snd (runOps ops r) in
  bubbleUpdates r' !! SiaPath_String p <> Some bubbleError
  /\ snd (fst (managedBubbleNeeded p r')) = None
  /\ (fst (managedCompleteBubbleUpdate p r') = Some errInvalidBubbleStatus
      <-> bubbleUpdates r' !! SiaPath_String p = Some bubbleInit).
Proof.
  intros Habs r'.
  assert (bubbleUpdates r' !! SiaPath_String p <> Some bubbleError) as Hne.
  { apply runOps_no_bubbleError. by rewrite Habs. }
  split; [done|].
  rewrite managedBubbleNeeded_unfold, managedCompleteBubbleUpdate_unfold.
  unfold errInvalidBubbleStatus.
  destruct (bubbleUpdates r' !! SiaPath_String p) as [[]|]; cbn;
    try (split; [done|split; congruence]);
    (split; [done|]; split; [|done]);
    destruct (fst (saveBubbleUpdates _ _)); cbn; congruence.
Qed.

(** ** Requests that overlap a run, other paths, and the round trip *)

(** Without a completion on the key, a pending entry stays pending. *)
Lemma pending_step key op r :
  completes key op = false ->
  bubbleUpdates r !! key = Some bubblePending ->
  bubbleUpdates (snd (runOp op r)) !! key = Some bubblePending.
Proof.
  intros Hop Hp. destruct op as [q|q].
  - destruct (String.eqb_spec (SiaPath_String q) key) as [<-|Hne].
    + by rewrite runOp_OpNeeded, managedBubbleNeeded_unfold, Hp.
    + by rewrite runOp_other_key.
  - cbn in Hop. apply String.eqb_neq in Hop. by rewrite runOp_other_key.
Qed.

Lemma pending_steps key ops r :
  forallb (fun op => negb (completes key op)) ops = true ->
  bubbleUpdates r !! key = Some bubblePending ->
  bubbleUpdates (snd (runOps ops r)) !! key = Some bubblePending.
Proof.
  revert r. induction ops as [|op ops IH]; intros r Hops Hp; [done|].
  cbn [forallb] in Hops. apply andb_prop in Hops as [Hop Hops].
  apply negb_true_iff in Hop.
  rewrite runOps_cons. cbn [snd]. apply IH; [done|].
  by apply pending_step.
Qed.

(** A request on the key of an active entry that is not a completion
    makes the entry pending or leaves it active. *)
Lemma active_step key op r :
  completes key op = false ->
  bubbleUpdates r !! key = Some bubbleActive ->
  bubbleUpdates (snd (runOp op r)) !! key
  = Some (if requests key op then bubblePending else bubbleActive).
Proof.
  intros Hop Ha. destruct op as [q|q]; cbn [requests].
  - destruct (String.eqb_spec (SiaPath_String q) key) as [<-|Hne].
    + rewrite runOp_OpNeeded, managedBubbleNeeded_unfold, Ha. cbn.
      apply lookup_insert_eq.
    + by rewrite runOp_other_key.
  - cbn in Hop. apply String.eqb_neq in Hop. by rewrite runOp_other_key.
Qed.

Lemma active_steps key ops r :
  forallb (fun op => negb (completes key op)) ops = true ->
  bubbleUpdates r !! key = Some bubbleActive ->
  bubbleUpdates (snd (runOps ops r)) !! key
  = Some (if existsb (requests key) ops then bubblePending else bubbleActive).
Proof.
  revert r. induction ops as [|op ops IH]; intros r Hops Ha; [done|].
  cbn [forallb] in Hops. apply andb_prop in Hops as [Hop Hops].
  apply negb_true_iff in Hop.
  rewrite runOps_cons. cbn [snd existsb].
  pose proof (active_step key op r Hop Ha) as Hs.
  destruct (requests key op); cbn [orb].
  - by apply pending_steps.
  - by apply IH.
Qed.

(** X17. A request that overlaps a run is rerun, once: from an active
    entry, after any calls without a completion on the path, the entry
    is pending exactly when one of the calls was a request on the path.
    The completion of a pending entry stores and persists [bubbleInit],
    starts one more run on the SAME path, and the request of that run is
    admitted; the completion of an entry that stayed active starts no
    run on the path. *)
Theorem overlapping_request_is_rerun p seg r :
  bubbleUpdates r !! SiaPath_String p = Some bubbleActive ->
  forallb (fun op => negb (completes (SiaPath_String p) op)) seg = true ->
  let key := SiaPath_String p in
  let r1 := snd (runOps seg r) in
  let r2 := snd (managedCompleteBubbleUpdate p r1) in
  if existsb (requests key) seg
  then bubbleUpdates r1 !! key = Some bubblePending
       /\ bubbleUpdates r2 = <[key := bubbleInit]> (bubbleUpdates r1)
       /\ trace r2
          = (trace r1 ++ [CallSave (bubbleUpdates r2); CallGo p])%list
       /\ fst (fst (managedBubbleNeeded p r2)) = true
  else bubbleUpdates r1 !! key = Some bubbleActive
       /\ bubbleUpdates r2 = delete key (bubbleUpdates r1)
       /\ trace r2 = (trace r1 ++ [CallSave (bubbleUpdates r2)])%list.
Proof.
  intros Ha Hseg key r1 r2.
  pose proof (active_steps key seg r Hseg Ha) as Hs. fold r1 in Hs.
  subst r2. rewrite managedCompleteBubbleUpdate_unfold. fold key.
  destruct (existsb (requests key) seg); rewrite Hs; cbn zeta;
    cbn [fst snd]; [|done].
  repeat split; try done.
  rewrite managedBubbleNeeded_unfold.
  cbn [bubbleUpdates with_trace with_world with_bubbleUpdates]. fold key.
  by rewrite lookup_insert_eq.
Qed.

Lemma untouched_step key op r :
  touches key op = false ->
  bubbleUpdates (snd (runOp op r)) !! key = bubbleUpdates r !! key.
Proof.
  intros Hop. apply runOp_other_key.
  destruct op as [q|q]; cbn in Hop; by apply String.eqb_neq.
Qed.

Lemma untouched_steps key ops r :
  forallb (fun op => negb (touches key op)) ops = true ->
  bubbleUpdates (snd (runOps ops r)) !! key = bubbleUpdates r !! key.
Proof.
  revert r. induction ops as [|op ops IH]; intros r Hops; [done|].
  cbn [forallb] in Hops. apply andb_prop in Hops as [Hop Hops].
  apply negb_true_iff in Hop.
  rewrite runOps_cons. cbn [snd]. rewrite IH; [|done].
  by apply untouched_step.
Qed.

(** X18. The coordinator keeps paths apart: calls of
    [managedBubbleNeeded] and [managedCompleteBubbleUpdate] on other
    paths, in any number and order, leave the entry of a path as it
    was, and with it the answer of the next [managedBubbleNeeded] on the
    path. *)
Theorem calls_on_other_paths_leave_entry p ops r :
  forallb (fun op => negb (touches (SiaPath_String p) op)) ops = true ->
  bubbleUpdates (snd (runOps ops r)) !! SiaPath_String p
  = bubbleUpdates r !! SiaPath_String p
  /\ fst (managedBubbleNeeded p (snd (runOps ops r)))
     = fst (managedBubbleNeeded p r).
Proof.
  intros Hops. pose proof (untouched_steps _ ops r Hops) as H.
  split; [done|]. rewrite !managedBubbleNeeded_unfold, H.
  by destruct (bubbleUpdates r !! SiaPath_String p) as [[]|].
Qed.

(** X19. An admitted request followed by its completion, with calls on
    other paths only in between, removes the entry of the path: the map
    that the completion stores and persists is the map after the calls
    in between without the entry, and the completion starts no run.  In
    particular a [bubbleInit] entry is not put back. *)
Theorem admitted_run_removes_entry p ops r :
  fst (fst (managedBubbleNeeded p r)) = true ->
  forallb (fun op => negb (touches (SiaPath_String p) op)) ops = true ->
  let key := SiaPath_String p in
  let r1 := snd (runOps ops (snd (managedBubbleNeeded p r))) in
  let r2 := snd (managedCompleteBubbleUpdate p r1) in
  bubbleUpdates r2 = delete key (bubbleUpdates r1)
  /\ bubbleUpdates r2 !! key = None
  /\ trace r2 = (trace r1 ++ [CallSave (bubbleUpdates r2)])%list.
Proof.
  intros Hadm Hops key r1 r2.
  assert (bubbleUpdates r1 !! key = Some bubbleActive) as Hact.
  { subst r1. rewrite untouched_steps; [|done].
    by destruct (managedBubbleNeeded_key p r) as (_ & H2 & _);
      destruct (H2 Hadm). }
  subst r2. rewrite managedCompleteBubbleUpdate_unfold. fold key.
  rewrite Hact. cbn. repeat split. apply lookup_delete_eq.
Qed.

(** * Properties of the calculator *)

Implicit Types (fi : FileInfo) (m md : Metadata) (cs : list Child).

(** The loop body is the visit of the entry followed by the fold of what
    it found. *)
Lemma calculateEntry_visit p err fi m r :
  calculateEntry p err fi m r =
  (flowOfVisit (fst (visitEntry p err fi r)) m, snd (visitEntry p err fi r)).
Proof.
  unfold calculateEntry, visitEntry, bind, ret.
  destruct (stopped r) as [[] r1]; [done|].
  destruct (String.eqb _ _).
  - destruct (SiaPath_Join p _) as [fileSiaPath [e|]].
    + by destruct (log _ r1).
    + destruct (managedCalculateAndUpdateFileMetadata fileSiaPath r1)
        as [[fm [e|]] r2]; cbn [fst snd]; [|done].
      by destruct (log _ r2).
  - destruct (IsDir fi); [|done].
    destruct (SiaPath_Join p _) as [dirSiaPath [e|]]; [done|].
    by destruct (managedDirectoryMetadata dirSiaPath r1) as [[dm [e|]] r2].
Qed.

Lemma calculateEntries_cons p err fi rest m r :
  calculateEntries p err (fi :: rest) m r =
  match fst (calculateEntry p err fi m r) with
  | Return result => (Return result, snd (calculateEntry p err fi m r))
  | Next m' => calculateEntries p err rest m' (snd (calculateEntry p err fi m r))
  end.
Proof.
  cbn [calculateEntries]. unfold bind, ret.
  by destruct (calculateEntry p err fi m r) as [[] r1].
Qed.

Lemma visitEntries_cons p err fi rest r :
  visitEntries p err (fi :: rest) r =
  match fst (visitEntry p err fi r) with
  | VisitReturn result => (([], Some result), snd (visitEntry p err fi r))
  | VisitSkip => visitEntries p err rest (snd (visitEntry p err fi r))
  | VisitChild c =>
      let vs := visitEntries p err rest (snd (visitEntry p err fi r)) in
      ((c :: fst (fst vs), snd (fst vs)), snd vs)
  end.
Proof.
  cbn [visitEntries]. unfold bind, ret.
  destruct (visitEntry p err fi r) as [[] r1]; cbn [fst snd]; try done.
  by destruct (visitEntries p err rest r1) as [[? ?] ?].
Qed.

(** The loop folds the children it visits, up to its early [return]. *)
Lemma calculateEntries_visit p err fis : forall m r,
  calculateEntries p err fis m r =
  (match snd (fst (visitEntries p err fis r)) with
   | Some result => Return result
   | None => Next (fold_left foldOne (fst (fst (visitEntries p err fis r))) m)
   end,
   snd (visitEntries p err fis r)).
Proof.
  induction fis as [|fi rest IH]; intros m r; [done|].
  rewrite calculateEntries_cons, visitEntries_cons, calculateEntry_visit.
  cbn [fst snd].
  destruct (fst (visitEntry p err fi r)) as [res| |c]; cbn [flowOfVisit fst snd].
  - done.
  - apply IH.
  - rewrite IH. done.
Qed.

(** The loop over a list in two parts. *)
Lemma calculateEntries_app p err pre post : forall m r,
  calculateEntries p err (pre ++ post) m r =
  match fst (calculateEntries p err pre m r) with
  | Return result => (Return result, snd (calculateEntries p err pre m r))
  | Next m' =>
      calculateEntries p err post m' (snd (calculateEntries p err pre m r))
  end.
Proof.
  induction pre as [|fi pre IH]; intros m r; [done|].
  rewrite <- app_comm_cons, !calculateEntries_cons.
  destruct (fst (calculateEntry p err fi m r)); [done|].
  apply IH.
Qed.

(** *** The order of [float64] *)

Lemma SFltb_irrefl (a : float64) : SFltb a a = false.
Proof.
  unfold SFltb.
  destruct a as [[]|[]| |[] mn e]; cbn; try done;
    rewrite Z.compare_refl, Pos.compare_cont_refl; done.
Qed.

Lemma SFltb_finite_pos (n1 : positive) (e1 : Z) (n2 : positive) (e2 : Z) :
  SFltb (S754_finite false n1 e1) (S754_finite false n2 e2) = true <->
  (e1 < e2 \/ (e1 = e2 /\ (n1 < n2)%positive)).
Proof.
  unfold SFltb; cbn.
  destruct (Z.compare_spec e1 e2) as [->|H|H].
  - rewrite <- Pos.compare_lt_iff. unfold Pos.compare.
    destruct (Pos.compare_cont Eq n1 n2); split; intros;
      try done; try lia; intuition (try lia; try congruence).
  - split; [lia|done].
  - split; [done|lia].
Qed.

Lemma SFltb_finite_neg (n1 : positive) (e1 : Z) (n2 : positive) (e2 : Z) :
  SFltb (S754_finite true n1 e1) (S754_finite true n2 e2) = true <->
  (e2 < e1 \/ (e1 = e2 /\ (n2 < n1)%positive)).
Proof.
  unfold SFltb; cbn.
  destruct (Z.compare_spec e1 e2) as [->|H|H].
  - rewrite <- Pos.compare_gt_iff. unfold Pos.compare.
    destruct (Pos.compare_cont Eq n1 n2); cbn; split; intros;
      try done; try lia; intuition (try lia; try congruence).
  - split; [done|lia].
  - split; [lia|done].
Qed.

Lemma SFltb_trans (a b c : float64) :
  SFltb a b = true -> SFltb b c = true -> SFltb a c = true.
Proof.
  destruct a as [sa|sa| |sa na ea], b as [sb|sb| |sb nb eb],
    c as [sc|sc| |sc nc ec];
    try (destruct sa); try (destruct sb); try (destruct sc);
    try (cbn; done).
  - rewrite !SFltb_finite_neg. lia.
  - rewrite !SFltb_finite_pos. lia.
Qed.

(** *** The whole calculation *)

Lemma managedCalculateDirectoryMetadata_unfold p r :
  managedCalculateDirectoryMetadata p r =
  let s := startCalculation p r in
  match snd (fst s) with
  | Some e =>
      ((Metadata_zero, Some e),
       snd (log ("WARN: Error in reading files in directory "
                   +:+ SiaPath_SiaDirSysPath p (staticFilesDir (snd s)))
              (snd s)))
  | None =>
      let l := calculateEntries p None (snd (fst (fst s))) (fst (fst (fst s)))
                 (snd s) in
      finishCalculation (fst l) (snd l)
  end.
Proof.
  unfold managedCalculateDirectoryMetadata, bind, ret, gets.
  destruct (startCalculation p r) as [[[m0 fis] [e|]] r1]; cbn [fst snd].
  - by destruct (log _ r1).
  - by destruct (calculateEntries p None fis m0 r1).
Qed.

Lemma startCalculation_metadata p r :
  fst (fst (fst (startCalculation p r)))
  = initialMetadata (fst (time_Now (world r))).
Proof.
  unfold startCalculation, bind, ret, gets, ask, emit. cbn.
  destruct (time_Now (world r)) as [now w1]; cbn.
  by destruct (ioutil_ReadDir _ w1).
Qed.

(** The sanity checks after the loop change neither [Health] nor
    [NumStuckChunks], and the result has no error. *)
Lemma finishCalculation_Next m r :
  Health (fst (fst (finishCalculation (Next m) r))) = Health m
  /\ NumStuckChunks (fst (fst (finishCalculation (Next m) r)))
     = NumStuckChunks m
  /\ snd (fst (finishCalculation (Next m) r)) = None.
Proof.
  unfold finishCalculation, bind, ret, ask.
  destruct (Time_IsZero (ModTime m)).
  - destruct (time_Now (world r)) as [now w]; cbn.
    by destruct (feq _ _).
  - cbn. by destruct (feq _ _).
Qed.

(** A calculation that reaches its last [return] folds its children into
    the default metadata. *)
Lemma calculation_folds_children p r cs :
  processedChildren p r = Some cs ->
  exists r1,
    managedCalculateDirectoryMetadata p r =
    finishCalculation
      (Next (fold_left foldOne cs
               (initialMetadata (fst (time_Now (world r)))))) r1.
Proof.
  unfold processedChildren. intros H.
  rewrite managedCalculateDirectoryMetadata_unfold.
  pose proof (startCalculation_metadata p r) as Hm0.
  destruct (startCalculation p r) as [[[m0 fis] [e|]] r1];
    cbn [fst snd] in *; [done|].
  rewrite calculateEntries_visit. cbn [fst snd].
  destruct (visitEntries p None fis r1) as [[cs' [res|]] r2];
    cbn [fst snd] in *; [done|].
  injection H as ->. subst m0. by exists r2.
Qed.

(** *** Health *)

Lemma Health_foldChild fm ah sh red n lh mt m :
  Health (foldChild fm ah sh red n lh mt m) = worse (Health m) (bHealth fm).
Proof.
  unfold foldChild, worse.
  repeat match goal with |- context [if ?b then _ else _] =>
    destruct b end; done.
Qed.

(** A health that is not below zero stays so when it is replaced by a
    greater one. *)
Lemma worse_not_negative (a h : float64) :
  flt a float64_zero = false -> flt (worse a h) float64_zero = false.
Proof.
  unfold worse, fgt, flt. intros Ha.
  destruct (SFltb a h) eqn:Hah; [|done].
  destruct (SFltb h float64_zero) eqn:Hh; [|done].
  by rewrite (SFltb_trans a h float64_zero Hah Hh) in Ha.
Qed.

Lemma Health_fold_left cs : forall m,
  flt (Health m) float64_zero = false ->
  Health (fold_left foldOne cs m) = maxHealth (Health m) (fileHealths cs).
Proof.
  induction cs as [|c cs IH]; intros m Hm; [done|].
  cbn [fold_left]. destruct c as [fm|dm]; cbn [foldOne fileHealths omap].
  - unfold foldFile. rewrite IH; rewrite Health_foldChild; cbn [Health].
    + done.
    + by apply worse_not_negative.
  - assert (Health (foldDir dm m) = Health m) as Hd.
    { unfold foldDir. rewrite Health_foldChild. cbn.
      unfold worse, fgt. unfold flt in Hm. by rewrite Hm. }
    rewrite IH; rewrite Hd; done.
Qed.

(** *** Stuck chunks *)

Lemma NumStuckChunks_foldChild fm ah sh red n lh mt m :
  NumStuckChunks (foldChild fm ah sh red n lh mt m)
  = (NumStuckChunks m + 2 * n) mod uint64_modulus.
Proof.
  unfold foldChild, uint64_add.
  repeat match goal with |- context [if ?b then _ else _] =>
    destruct b end; cbn;
    rewrite Zplus_mod_idemp_l; f_equal; lia.
Qed.

Lemma NumStuckChunks_foldOne c m :
  NumStuckChunks (foldOne m c)
  = (NumStuckChunks m + 2 * childStuckChunks c) mod uint64_modulus.
Proof.
  destruct c; cbn [foldOne childStuckChunks]; unfold foldFile, foldDir;
    by rewrite NumStuckChunks_foldChild.
Qed.

Lemma NumStuckChunks_fold_left cs : forall m,
  NumStuckChunks (fold_left foldOne cs m) mod uint64_modulus
  = (NumStuckChunks m + 2 * sumStuckChunks cs) mod uint64_modulus.
Proof.
  induction cs as [|c cs IH]; intros m.
  - cbn. f_equal. lia.
  - cbn [fold_left sumStuckChunks foldr]. rewrite IH, NumStuckChunks_foldOne.
    fold (sumStuckChunks cs).
    rewrite Zplus_mod_idemp_l. f_equal. lia.
Qed.

(** Every child is counted twice: the calculation that reaches its last
    [return] gives [NumStuckChunks] twice the sum over its children,
    modulo [2^64]. *)
Lemma stuck_chunks_counted_twice p r cs :
  processedChildren p r = Some cs ->
  NumStuckChunks (fst (fst (managedCalculateDirectoryMetadata p r)))
    mod uint64_modulus
  = (2 * sumStuckChunks cs) mod uint64_modulus.
Proof.
  intros H. destruct (calculation_folds_children p r cs H) as [r1 ->].
  destruct (finishCalculation_Next
              (fold_left foldOne cs
                 (initialMetadata (fst (time_Now (world r))))) r1)
    as (_ & -> & _).
  by rewrite NumStuckChunks_fold_left.
Qed.

(** X30. The [Health] of the metadata returned by a calculation that
    reaches its last [return] (the directory was read and no entry found
    the stop channel closed) is the greatest of [DefaultDirHealth] and
    the healths of its file children; the subdirectory children do not
    enter it.  [DefaultDirHealth], the health of a healthy directory, is
    taken not to be below zero.  The calculation that returns on a closed
    stop channel is not covered: it returns no error either, and its
    [Health] is zero. *)
Theorem health_of_file_children_only p r cs :
  flt DefaultDirHealth float64_zero = false ->
  processedChildren p r = Some cs ->
  snd (fst (managedCalculateDirectoryMetadata p r)) = None
  /\ Health (fst (fst (managedCalculateDirectoryMetadata p r)))
     = maxHealth DefaultDirHealth (fileHealths cs).
Proof.
  intros Hd H. destruct (calculation_folds_children p r cs H) as [r1 ->].
  destruct (finishCalculation_Next
              (fold_left foldOne cs
                 (initialMetadata (fst (time_Now (world r))))) r1)
    as (-> & _ & ->).
  split; [done|]. by rewrite Health_fold_left.
Qed.

(** [maxHealth] is a maximum: it is the default or one of the healths,
    and none of them is greater. *)
Lemma maxHealth_attained hs : forall d : float64,
  maxHealth d hs = d \/ In (maxHealth d hs) hs.
Proof.
  induction hs as [|h hs IH]; intros d; [by left|].
  cbn [maxHealth fold_left]. fold (maxHealth (worse d h) hs).
  destruct (IH (worse d h)) as [->|Hin]; [|right; by right].
  unfold worse. destruct (fgt h d); [right; by left|by left].
Qed.

Lemma maxHealth_not_below_start hs : forall d : float64,
  flt (maxHealth d hs) d = false.
Proof.
  induction hs as [|h hs IH]; intros d; [apply SFltb_irrefl|].
  cbn [maxHealth fold_left]. fold (maxHealth (worse d h) hs).
  specialize (IH (worse d h)). unfold worse, fgt, flt in *.
  destruct (SFltb d h) eqn:Hdh; [|done].
  destruct (SFltb (maxHealth h hs) d) eqn:Hx; [|done].
  by rewrite (SFltb_trans _ _ _ Hx Hdh) in IH.
Qed.

Lemma SFltb_cotrans (a b c : float64) :
  is_nan b = false ->
  SFltb a c = true -> SFltb a b = true \/ SFltb b c = true.
Proof.
  destruct a as [[]|[]| |[] na ea], b as [[]|[]| |[] nb eb],
    c as [[]|[]| |[] nc ec];
    try (cbn; intuition congruence);
    rewrite ?SFltb_finite_pos, ?SFltb_finite_neg; lia.
Qed.

Lemma maxHealth_nan hs : forall d : float64,
  is_nan d = true -> maxHealth d hs = d.
Proof.
  induction hs as [|h hs IH]; intros d Hd; [done|].
  cbn [maxHealth fold_left]. fold (maxHealth (worse d h) hs).
  destruct d; try done. unfold worse, fgt. cbn. by apply IH.
Qed.

Lemma maxHealth_upper_bound hs : forall (d h : float64),
  h = d \/ In h hs -> fgt h (maxHealth d hs) = false.
Proof.
  induction hs as [|h' hs IH]; intros d h [->|Hin].
  - apply SFltb_irrefl.
  - done.
  - unfold fgt. apply (maxHealth_not_below_start (h' :: hs) d).
  - cbn [maxHealth fold_left]. fold (maxHealth (worse d h') hs).
    destruct Hin as [->|Hin]; [|apply IH; by right].
    pose proof (maxHealth_not_below_start hs (worse d h)) as Hb.
    unfold worse, fgt, flt in *.
    destruct (SFltb d h) eqn:Hdh; [done|].
    destruct (is_nan d) eqn:Hnan.
    { rewrite maxHealth_nan by done. by destruct d. }
    destruct (SFltb (maxHealth d hs) h) eqn:Hx; [|done].
    destruct (SFltb_cotrans _ d _ Hnan Hx); congruence.
Qed.


(** *** Failures and shutdown inside the loop *)

(** The calculation up to an entry [fi] of the directory: the directory
    was read, and the loop over the entries before [fi] left [m1]. *)
Lemma calculation_up_to_entry p r pre fi post m0 r1 m1 r2 :
  startCalculation p r = ((m0, (pre ++ fi :: post)%list, None), r1) ->
  calculateEntries p None pre m0 r1 = (Next m1, r2) ->
  managedCalculateDirectoryMetadata p r =
  match fst (calculateEntry p None fi m1 r2) with
  | Return result => (result, snd (calculateEntry p None fi m1 r2))
  | Next m' =>
      (step <- calculateEntries p None post m' ;; finishCalculation step)
        (snd (calculateEntry p None fi m1 r2))
  end.
Proof.
  intros Hs Hpre.
  rewrite managedCalculateDirectoryMetadata_unfold, Hs. cbn [fst snd].
  rewrite calculateEntries_app, Hpre. cbn [fst snd].
  rewrite calculateEntries_cons.
  destruct (calculateEntry p None fi m1 r2) as [[res|m'] r3]; cbn [fst snd].
  - done.
  - unfold bind. by destruct (calculateEntries p None post m' r3).
Qed.

(** C8. In a directory calculation, when the probe of a file child fails
    the file is skipped: the metadata accumulated so far is kept as it is
    and the calculation continues with the entries after it.  When the
    read of the metadata of a subdirectory child fails, the calculation
    returns at once with that error. *)
Theorem probe_failure_skips_subdirectory_failure_aborts
    p r pre fi post m0 r1 m1 r2 r3 :
  startCalculation p r = ((m0, (pre ++ fi :: post)%list, None), r1) ->
  calculateEntries p None pre m0 r1 = (Next m1, r2) ->
  stopped r2 = (false, r3) ->
  (forall fileSiaPath fileMetadata e r4,
     String.eqb (filepath_Ext (Name fi)) SiaFileExtension = true ->
     SiaPath_Join p (strings_TrimSuffix (Name fi) SiaFileExtension)
     = (fileSiaPath, None) ->
     managedCalculateAndUpdateFileMetadata fileSiaPath r3
     = ((fileMetadata, Some e), r4) ->
     managedCalculateDirectoryMetadata p r =
     (step <- calculateEntries p None post m1 ;; finishCalculation step)
       (snd (log ("failed to calculate file metadata " +:+ Name fi) r4)))
  /\ (forall dirSiaPath dirMetadata e r4,
        String.eqb (filepath_Ext (Name fi)) SiaFileExtension = false ->
        IsDir fi = true ->
        SiaPath_Join p (Name fi) = (dirSiaPath, None) ->
        managedDirectoryMetadata dirSiaPath r3 = ((dirMetadata, Some e), r4) ->
        managedCalculateDirectoryMetadata p r = ((Metadata_zero, Some e), r4)).
Proof.
  intros Hs Hpre Hstop.
  rewrite (calculation_up_to_entry p r pre fi post m0 r1 m1 r2 Hs Hpre).
  unfold calculateEntry, bind, ret. rewrite Hstop.
  split.
  - intros fileSiaPath fm e r4 Hext Hjoin Hprobe.
    rewrite Hext, Hjoin, Hprobe.
    by destruct (log _ r4).
  - intros dirSiaPath dm e r4 Hext Hdir Hjoin Hread.
    by rewrite Hext, Hdir, Hjoin, Hread.
Qed.

(** C4, amended. When the stop channel is found closed as an entry is
    about to be processed, the calculation returns at once, and the
    metadata it returns is the zero value [siadir.Metadata{}], not the
    metadata accumulated so far. *)
Theorem shutdown_returns_zero_metadata p r pre fi post m0 r1 m1 r2 :
  startCalculation p r = ((m0, (pre ++ fi :: post)%list, None), r1) ->
  calculateEntries p None pre m0 r1 = (Next m1, r2) ->
  fst (stopped r2) = true ->
  fst (fst (managedCalculateDirectoryMetadata p r)) = Metadata_zero
  /\ snd (managedCalculateDirectoryMetadata p r) = snd (stopped r2).
Proof.
  intros Hs Hpre Hstop.
  rewrite (calculation_up_to_entry p r pre fi post m0 r1 m1 r2 Hs Hpre).
  unfold calculateEntry, bind, ret.
  destruct (stopped r2) as [closed r3]. cbn in Hstop. subst closed. done.
Qed.


(** *** The subdirectory read without a record *)

(** A directory without a record that is empty and not the root:
    [managedDirectoryMetadata] returns the error of [Open] and does not
    call [NewSiaDir]. *)
Lemma absent_record_of_empty_directory p r fi w1 d e w2 w3 :
  let sys := SiaPath_SiaDirSysPath p (staticFilesDir r) in
  os_Stat sys (world r) = ((fi, None), w1) ->
  IsDir fi = true ->
  staticDirSet_Open p w1 = ((d, Some e), w2) ->
  notExist e = true ->
  ioutil_ReadDir sys w2 = (([], None), w3) ->
  SiaPath_IsRoot p = false ->
  managedDirectoryMetadata p r =
  ((Metadata_zero, Some (errOS e)),
   with_trace (with_world r w3)
     (trace r ++ [CallStat sys; CallDirOpen p; CallReadDir sys])%list).
Proof.
  intros sys Hstat Hdir Hopen He Hread Hroot.
  unfold managedDirectoryMetadata, bind, ret, gets, ask, emit. cbn.
  fold sys. rewrite Hstat. cbn. rewrite Hdir. cbn. rewrite Hopen. cbn.
  rewrite He. cbn. rewrite Hread. cbn. rewrite Hroot. cbn.
  unfold with_trace, with_world. cbn. by rewrite <- !app_assoc.
Qed.

(** A directory without a record that is not empty, or is the root:
    [managedDirectoryMetadata] calls [NewSiaDir] and then, whatever
    [NewSiaDir] returned, returns the error of [Open] with
    [siadir.Metadata{}]; the new entry is not closed. *)
Lemma absent_record_created_then_error p r fi w1 d e w2 fis w3 :
  let sys := SiaPath_SiaDirSysPath p (staticFilesDir r) in
  os_Stat sys (world r) = ((fi, None), w1) ->
  IsDir fi = true ->
  staticDirSet_Open p w1 = ((d, Some e), w2) ->
  notExist e = true ->
  ioutil_ReadDir sys w2 = ((fis, None), w3) ->
  (length fis =? 0)%nat && negb (SiaPath_IsRoot p) = false ->
  managedDirectoryMetadata p r =
  ((Metadata_zero, Some (errOS e)),
   with_trace (with_world r (snd (staticDirSet_NewSiaDir p w3)))
     (trace r ++ [CallStat sys; CallDirOpen p; CallReadDir sys;
                  CallNewSiaDir p])%list).
Proof.
  intros sys Hstat Hdir Hopen He Hread Hcond.
  unfold managedDirectoryMetadata, bind, ret, gets, ask, emit. cbn.
  fold sys. rewrite Hstat. cbn. rewrite Hdir. cbn. rewrite Hopen. cbn.
  rewrite He. cbn. rewrite Hread. cbn. rewrite Hcond. cbn.
  destruct (staticDirSet_NewSiaDir p w3) as [[d' e'] w4]. cbn.
  unfold with_trace, with_world. cbn. by rewrite <- !app_assoc.
Qed.


(** * Further properties of the calculator *)

(** *** The fields after one child *)

(** Case analysis on a condition that has no condition inside. *)
Ltac destruct_if :=
  match goal with
  | |- context [if ?b then _ else _] =>
      lazymatch b with
      | context [if _ then _ else _] => fail
      | _ => destruct b eqn:?
      end
  end.

(** [foldChild] field by field. *)
Lemma foldChild_fields fm ah sh red n lh mt m :
  foldChild fm ah sh red n lh mt m
  = {| AggregateHealth := worse (AggregateHealth m) ah;
       AggregateNumFiles := AggregateNumFiles m;
       AggregateSize := AggregateSize m;
       Health := worse (Health m) (bHealth fm);
       LastHealthCheckTime :=
         if Time_Before lh (LastHealthCheckTime m)
         then lh else LastHealthCheckTime m;
       MinRedundancy := lesser (MinRedundancy m) red;
       ModTime := if Time_After mt (ModTime m) then mt else ModTime m;
       NumFiles := NumFiles m;
       NumStuckChunks := uint64_add (uint64_add (NumStuckChunks m) n) n;
       NumSubDirs := NumSubDirs m;
       StuckHealth := worse (StuckHealth m) sh |}.
Proof.
  destruct m. unfold worse, lesser.
  cbv beta delta [foldChild].
  cbn [AggregateHealth AggregateNumFiles AggregateSize Health
         LastHealthCheckTime MinRedundancy ModTime NumFiles NumStuckChunks
         NumSubDirs StuckHealth].
  repeat (destruct_if;
          cbn [AggregateHealth AggregateNumFiles AggregateSize Health
                 LastHealthCheckTime MinRedundancy ModTime NumFiles
                 NumStuckChunks NumSubDirs StuckHealth
                 set_AggregateHealth set_AggregateNumFiles set_AggregateSize
                 set_Health set_LastHealthCheckTime set_MinRedundancy
                 set_ModTime set_NumFiles set_NumStuckChunks set_NumSubDirs
                 set_StuckHealth]);
    reflexivity.
Qed.

Ltac fold_fields :=
  unfold foldFile, foldDir; rewrite foldChild_fields;
  cbn [AggregateHealth AggregateNumFiles AggregateSize Health
         LastHealthCheckTime MinRedundancy ModTime NumFiles NumStuckChunks
         NumSubDirs StuckHealth
         set_AggregateHealth set_AggregateNumFiles set_AggregateSize
         set_Health set_LastHealthCheckTime set_MinRedundancy
         set_ModTime set_NumFiles set_NumStuckChunks set_NumSubDirs
         set_StuckHealth].

Lemma AggregateHealth_foldOne m c :
  AggregateHealth (foldOne m c)
  = worse (AggregateHealth m) (childAggregateHealth c).
Proof. destruct c; cbn [foldOne childAggregateHealth]; by fold_fields. Qed.

Lemma StuckHealth_foldOne m c :
  StuckHealth (foldOne m c) = worse (StuckHealth m) (childStuckHealth c).
Proof. destruct c; cbn [foldOne childStuckHealth]; by fold_fields. Qed.

Lemma MinRedundancy_foldOne m c :
  MinRedundancy (foldOne m c)
  = lesser (MinRedundancy m) (childRedundancy c).
Proof. destruct c; cbn [foldOne childRedundancy]; by fold_fields. Qed.

Lemma NumFiles_foldOne m c :
  NumFiles (foldOne m c)
  = if isFileChild c then uint64_add (NumFiles m) 1 else NumFiles m.
Proof. destruct c; cbn [foldOne isFileChild]; by fold_fields. Qed.

Lemma NumSubDirs_foldOne m c :
  NumSubDirs (foldOne m c)
  = if isFileChild c then NumSubDirs m else uint64_add (NumSubDirs m) 1.
Proof. destruct c; cbn [foldOne isFileChild]; by fold_fields. Qed.

Lemma AggregateNumFiles_foldOne m c :
  AggregateNumFiles (foldOne m c)
  = uint64_add (AggregateNumFiles m) (childAggregateNumFiles c).
Proof. destruct c; cbn [foldOne childAggregateNumFiles]; by fold_fields. Qed.

Lemma AggregateSize_foldOne m c :
  AggregateSize (foldOne m c)
  = uint64_add (AggregateSize m) (childAggregateSize c).
Proof. destruct c; cbn [foldOne childAggregateSize]; by fold_fields. Qed.




(** *** The fields after all children *)

Lemma uint64_add_wrapped (a b : Z) :
  0 <= uint64_add a b < uint64_modulus.
Proof. unfold uint64_add. by apply Z.mod_pos_bound. Qed.

Lemma NumFiles_fold_left cs : forall m,
  0 <= NumFiles m < uint64_modulus ->
  NumFiles (fold_left foldOne cs m)
  = (NumFiles m + countFiles cs) mod uint64_modulus.
Proof.
  unfold countFiles.
  induction cs as [|c cs IH]; intros m Hm; cbn [fold_left List.filter].
  - cbn. rewrite Z.add_0_r, Z.mod_small; done.
  - rewrite IH; rewrite NumFiles_foldOne; destruct (isFileChild c);
      try done; try apply uint64_add_wrapped.
    cbn [length]. unfold uint64_add. rewrite Zplus_mod_idemp_l.
    f_equal. lia.
Qed.

Lemma NumSubDirs_fold_left cs : forall m,
  0 <= NumSubDirs m < uint64_modulus ->
  NumSubDirs (fold_left foldOne cs m)
  = (NumSubDirs m + countSubDirs cs) mod uint64_modulus.
Proof.
  unfold countSubDirs.
  induction cs as [|c cs IH]; intros m Hm; cbn [fold_left List.filter].
  - cbn. rewrite Z.add_0_r, Z.mod_small; done.
  - rewrite IH; rewrite NumSubDirs_foldOne; destruct (isFileChild c);
      cbn [negb]; try done; try apply uint64_add_wrapped.
    cbn [length]. unfold uint64_add. rewrite Zplus_mod_idemp_l.
    f_equal. lia.
Qed.

Lemma AggregateNumFiles_fold_left cs : forall m,
  0 <= AggregateNumFiles m < uint64_modulus ->
  AggregateNumFiles (fold_left foldOne cs m)
  = (AggregateNumFiles m + sumOver childAggregateNumFiles cs)
      mod uint64_modulus.
Proof.
  induction cs as [|c cs IH]; intros m Hm; cbn [fold_left sumOver foldr].
  - rewrite Z.add_0_r, Z.mod_small; done.
  - fold (sumOver childAggregateNumFiles cs).
    rewrite IH; rewrite AggregateNumFiles_foldOne;
      [|apply uint64_add_wrapped].
    unfold uint64_add. rewrite Zplus_mod_idemp_l. f_equal. lia.
Qed.

Lemma AggregateSize_fold_left cs : forall m,
  0 <= AggregateSize m < uint64_modulus ->
  AggregateSize (fold_left foldOne cs m)
  = (AggregateSize m + sumOver childAggregateSize cs) mod uint64_modulus.
Proof.
  induction cs as [|c cs IH]; intros m Hm; cbn [fold_left sumOver foldr].
  - rewrite Z.add_0_r, Z.mod_small; done.
  - fold (sumOver childAggregateSize cs).
    rewrite IH; rewrite AggregateSize_foldOne; [|apply uint64_add_wrapped].
    unfold uint64_add. rewrite Zplus_mod_idemp_l. f_equal. lia.
Qed.

Lemma AggregateHealth_fold_left cs : forall m,
  AggregateHealth (fold_left foldOne cs m)
  = maxHealth (AggregateHealth m) (map childAggregateHealth cs).
Proof.
  induction cs as [|c cs IH]; intros m; [done|].
  cbn [fold_left map]. by rewrite IH, AggregateHealth_foldOne.
Qed.

Lemma StuckHealth_fold_left cs : forall m,
  StuckHealth (fold_left foldOne cs m)
  = maxHealth (StuckHealth m) (map childStuckHealth cs).
Proof.
  induction cs as [|c cs IH]; intros m; [done|].
  cbn [fold_left map]. by rewrite IH, StuckHealth_foldOne.
Qed.

Lemma MinRedundancy_fold_left cs : forall m,
  MinRedundancy (fold_left foldOne cs m)
  = minRedundancy (MinRedundancy m) (map childRedundancy cs).
Proof.
  induction cs as [|c cs IH]; intros m; [done|].
  cbn [fold_left map]. by rewrite IH, MinRedundancy_foldOne.
Qed.



(** All that [finishCalculation] does to the metadata of the loop. *)
Lemma finishCalculation_fields m r :
  let md := fst (fst (finishCalculation (Next m) r)) in
  AggregateHealth md = AggregateHealth m
  /\ StuckHealth md = StuckHealth m
  /\ NumFiles md = NumFiles m
  /\ NumSubDirs md = NumSubDirs m
  /\ AggregateNumFiles md = AggregateNumFiles m
  /\ AggregateSize md = AggregateSize m
  /\ LastHealthCheckTime md = LastHealthCheckTime m
  /\ ModTime md
     = (if Time_IsZero (ModTime m) then fst (time_Now (world r))
        else ModTime m)
  /\ MinRedundancy md
     = (if feq (MinRedundancy m) MaxFloat64 then float64_zero
        else MinRedundancy m).
Proof.
  unfold finishCalculation, bind, ret, ask.
  destruct (Time_IsZero (ModTime m)).
  - destruct (time_Now (world r)) as [now w]; cbn.
    by destruct (feq _ _).
  - cbn. by destruct (feq _ _).
Qed.


(** *** More on the order of [float64] *)

Lemma SFltb_asym (a b : float64) : SFltb a b = true -> SFltb b a = false.
Proof.
  intros Hab. destruct (SFltb b a) eqn:Hba; [|done].
  pose proof (SFltb_trans a b a Hab Hba) as H.
  by rewrite SFltb_irrefl in H.
Qed.

(** Without NaN, [math.Max] is not below its arguments. *)
Lemma math_Max_upper_bound (x y : float64) :
  is_nan x = false -> is_nan y = false ->
  is_nan (math_Max x y) = false
  /\ SFltb (math_Max x y) x = false
  /\ SFltb (math_Max x y) y = false.
Proof.
  intros Hx Hy. unfold math_Max. rewrite Hx, Hy. cbn [orb].
  destruct (is_pos_inf x || is_pos_inf y) eqn:Hinf.
  { split; [done|].
    by destruct x as [[]|[]| |[] ? ?], y as [[]|[]| |[] ? ?]. }
  destruct (feq x float64_zero && feq x y) eqn:Hz.
  { apply andb_prop in Hz as [Hz1 Hz2].
    unfold feq, float64_zero in Hz1, Hz2.
    by destruct x as [[]|[]| |[] ? ?], y as [[]|[]| |[] ? ?];
      cbn in Hz1, Hz2. }
  unfold fgt. destruct (SFltb y x) eqn:Hyx.
  - split; [done|]. split; [apply SFltb_irrefl|by apply SFltb_asym].
  - split; [done|]. split; [done|apply SFltb_irrefl].
Qed.

Lemma minRedundancy_not_above_start hs : forall d : float64,
  flt d (minRedundancy d hs) = false.
Proof.
  induction hs as [|h hs IH]; intros d; [apply SFltb_irrefl|].
  cbn [minRedundancy fold_left]. fold (minRedundancy (lesser d h) hs).
  specialize (IH (lesser d h)). unfold lesser, flt in *.
  destruct (SFltb h d) eqn:Hhd; [|done].
  destruct (SFltb d (minRedundancy h hs)) eqn:Hx; [|done].
  by rewrite (SFltb_trans _ _ _ Hhd Hx) in IH.
Qed.

Lemma minRedundancy_nan hs : forall d : float64,
  is_nan d = true -> minRedundancy d hs = d.
Proof.
  induction hs as [|h hs IH]; intros d Hd; [done|].
  cbn [minRedundancy fold_left]. fold (minRedundancy (lesser d h) hs).
  destruct d; try done. unfold lesser, flt.
  assert (SFltb h S754_nan = false) as -> by (by destruct h).
  by apply IH.
Qed.

Lemma minRedundancy_lower_bound hs : forall (d h : float64),
  h = d \/ In h hs -> flt h (minRedundancy d hs) = false.
Proof.
  induction hs as [|h' hs IH]; intros d h [->|Hin].
  - apply SFltb_irrefl.
  - done.
  - apply (minRedundancy_not_above_start (h' :: hs) d).
  - cbn [minRedundancy fold_left]. fold (minRedundancy (lesser d h') hs).
    destruct Hin as [->|Hin]; [|apply IH; by right].
    pose proof (minRedundancy_not_above_start hs (lesser d h)) as Hb.
    unfold lesser, flt in *.
    destruct (SFltb h d) eqn:Hhd; [done|].
    destruct (is_nan d) eqn:Hnan.
    { rewrite minRedundancy_nan by done. by destruct d, h. }
    destruct (SFltb h (minRedundancy d hs)) eqn:Hx; [|done].
    destruct (SFltb_cotrans _ d _ Hnan Hx); congruence.
Qed.

(** *** The metadata of a calculation, field by field *)

Lemma initialMetadata_wrapped now :
  0 <= NumFiles (initialMetadata now) < uint64_modulus
  /\ 0 <= NumSubDirs (initialMetadata now) < uint64_modulus
  /\ 0 <= AggregateNumFiles (initialMetadata now) < uint64_modulus
  /\ 0 <= AggregateSize (initialMetadata now) < uint64_modulus.
Proof. cbn. unfold uint64_modulus. lia. Qed.

(** X1. The calculation on an empty directory: it polls the stop
    channel not at all, returns no error and returns the default
    metadata, with [LastHealthCheckTime] the time read at the start,
    [ModTime] the time read after the loop and [MinRedundancy] zero. *)
Theorem empty_directory_metadata p r m0 r1 :
  startCalculation p r = ((m0, [], None), r1) ->
  managedCalculateDirectoryMetadata p r =
  ((emptyDirectoryMetadata (fst (time_Now (world r)))
      (fst (time_Now (world r1))), None),
   with_world r1 (snd (time_Now (world r1)))).
Proof.
  intros Hs. pose proof (startCalculation_metadata p r) as Hm0.
  rewrite managedCalculateDirectoryMetadata_unfold, Hs in *.
  cbn [fst snd] in *. subst m0.
  unfold finishCalculation, bind, ret, ask. cbn.
  by destruct (time_Now (world r1)) as [now' w].
Qed.

(** X2. The counts of a calculation that reaches its last [return]:
    [NumFiles] and [NumSubDirs] count the file children and the
    subdirectory children, [AggregateNumFiles] adds one per file child
    and the [AggregateNumFiles] of every subdirectory child, and
    [AggregateSize] adds the sizes of the file children and the
    [AggregateSize] of the subdirectory children, all modulo [2^64]. *)
Theorem counts_of_children p r cs :
  processedChildren p r = Some cs ->
  let md := fst (fst (managedCalculateDirectoryMetadata p r)) in
  NumFiles md = countFiles cs mod uint64_modulus
  /\ NumSubDirs md = countSubDirs cs mod uint64_modulus
  /\ AggregateNumFiles md
     = sumOver childAggregateNumFiles cs mod uint64_modulus
  /\ AggregateSize md = sumOver childAggregateSize cs mod uint64_modulus.
Proof.
  intros H. destruct (calculation_folds_children p r cs H) as [r1 ->].
  cbn zeta.
  destruct (finishCalculation_fields
              (fold_left foldOne cs
                 (initialMetadata (fst (time_Now (world r))))) r1)
    as (_ & _ & -> & -> & -> & -> & _).
  destruct (initialMetadata_wrapped (fst (time_Now (world r))))
    as (W1 & W2 & W3 & W4).
  rewrite NumFiles_fold_left, NumSubDirs_fold_left,
    AggregateNumFiles_fold_left, AggregateSize_fold_left by done.
  done.
Qed.

(** X3. The aggregate health of a calculation that reaches its last
    [return] is the greatest of [DefaultDirHealth] and what the children
    contribute (the health of a file, the [math.Max] of aggregate health
    and health of a subdirectory), and [StuckHealth] likewise; no child
    contributes more than the result, and a subdirectory child without
    NaN has neither its aggregate health nor its health above the
    aggregate health of the directory. *)
Theorem aggregate_health_bounds_children p r cs :
  processedChildren p r = Some cs ->
  let md := fst (fst (managedCalculateDirectoryMetadata p r)) in
  AggregateHealth md
  = maxHealth DefaultDirHealth (map childAggregateHealth cs)
  /\ StuckHealth md = maxHealth DefaultDirHealth (map childStuckHealth cs)
  /\ (forall c, In c cs ->
        fgt (childAggregateHealth c) (AggregateHealth md) = false
        /\ fgt (childStuckHealth c) (StuckHealth md) = false)
  /\ (forall dirMetadata, In (DirChild dirMetadata) cs ->
        is_nan (AggregateHealth dirMetadata) = false ->
        is_nan (Health dirMetadata) = false ->
        fgt (AggregateHealth dirMetadata) (AggregateHealth md) = false
        /\ fgt (Health dirMetadata) (AggregateHealth md) = false).
Proof.
  intros H. destruct (calculation_folds_children p r cs H) as [r1 ->].
  cbn zeta.
  destruct (finishCalculation_fields
              (fold_left foldOne cs
                 (initialMetadata (fst (time_Now (world r))))) r1)
    as (-> & -> & _).
  rewrite AggregateHealth_fold_left, StuckHealth_fold_left.
  cbn [initialMetadata AggregateHealth StuckHealth].
  assert (forall c, In c cs ->
            fgt (childAggregateHealth c)
              (maxHealth DefaultDirHealth (map childAggregateHealth cs))
            = false) as Hagg.
  { intros c Hin. apply maxHealth_upper_bound. right. exact (in_map _ _ _ Hin). }
  split; [done|]. split; [done|]. split.
  - intros c Hin. split; [by apply Hagg|].
    apply maxHealth_upper_bound. right. exact (in_map _ _ _ Hin).
  - intros dm Hin Hn1 Hn2.
    specialize (Hagg _ Hin). cbn [childAggregateHealth] in Hagg.
    destruct (math_Max_upper_bound _ _ Hn1 Hn2) as (Hn & Hb1 & Hb2).
    unfold fgt in *. split.
    + destruct (SFltb (maxHealth _ _) (AggregateHealth dm)) eqn:Hx; [|done].
      destruct (SFltb_cotrans _ _ _ Hn Hx); congruence.
    + destruct (SFltb (maxHealth _ _) (Health dm)) eqn:Hx; [|done].
      destruct (SFltb_cotrans _ _ _ Hn Hx); congruence.
Qed.


(** X5. The redundancy of a calculation that reaches its last [return]
    is the least of [math.MaxFloat64] and the redundancies of the
    children, replaced by zero when that is [math.MaxFloat64]; the
    metadata returned never holds [math.MaxFloat64], and unless the
    replacement was made no child has a redundancy below the result. *)
Theorem min_redundancy_bounds_children p r cs :
  processedChildren p r = Some cs ->
  let md := fst (fst (managedCalculateDirectoryMetadata p r)) in
  let least := minRedundancy MaxFloat64 (map childRedundancy cs) in
  MinRedundancy md
  = (if feq least MaxFloat64 then float64_zero else least)
  /\ feq (MinRedundancy md) MaxFloat64 = false
  /\ (feq least MaxFloat64 = false ->
      forall c, In c cs -> flt (childRedundancy c) (MinRedundancy md) = false).
Proof.
  intros H. destruct (calculation_folds_children p r cs H) as [r1 ->].
  cbn zeta.
  destruct (finishCalculation_fields
              (fold_left foldOne cs
                 (initialMetadata (fst (time_Now (world r))))) r1)
    as (_ & _ & _ & _ & _ & _ & _ & _ & ->).
  rewrite MinRedundancy_fold_left.
  cbn [initialMetadata MinRedundancy].
  destruct (feq (minRedundancy MaxFloat64 (map childRedundancy cs))
              MaxFloat64) eqn:Hs.
  - split; [done|]. split; [done|]. done.
  - split; [done|]. split; [done|]. intros _ c Hin.
    apply minRedundancy_lower_bound. right. exact (in_map _ _ _ Hin).
Qed.

(** *** The order of the children *)













(** * Properties of the driver *)

(** *** Calm computations *)

Lemma calm_ret {A : Type} (a : A) : calm (ret a).
Proof.
  intros r. cbn. repeat split. exists []. by rewrite app_nil_r.
Qed.

Lemma calm_gets {A : Type} (f : Renter -> A) : calm (gets f).
Proof.
  intros r. cbn. repeat split. exists []. by rewrite app_nil_r.
Qed.

Lemma calm_ask {A : Type} (op : W -> A * W) : calm (ask op).
Proof.
  intros r. unfold ask. destruct (op (world r)) as [a w]. cbn.
  repeat split. exists []. by rewrite app_nil_r.
Qed.

Lemma calm_emit (ev : Call) : isGoOrSend ev = false -> calm (emit ev).
Proof.
  intros H r. cbn. repeat split. exists [ev]. split; [done|].
  by constructor.
Qed.

Lemma calm_bind {A B : Type} (c : M A) (k : A -> M B) :
  calm c -> (forall a, calm (k a)) -> calm (bind c k).
Proof.
  intros Hc Hk r. unfold bind.
  destruct (Hc r) as (H1 & H2 & H3 & H4 & t1 & Ht1 & Hf1).
  destruct (c r) as [a r1]. cbn [snd] in *.
  destruct (Hk a r1) as (K1 & K2 & K3 & K4 & t2 & Ht2 & Hf2).
  rewrite K1, K2, K3, K4, H1, H2, H3, H4. repeat split.
  exists (t1 ++ t2)%list. rewrite Ht2, Ht1, app_assoc. split; [done|].
  by apply Forall_app.
Qed.

Ltac calm_step :=
  first
    [ apply calm_ret
    | apply calm_gets
    | apply calm_ask
    | apply calm_emit; reflexivity
    | apply calm_bind; [|intros ?]
    | assumption
    | match goal with
      | |- calm (match ?x with _ => _ end) => destruct x
      end ].

Ltac calm_tac := repeat calm_step.

Lemma calm_log line : calm (log line).
Proof. unfold log. calm_tac. Qed.

Lemma calm_stopped : calm stopped.
Proof. unfold stopped. calm_tac. Qed.

Lemma calm_managedCalculateAndUpdateFileMetadata p :
  calm (managedCalculateAndUpdateFileMetadata p).
Proof.
  unfold managedCalculateAndUpdateFileMetadata. calm_tac; apply calm_log.
Qed.

Lemma calm_managedDirectoryMetadata p : calm (managedDirectoryMetadata p).
Proof. unfold managedDirectoryMetadata. calm_tac. Qed.

Lemma calm_calculateEntry p err fi m : calm (calculateEntry p err fi m).
Proof.
  unfold calculateEntry.
  calm_tac;
    first [ apply calm_stopped | apply calm_log
          | apply calm_managedCalculateAndUpdateFileMetadata
          | apply calm_managedDirectoryMetadata ].
Qed.

Lemma calm_calculateEntries p err fis : forall m,
  calm (calculateEntries p err fis m).
Proof.
  induction fis as [|fi rest IH]; intros m; cbn [calculateEntries].
  - apply calm_ret.
  - apply calm_bind; [apply calm_calculateEntry|].
    intros [res|m']; [apply calm_ret|apply IH].
Qed.

Lemma calm_managedCalculateDirectoryMetadata p :
  calm (managedCalculateDirectoryMetadata p).
Proof.
  unfold managedCalculateDirectoryMetadata, startCalculation,
    finishCalculation.
  calm_tac; first [ apply calm_log | apply calm_calculateEntries ].
Qed.

Lemma calm_updateDirectoryMetadata p md :
  calm (updateDirectoryMetadata p md).
Proof. unfold updateDirectoryMetadata. calm_tac. Qed.


(** *** The signals *)

Lemma trySend_spec sig r :
  bubbleUpdates (snd (trySend sig r)) = bubbleUpdates r
  /\ staticFilesDir (snd (trySend sig r)) = staticFilesDir r
  /\ world (snd (trySend sig r)) = world r
  /\ (exists sent, trace (snd (trySend sig r))
                   = (trace r ++ [CallSend sig sent])%list)
  /\ repairNeeded (snd (trySend sig r))
     = afterSend (match sig with SigRepairNeeded => true | _ => false end)
         (repairNeeded r)
  /\ stuckChunkFound (snd (trySend sig r))
     = afterSend (match sig with SigStuckChunkFound => true | _ => false end)
         (stuckChunkFound r).
Proof.
  unfold trySend, afterSend.
  destruct sig; cbn [andb];
    match goal with |- context [(?a <? ?b)%nat] =>
      destruct (a <? b)%nat end; cbn; eauto 10.
Qed.

Lemma signalRepairLoops_spec p md r :
  bubbleUpdates (snd (signalRepairLoops p md r)) = bubbleUpdates r
  /\ staticFilesDir (snd (signalRepairLoops p md r)) = staticFilesDir r
  /\ world (snd (signalRepairLoops p md r)) = world r
  /\ (exists t, trace (snd (signalRepairLoops p md r)) = (trace r ++ t)%list
                /\ Forall (fun ev => isGo ev = false) t)
  /\ repairNeeded (snd (signalRepairLoops p md r))
     = afterSend (SiaPath_IsRoot p
                  && fge (AggregateHealth md) RemoteRepairDownloadThreshold)
         (repairNeeded r)
  /\ stuckChunkFound (snd (signalRepairLoops p md r))
     = afterSend (SiaPath_IsRoot p && (0 <? NumStuckChunks md))
         (stuckChunkFound r).
Proof.
  unfold signalRepairLoops, bind, ret.
  destruct (SiaPath_IsRoot p); cbn [andb].
  2:{ cbn. repeat split. exists []. by rewrite app_nil_r. }
  destruct (fge _ _); cbn [andb].
  - destruct (trySend_spec SigRepairNeeded r)
      as (A1 & A2 & A3 & [s1 A4] & A5 & A6).
    destruct (trySend SigRepairNeeded r) as [[] r1]. cbn [snd] in *.
    destruct (0 <? NumStuckChunks md); cbn [andb].
    + destruct (trySend_spec SigStuckChunkFound r1)
        as (B1 & B2 & B3 & [s2 B4] & B5 & B6).
      destruct (trySend SigStuckChunkFound r1) as [[] r2]. cbn [snd] in *.
      rewrite B1, B2, B3, B4, B5, B6, A1, A2, A3, A4, A5, A6.
      repeat split.
      exists [CallSend SigRepairNeeded s1; CallSend SigStuckChunkFound s2].
      rewrite <- app_assoc. split; [done|]. by repeat constructor.
    + cbn [snd]. rewrite A1, A2, A3, A4, A5, A6. repeat split.
      exists [CallSend SigRepairNeeded s1]. split; [done|].
      by repeat constructor.
  - destruct (0 <? NumStuckChunks md); cbn [andb].
    + destruct (trySend_spec SigStuckChunkFound r)
        as (B1 & B2 & B3 & [s2 B4] & B5 & B6).
      destruct (trySend SigStuckChunkFound r) as [[] r2]. cbn [snd] in *.
      rewrite B1, B2, B3, B4, B5, B6. repeat split.
      exists [CallSend SigStuckChunkFound s2]. split; [done|].
      by repeat constructor.
    + cbn. repeat split. exists []. by rewrite app_nil_r.
Qed.


(** *** The body of the driver *)

Lemma calm_closeDirectory opened : calm (closeDirectory opened).
Proof. unfold closeDirectory. calm_tac. Qed.

Lemma bubbleBody_unfold p r :
  bubbleBody p r =
  let c := managedCalculateDirectoryMetadata p r in
  match snd (fst c) with
  | Some e =>
      (Some (errors_AddContext e
               ("could not calculate the metadata of directory "
                  +:+ SiaPath_SiaDirSysPath p (staticFilesDir (snd c)))),
       snd c)
  | None =>
      let u := updateDirectoryMetadata p (fst (fst c)) (snd c) in
      (fst (fst u),
       snd (closeDirectory (snd (fst u))
              (snd (signalRepairLoops p (fst (fst c)) (snd u)))))
  end.
Proof.
  unfold bubbleBody, bind, ret, gets.
  destruct (managedCalculateDirectoryMetadata p r) as [[md [e|]] r1];
    cbn [fst snd]; [done|].
  destruct (updateDirectoryMetadata p md r1) as [[err opened] r2];
    cbn [fst snd].
  destruct (signalRepairLoops p md r2) as [[] r3]; cbn [snd].
  by destruct (closeDirectory opened r3) as [[] r4].
Qed.



(** *** The deferred completion *)

Lemma managedBubbleMetadata_admitted p r :
  fst (fst (managedBubbleNeeded p r)) = true ->
  managedBubbleMetadata p r =
  (fst (bubbleBody p (snd (managedBubbleNeeded p r))),
   snd (deferredCompletion p
          (snd (bubbleBody p (snd (managedBubbleNeeded p r)))))).
Proof.
  intros H. destruct (managedBubbleNeeded_key p r) as (_ & H2 & _).
  destruct (H2 H) as [Herr _].
  unfold managedBubbleMetadata, bind, ret.
  destruct (managedBubbleNeeded p r) as [[needed err] r1]; cbn [fst snd] in *.
  subst needed err. cbn [negb].
  destruct (bubbleBody p r1) as [res r2]; cbn [fst snd].
  by destruct (deferredCompletion p r2).
Qed.


(** The deferred completion when another task asked for the path during
    the run, so that the entry is [bubblePending]: the entry goes back to
    [bubbleInit], a new run on the path is started, and the parent is
    scheduled under the same condition. *)
Lemma deferredCompletion_pending p r :
  bubbleUpdates r !! SiaPath_String p = Some bubblePending ->
  let m := <[SiaPath_String p := bubbleInit]> (bubbleUpdates r) in
  let saved := saveBubbleUpdates m (world r) in
  snd (deferredCompletion p r) =
  with_trace (with_world (with_bubbleUpdates r m) (snd saved))
    (trace r ++ CallSave m :: CallGo p ::
       (if parentScheduled (fst saved) p
        then [CallGo (fst (SiaPath_Dir p))] else []))%list.
Proof.
  intros H m saved. subst m saved.
  unfold deferredCompletion, bind, ret, parentScheduled.
  rewrite managedCompleteBubbleUpdate_unfold, H. cbn zeta.
  destruct (saveBubbleUpdates _ _) as [[e|] w]; cbn [fst snd liftErr fmap
    option_fmap option_map]; [done|].
  destruct (SiaPath_IsRoot p); cbn [negb andb]; [done|].
  destruct (SiaPath_Dir p) as [parentDir [e|]]; cbn [fst snd]; [done|].
  unfold go_threadedBubbleMetadata, emit, with_trace, with_world,
    with_bubbleUpdates. cbn. by rewrite <- app_assoc.
Qed.


(** The deferred completion leaves the signal channels as they are. *)
Lemma deferredCompletion_signals p r :
  repairNeeded (snd (deferredCompletion p r)) = repairNeeded r
  /\ stuckChunkFound (snd (deferredCompletion p r)) = stuckChunkFound r.
Proof.
  unfold deferredCompletion, bind, ret.
  rewrite managedCompleteBubbleUpdate_unfold.
  destruct (bubbleUpdates r !! SiaPath_String p) as [[]|]; cbn zeta;
    repeat match goal with
           | |- context [saveBubbleUpdates ?m ?w] =>
               destruct (saveBubbleUpdates m w) as [[?|] ?]
           | |- context [SiaPath_IsRoot p] => destruct (SiaPath_IsRoot p)
           | |- context [SiaPath_Dir p] =>
               destruct (SiaPath_Dir p) as [? [?|]]
           end; cbn; done.
Qed.


(** *** The driver *)


(** The state in which the body of an admitted driver starts. *)
Lemma managedBubbleNeeded_admitted p r :
  fst (fst (managedBubbleNeeded p r)) = true ->
  snd (managedBubbleNeeded p r)
  = with_bubbleUpdates r
      (<[SiaPath_String p := bubbleActive]> (bubbleUpdates r)).
Proof.
  rewrite managedBubbleNeeded_unfold.
  by destruct (bubbleUpdates r !! SiaPath_String p) as [[]|].
Qed.


Lemma updateDirectoryMetadata_opens p md r :
  (exists t, trace (snd (updateDirectoryMetadata p md r))
             = (trace r ++ CallDirOpen p :: t)%list)
  /\ (fst (fst (updateDirectoryMetadata p md r)) = None
      \/ exists e context,
           fst (fst (updateDirectoryMetadata p md r))
           = Some (errors_AddContext (errOS e) context)).
Proof.
  unfold updateDirectoryMetadata, bind, ret, gets, ask, emit. cbn.
  destruct (staticDirSet_Open p (world r)) as [[d [e|]] w]; cbn.
  - split; [by exists []|]. right. eauto.
  - destruct (siaDir_UpdateMetadata d md w) as [[e|] w']; cbn.
    + split; [|right; eauto].
      exists [CallUpdateMetadata d md]. by rewrite <- app_assoc.
    + split; [|by left].
      exists [CallUpdateMetadata d md]. by rewrite <- app_assoc.
Qed.

(** C1, amended. When [managedBubbleNeeded] admitted the run: an error of
    the calculation is returned at once with the directory as context,
    the driver going from the calculation straight to its deferred
    completion, so that the directory record is not opened and no signal
    is sent; after a calculation without error the record is opened, an
    error of opening or writing it is kept with its context and returned
    at the end, and whether or not there is one, the two signals are sent
    at the root according to the metadata that was calculated. *)
Theorem calculation_error_returns_at_once p r :
  fst (fst (managedBubbleNeeded p r)) = true ->
  let c :=
    managedCalculateDirectoryMetadata p (snd (managedBubbleNeeded p r)) in
  let md := fst (fst c) in
  let u := updateDirectoryMetadata p md (snd c) in
  (forall e,
     snd (fst c) = Some e ->
     fst (managedBubbleMetadata p r)
     = Some (errors_AddContext e
               ("could not calculate the metadata of directory "
                  +:+ SiaPath_SiaDirSysPath p (staticFilesDir r)))
     /\ snd (managedBubbleMetadata p r) = snd (deferredCompletion p (snd c))
     /\ repairNeeded (snd (managedBubbleMetadata p r)) = repairNeeded r
     /\ stuckChunkFound (snd (managedBubbleMetadata p r))
        = stuckChunkFound r)
  /\ (snd (fst c) = None ->
      fst (managedBubbleMetadata p r) = fst (fst u)
      /\ (exists t,
            trace (snd u) = (trace (snd c) ++ CallDirOpen p :: t)%list)
      /\ (fst (fst u) = None
          \/ exists e context,
               fst (fst u) = Some (errors_AddContext (errOS e) context))
      /\ repairNeeded (snd (managedBubbleMetadata p r))
         = afterSend (SiaPath_IsRoot p
                      && fge (AggregateHealth md)
                           RemoteRepairDownloadThreshold)
             (repairNeeded r)
      /\ stuckChunkFound (snd (managedBubbleMetadata p r))
         = afterSend (SiaPath_IsRoot p && (0 <? NumStuckChunks md))
             (stuckChunkFound r)).
Proof.
  intros Hadm c md u.
  rewrite (managedBubbleMetadata_admitted p r Hadm), bubbleBody_unfold.
  pose proof (managedBubbleNeeded_admitted p r Hadm) as Hra.
  destruct (calm_managedCalculateDirectoryMetadata p
              (snd (managedBubbleNeeded p r)))
    as (_ & A2 & A3 & A4 & _).
  fold c in A2, A3, A4 |- *. cbn zeta. fold md. fold u.
  rewrite Hra in A2, A3, A4. cbn in A2, A3, A4.
  split.
  - intros e He. rewrite He. cbn [fst snd].
    destruct (deferredCompletion_signals p (snd c)) as [D1 D2].
    rewrite D1, D2, A2, A3, A4. done.
  - intros He. rewrite He. cbn [fst snd].
    destruct (updateDirectoryMetadata_opens p md (snd c)) as [Ho Hctx].
    destruct (calm_updateDirectoryMetadata p md (snd c))
      as (_ & B2 & B3 & _).
    fold u in Ho, Hctx, B2, B3.
    destruct (signalRepairLoops_spec p md (snd u))
      as (_ & _ & _ & _ & S5 & S6).
    set (r3 := snd (signalRepairLoops p md (snd u))) in *.
    destruct (calm_closeDirectory (snd (fst u)) r3) as (_ & C2 & C3 & _).
    set (r4 := snd (closeDirectory (snd (fst u)) r3)) in *.
    destruct (deferredCompletion_signals p r4) as [D1 D2].
    rewrite D1, D2, C2, C3, S5, S6, B2, B3, A2, A3. done.
Qed.


(** * Further properties of the probe, the subdirectory read and the driver *)

(** *** The calls a computation makes *)

Lemma emitsOnly_ret ok {A : Type} (a : A) : emitsOnly ok (ret a).
Proof. intros r. exists []. cbn. by rewrite app_nil_r. Qed.

Lemma emitsOnly_gets ok {A : Type} (f : Renter -> A) : emitsOnly ok (gets f).
Proof. intros r. exists []. cbn. by rewrite app_nil_r. Qed.

Lemma emitsOnly_ask ok {A : Type} (op : W -> A * W) : emitsOnly ok (ask op).
Proof.
  intros r. exists []. unfold ask. destruct (op (world r)). cbn.
  by rewrite app_nil_r.
Qed.

Lemma emitsOnly_putBubbleUpdates ok (bu : gmap string bubbleStatus) :
  emitsOnly ok (putBubbleUpdates bu).
Proof. intros r. exists []. cbn. by rewrite app_nil_r. Qed.

Lemma emitsOnly_emit (ok : Call -> bool) ev :
  ok ev = true -> emitsOnly ok (emit ev).
Proof. intros H r. exists [ev]. cbn. split; [done|]. by constructor. Qed.

Lemma emitsOnly_bind ok {A B : Type} (c : M A) (k : A -> M B) :
  emitsOnly ok c -> (forall a, emitsOnly ok (k a)) -> emitsOnly ok (bind c k).
Proof.
  intros Hc Hk r. unfold bind.
  destruct (Hc r) as (t1 & Ht1 & Hf1).
  destruct (c r) as [a r1]. cbn [snd] in *.
  destruct (Hk a r1) as (t2 & Ht2 & Hf2).
  exists (t1 ++ t2)%list. rewrite Ht2, Ht1, app_assoc. split; [done|].
  by apply Forall_app.
Qed.

Lemma emitsOnly_weaken (ok ok' : Call -> bool) {A : Type} (c : M A) :
  (forall ev, ok ev = true -> ok' ev = true) ->
  emitsOnly ok c -> emitsOnly ok' c.
Proof.
  intros Himp Hc r. destruct (Hc r) as (t & Ht & Hf).
  exists t. split; [done|]. eapply Forall_impl; [exact Hf|]. apply Himp.
Qed.

Ltac emits_step :=
  first
    [ apply emitsOnly_ret
    | apply emitsOnly_gets
    | apply emitsOnly_ask
    | apply emitsOnly_putBubbleUpdates
    | apply emitsOnly_emit; reflexivity
    | apply emitsOnly_bind; [|intros ?]
    | assumption
    | match goal with
      | |- emitsOnly _ (match ?x with _ => _ end) => destruct x
      end ].

Ltac emits_tac := repeat emits_step.

(** *** Running a computation step by step *)

Lemma run_bind {A B : Type} (c : M A) (k : A -> M B) r :
  bind c k r = k (fst (c r)) (snd (c r)).
Proof. unfold bind. by destruct (c r). Qed.

Lemma run_emit ev r : emit ev r = (tt, with_trace r (trace r ++ [ev])%list).
Proof. done. Qed.

Lemma run_ask {A : Type} (op : W -> A * W) r :
  ask op r = (fst (op (world r)), with_world r (snd (op (world r)))).
Proof. unfold ask. by destruct (op (world r)). Qed.

(** *** The probe *)

(** Between the opening of the file and its closing the probe opens and
    closes nothing. *)
Lemma probe_between_open_and_close f :
  emitsOnly (fun ev => negb (isFileOpenClose ev))
    (maps <- ask (managedRenterContractsAndUtilities [f]) ;;
     let '(hostOfflineMap, hostGoodForRenewMap) := maps in
     emit (CallMarkAllHealthyChunksAsUnstuck f) ;;;
     err <- ask (sf_MarkAllHealthyChunksAsUnstuck f hostOfflineMap
                   hostGoodForRenewMap) ;;
     match err with
     | Some e =>
         ret (BubbledMetadata_zero,
              Some (errors_AddContext (errOS e)
                      "unable to mark healthy chunks as unstuck"))
     | None =>
         h <- ask (sf_Health f hostOfflineMap hostGoodForRenewMap) ;;
         let '(health, stuckHealth, numStuckChunks) := h in
         emit (CallUpdateLastHealthCheckTime f) ;;;
         err <- ask (sf_UpdateLastHealthCheckTime f) ;;
         match err with
         | Some e => ret (BubbledMetadata_zero, Some (errOS e))
         | None =>
             redundancy <-
               ask (sf_Redundancy f hostOfflineMap hostGoodForRenewMap) ;;
             localPath <- ask (sf_LocalPath f) ;;
             emit (CallStat localPath) ;;;
             st <- ask (os_Stat localPath) ;;
             (if os_IsNotExist (liftErr (snd st))
                 && flt redundancy float64_one
              then
                lp <- ask (sf_LocalPath f) ;;
                log ("File not found on disk and possibly unrecoverable: "
                       +:+ lp)
              else ret tt) ;;;
             let metadata := {| cHealth := health;
                                cRedundancy := redundancy;
                                cStuckHealth := stuckHealth |} in
             lastHealthCheckTime <- ask (sf_LastHealthCheckTime f) ;;
             modTime <- ask (sf_ModTime f) ;;
             size <- ask (sf_Size f) ;;
             emit (CallUpdateCachedHealthMetadata f metadata) ;;;
             err <- ask (sf_UpdateCachedHealthMetadata f metadata) ;;
             ret ({| bHealth := health;
                     bLastHealthCheckTime := lastHealthCheckTime;
                     bModTime := modTime;
                     bNumStuckChunks := numStuckChunks;
                     bRedundancy := redundancy;
                     bSize := size;
                     bStuckHealth := stuckHealth |}, liftErr err)
         end
     end).
Proof. unfold log. emits_tac. Qed.

(** X7. The probe closes the file entry exactly when it opened it: when
    [Open] fails the probe returns that error at once and makes no other
    call; when [Open] succeeds the last call of the probe, on every path
    through it, is the [Close] of the entry, and it opens or closes
    nothing in between. *)
Theorem probe_closes_what_it_opens p r :
  let o := staticFileSet_Open p (world r) in
  match snd (fst o) with
  | Some e =>
      managedCalculateAndUpdateFileMetadata p r
      = ((BubbledMetadata_zero, Some (errOS e)),
         with_world (with_trace r (trace r ++ [CallFileOpen p])%list)
           (snd o))
  | None =>
      exists t,
        trace (snd (managedCalculateAndUpdateFileMetadata p r))
        = (trace r ++ CallFileOpen p :: t
             ++ [CallFileClose (fst (fst o))])%list
        /\ Forall (fun ev => isFileOpenClose ev = false) t
  end.
Proof.
  cbn zeta. unfold managedCalculateAndUpdateFileMetadata.
  rewrite run_bind, run_emit. cbn [fst snd].
  rewrite run_bind, run_ask. cbn [fst snd world with_trace].
  destruct (staticFileSet_Open p (world r)) as [[f [e|]] w]; cbn [fst snd];
    [done|].
  set (st := with_world (with_trace r (trace r ++ [CallFileOpen p])) w).
  rewrite run_bind.
  match goal with
  | |- context [snd (?body st)] =>
      assert (exists t,
                trace (snd (body st)) = (trace st ++ t)%list
                /\ Forall (fun ev => negb (isFileOpenClose ev) = true) t)
        as (t & Ht & Hf) by exact (probe_between_open_and_close f st);
      destruct (body st) as [res r1]
  end.
  subst st. cbn [fst snd trace with_world with_trace] in Ht |- *.
  rewrite run_bind, run_emit. cbn [fst snd].
  rewrite run_bind, run_ask. cbn [fst snd ret trace with_world with_trace].
  exists t. rewrite Ht, <- !app_assoc. split; [done|].
  eapply Forall_impl; [exact Hf|].
  intros ev. cbn beta. destruct (isFileOpenClose ev); cbn; congruence.
Qed.


(** X8. What the probe caches is what it returns: either the probe
    fails before the health numbers are cached, and then it returns
    [siafile.BubbledMetadata{}] with an error and caches nothing; or its
    last two calls are [UpdateCachedHealthMetadata], with the health,
    redundancy and stuck health of the metadata it returns, and the
    [Close] of the entry. *)
Theorem probe_caches_what_it_returns p r :
  let res := managedCalculateAndUpdateFileMetadata p r in
  (fst (fst res) = BubbledMetadata_zero
   /\ snd (fst res) <> None
   /\ exists t, trace (snd res) = (trace r ++ t)%list
                /\ Forall (fun ev => isUpdateCached ev = false) t)
  \/ (exists f t,
        trace (snd res)
        = (trace r ++ t
             ++ [CallUpdateCachedHealthMetadata f (cachedOf (fst (fst res)));
                 CallFileClose f])%list
        /\ Forall (fun ev => isUpdateCached ev = false) t).
Proof.
  cbn zeta.
  unfold managedCalculateAndUpdateFileMetadata, log, bind, emit, ask, ret.
  cbn [fst snd world trace with_trace with_world].
  destruct (staticFileSet_Open p (world r)) as [[f [e|]] w]; cbn.
  { left. split; [done|]. split; [done|]. eexists. split; [done|].
    by repeat constructor. }
  destruct (managedRenterContractsAndUtilities [f] w) as [[off good] w1].
  cbn.
  destruct (sf_MarkAllHealthyChunksAsUnstuck f off good w1) as [[e|] w2];
    cbn.
  { destruct (sf_Close f w2) as [ec w3]; cbn.
    left. split; [done|]. split; [done|].
    rewrite <- !app_assoc. cbn. eexists. split; [done|].
    by repeat constructor. }
  destruct (sf_Health f off good w2) as [[[health stuckHealth] n] w3]. cbn.
  destruct (sf_UpdateLastHealthCheckTime f w3) as [[e|] w4]; cbn.
  { destruct (sf_Close f w4) as [ec w5]; cbn.
    left. split; [done|]. split; [done|].
    rewrite <- !app_assoc. cbn. eexists. split; [done|].
    by repeat constructor. }
  destruct (sf_Redundancy f off good w4) as [redundancy w5]. cbn.
  destruct (sf_LocalPath f w5) as [localPath w6]. cbn.
  destruct (os_Stat localPath w6) as [[fi est] w7]. cbn.
  right. exists f.
  match goal with
  | |- context [if ?b then _ else _] => destruct b
  end; cbn.
  - destruct (sf_LocalPath f w7) as [lp w8]. cbn.
    destruct (sf_LastHealthCheckTime f w8) as [lh w9]. cbn.
    destruct (sf_ModTime f w9) as [mt w10]. cbn.
    destruct (sf_Size f w10) as [size w11]. cbn.
    match goal with
    | |- context [sf_UpdateCachedHealthMetadata f ?c w11] =>
        destruct (sf_UpdateCachedHealthMetadata f c w11) as [eu w12]
    end.
    cbn. destruct (sf_Close f w12) as [ec w13]. cbn.
    exists [CallFileOpen p; CallMarkAllHealthyChunksAsUnstuck f;
            CallUpdateLastHealthCheckTime f; CallStat localPath;
            CallLog ("File not found on disk and possibly unrecoverable: "
                       +:+ lp)].
    rewrite <- !app_assoc. cbn. split; [done|]. by repeat constructor.
  - destruct (sf_LastHealthCheckTime f w7) as [lh w9]. cbn.
    destruct (sf_ModTime f w9) as [mt w10]. cbn.
    destruct (sf_Size f w10) as [size w11]. cbn.
    match goal with
    | |- context [sf_UpdateCachedHealthMetadata f ?c w11] =>
        destruct (sf_UpdateCachedHealthMetadata f c w11) as [eu w12]
    end.
    cbn. destruct (sf_Close f w12) as [ec w13]. cbn.
    exists [CallFileOpen p; CallMarkAllHealthyChunksAsUnstuck f;
            CallUpdateLastHealthCheckTime f; CallStat localPath].
    rewrite <- !app_assoc. cbn. split; [done|]. by repeat constructor.
Qed.


(** *** The subdirectory read *)

(** X9. [managedDirectoryMetadata] returns no error exactly when the path
    is a directory whose record [Open] opens; it then returns the
    metadata of that record, having made three calls: [Stat], [Open] and
    the [Close] of the entry.  In particular it fails whenever the record
    was absent, also when it has created it. *)
Theorem directory_read_succeeds_iff_record_opens p r :
  let sys := SiaPath_SiaDirSysPath p (staticFilesDir r) in
  let st := os_Stat sys (world r) in
  let o := staticDirSet_Open p (snd st) in
  let res := managedDirectoryMetadata p r in
  (snd (fst res) = None <->
   snd (fst st) = None /\ IsDir (fst (fst st)) = true /\ snd (fst o) = None)
  /\ (snd (fst res) = None ->
      fst (fst res) = fst (siaDir_Metadata (fst (fst o)) (snd o))
      /\ trace (snd res)
         = (trace r ++ [CallStat sys; CallDirOpen p;
                        CallDirClose (fst (fst o))])%list).
Proof.
  cbn zeta.
  unfold managedDirectoryMetadata, bind, gets, emit, ask, ret.
  cbn [fst snd world trace staticFilesDir with_trace with_world].
  destruct (os_Stat _ (world r)) as [[fi [e|]] w1]; cbn.
  { split; [|done]. split; [done|]. by intros [? _]. }
  destruct (IsDir fi); cbn.
  2:{ split; [|done]. split; [done|]. by intros (_ & ? & _). }
  destruct (staticDirSet_Open p w1) as [[d [e|]] w2]; cbn.
  - destruct (notExist e); cbn.
    + destruct (ioutil_ReadDir _ w2) as [[fis [er|]] w3]; cbn.
      * split; [|done]. split; [done|]. by intros (_ & _ & ?).
      * destruct ((length fis =? 0)%nat && negb (SiaPath_IsRoot p)); cbn.
        -- split; [|done]. split; [done|]. by intros (_ & _ & ?).
        -- destruct (staticDirSet_NewSiaDir p w3) as [[d' e'] w4]. cbn.
           split; [|done]. split; [done|]. by intros (_ & _ & ?).
    + split; [|done]. split; [done|]. by intros (_ & _ & ?).
  - destruct (siaDir_Metadata d w2) as [md w3]. cbn.
    destruct (siaDir_Close d w3) as [ec w4]. cbn.
    split; [done|]. intros _. split; [done|].
    by rewrite <- !app_assoc.
Qed.

(** X10. [managedDirectoryMetadata] calls [NewSiaDir] exactly when the
    path is a directory whose record [Open] reports absent, the directory
    could be read and it has entries or is the root.  It then makes the
    four calls [Stat], [Open], [ReadDir], [NewSiaDir] and returns
    [siadir.Metadata{}] with the error of [Open]; in every other case it
    does not call [NewSiaDir]. *)
Theorem record_created_exactly_when_absent_and_in_use p r :
  let sys := SiaPath_SiaDirSysPath p (staticFilesDir r) in
  let o := staticDirSet_Open p (snd (os_Stat sys (world r))) in
  let res := managedDirectoryMetadata p r in
  if recordCreated p r
  then fst res = (Metadata_zero, liftErr (snd (fst o)))
       /\ snd (fst res) <> None
       /\ trace (snd res)
          = (trace r ++ [CallStat sys; CallDirOpen p; CallReadDir sys;
                         CallNewSiaDir p])%list
  else exists t, trace (snd res) = (trace r ++ t)%list
                 /\ Forall (fun ev => isNewSiaDir ev = false) t.
Proof.
  cbn zeta.
  unfold recordCreated, managedDirectoryMetadata, bind, gets, emit, ask, ret.
  cbn [fst snd world trace staticFilesDir with_trace with_world].
  destruct (os_Stat _ (world r)) as [[fi [e|]] w1]; cbn.
  { eexists. split; [done|]. by repeat constructor. }
  destruct (IsDir fi); cbn.
  2:{ eexists. split; [done|]. by repeat constructor. }
  destruct (staticDirSet_Open p w1) as [[d [e|]] w2]; cbn.
  - destruct (notExist e); cbn.
    + destruct (ioutil_ReadDir _ w2) as [[fis [er|]] w3]; cbn.
      * rewrite <- !app_assoc. cbn.
        eexists. split; [done|]. by repeat constructor.
      * destruct ((length fis =? 0)%nat && negb (SiaPath_IsRoot p)); cbn.
        -- rewrite <- !app_assoc. cbn.
           eexists. split; [done|]. by repeat constructor.
        -- destruct (staticDirSet_NewSiaDir p w3) as [[d' e'] w4]. cbn.
           rewrite <- !app_assoc. by cbn.
    + rewrite <- !app_assoc. cbn.
      eexists. split; [done|]. by repeat constructor.
  - destruct (siaDir_Metadata d w2) as [md w3]. cbn.
    destruct (siaDir_Close d w3) as [ec w4]. cbn.
    rewrite <- !app_assoc. cbn.
    eexists. split; [done|]. by repeat constructor.
Qed.

(** *** The calculator writes no directory *)

Lemma emitsOnly_log ok line :
  ok (CallLog line) = true -> emitsOnly ok (log line).
Proof. intros H. by apply emitsOnly_emit. Qed.

Lemma calculator_calls_probe p :
  emitsOnly isCalculatorCall (managedCalculateAndUpdateFileMetadata p).
Proof.
  unfold managedCalculateAndUpdateFileMetadata, log. emits_tac.
Qed.

Lemma calculator_calls_managedDirectoryMetadata p :
  emitsOnly isCalculatorCall (managedDirectoryMetadata p).
Proof. unfold managedDirectoryMetadata. emits_tac. Qed.

Lemma calculator_calls_calculateEntry p err fi m :
  emitsOnly isCalculatorCall (calculateEntry p err fi m).
Proof.
  unfold calculateEntry, stopped, log.
  emits_tac;
    first [ apply calculator_calls_probe
          | apply calculator_calls_managedDirectoryMetadata ].
Qed.

Lemma calculator_calls_calculateEntries p err fis : forall m,
  emitsOnly isCalculatorCall (calculateEntries p err fis m).
Proof.
  induction fis as [|fi rest IH]; intros m; cbn [calculateEntries].
  - apply emitsOnly_ret.
  - apply emitsOnly_bind; [apply calculator_calls_calculateEntry|].
    intros [res|m']; [apply emitsOnly_ret|apply IH].
Qed.

Lemma calculator_calls p :
  emitsOnly isCalculatorCall (managedCalculateDirectoryMetadata p).
Proof.
  unfold managedCalculateDirectoryMetadata, startCalculation,
    finishCalculation, log.
  emits_tac; apply calculator_calls_calculateEntries.
Qed.



(** *** The calls of the driver *)

Lemma emitsOnly_trySend sig : emitsOnly isSend (trySend sig).
Proof.
  intros r. destruct (trySend_spec sig r) as (_ & _ & _ & [sent Ht] & _).
  exists [CallSend sig sent]. split; [done|]. by repeat constructor.
Qed.

Lemma emitsOnly_signalRepairLoops p md :
  emitsOnly isSend (signalRepairLoops p md).
Proof.
  unfold signalRepairLoops. emits_tac; apply emitsOnly_trySend.
Qed.

Lemma driver_calls p : emitsOnly notAddOrDone (managedBubbleMetadata p).
Proof.
  assert (emitsOnly notAddOrDone (managedCalculateDirectoryMetadata p))
    as Hcalc.
  { eapply emitsOnly_weaken; [|apply calculator_calls].
    intros ev. by destruct ev. }
  assert (forall md, emitsOnly notAddOrDone (signalRepairLoops p md))
    as Hsig.
  { intros md. eapply emitsOnly_weaken; [|apply emitsOnly_signalRepairLoops].
    intros ev. by destruct ev. }
  unfold managedBubbleMetadata, managedBubbleNeeded, bubbleBody,
    deferredCompletion, managedCompleteBubbleUpdate, r_saveBubbleUpdates,
    go_threadedBubbleMetadata, storeStatus, deleteStatus,
    updateDirectoryMetadata, closeDirectory.
  repeat first [ apply Hcalc | apply Hsig | emits_step ].
Qed.

(** X12. [threadedBubbleMetadata] pairs [r.tg.Add()] with
    [r.tg.Done()]: when [Add] fails it makes no other call and changes
    nothing else; when it succeeds the driver runs and the last call,
    whatever the driver did or returned, is [Done], with no other [Add]
    or [Done] between the two.  (The calculation polls
    [r.tg.StopChan()] in between.) *)
Theorem threaded_bubble_balances_thread_group p r :
  let a := tg_Add (world r) in
  match fst a with
  | Some _ =>
      snd (threadedBubbleMetadata p r)
      = with_world (with_trace r (trace r ++ [CallTgAdd])%list) (snd a)
  | None =>
      exists t,
        trace (snd (threadedBubbleMetadata p r))
        = (trace r ++ CallTgAdd :: t ++ [CallTgDone])%list
        /\ Forall (fun ev => isAddOrDone ev = false) t
  end.
Proof.
  cbn zeta. unfold threadedBubbleMetadata.
  rewrite run_bind, run_emit. cbn [fst snd].
  rewrite run_bind, run_ask. cbn [fst snd world with_trace].
  destruct (tg_Add (world r)) as [[e|] w]; cbn [fst snd]; [done|].
  set (st := with_world (with_trace r (trace r ++ [CallTgAdd])) w).
  rewrite run_bind.
  destruct (driver_calls p st) as (t & Ht & Hf).
  destruct (managedBubbleMetadata p st) as [err r1].
  subst st. cbn [fst snd trace with_trace with_world] in Ht |- *.
  assert (Forall (fun ev => isAddOrDone ev = false) t) as Hf'.
  { eapply Forall_impl; [exact Hf|]. intros ev. unfold notAddOrDone.
    by destruct (isAddOrDone ev). }
  rewrite run_bind.
  destruct err as [e|]; unfold log.
  - rewrite run_emit. cbn [fst snd].
    rewrite run_bind, run_emit. cbn [fst snd].
    rewrite run_bind, run_ask.
    cbn [fst snd ret trace with_trace with_world].
    exists (t ++ [CallLog "WARN: error with bubbling metadata"])%list.
    rewrite Ht, <- !app_assoc. split; [done|].
    apply Forall_app. split; [done|]. by repeat constructor.
  - cbn [ret fst snd].
    rewrite run_bind, run_emit. cbn [fst snd].
    rewrite run_bind, run_ask.
    cbn [fst snd ret trace with_trace with_world].
    exists t. by rewrite Ht, <- !app_assoc.
Qed.

(** X13. A driver that finds a bubble of the path in flight does
    nothing: [managedBubbleMetadata] returns [nil], makes no call, leaves
    the world and the signal channels as they are, and leaves the entry
    [bubblePending]. *)
Theorem coalesced_driver_does_nothing p r :
  inFlight (bubbleUpdates r !! SiaPath_String p) ->
  fst (managedBubbleMetadata p r) = None
  /\ bubbleUpdates (snd (managedBubbleMetadata p r))
     = <[SiaPath_String p := bubblePending]> (bubbleUpdates r)
  /\ world (snd (managedBubbleMetadata p r)) = world r
  /\ trace (snd (managedBubbleMetadata p r)) = trace r
  /\ repairNeeded (snd (managedBubbleMetadata p r)) = repairNeeded r
  /\ stuckChunkFound (snd (managedBubbleMetadata p r)) = stuckChunkFound r.
Proof.
  intros Hfl. unfold managedBubbleMetadata, bind, ret.
  rewrite managedBubbleNeeded_unfold.
  destruct Hfl as [H|H]; rewrite H; cbn; [done|].
  by rewrite (insert_id _ _ _ H).
Qed.

(** *** The signal channels *)

Lemma afterSend_within_capacity send queued :
  (queued <= signalCapacity)%nat ->
  (afterSend send queued <= signalCapacity)%nat.
Proof.
  unfold afterSend, signalCapacity. intros H.
  destruct send; cbn [andb]; [|done].
  destruct (Nat.ltb_spec queued 1); lia.
Qed.

(** The two channels after any run of the driver. *)
Lemma managedBubbleMetadata_signals p r :
  exists send1 send2,
    repairNeeded (snd (managedBubbleMetadata p r))
    = afterSend send1 (repairNeeded r)
    /\ stuckChunkFound (snd (managedBubbleMetadata p r))
       = afterSend send2 (stuckChunkFound r)
    /\ (SiaPath_IsRoot p = false -> send1 = false /\ send2 = false).
Proof.
  destruct (fst (fst (managedBubbleNeeded p r))) eqn:Hadm.
  - rewrite (managedBubbleMetadata_admitted p r Hadm), bubbleBody_unfold.
    pose proof (managedBubbleNeeded_admitted p r Hadm) as Hra.
    destruct (calm_managedCalculateDirectoryMetadata p
                (snd (managedBubbleNeeded p r)))
      as (_ & A2 & A3 & _).
    assert (repairNeeded (snd (managedBubbleNeeded p r)) = repairNeeded r
            /\ stuckChunkFound (snd (managedBubbleNeeded p r))
               = stuckChunkFound r) as [N2 N3] by (by rewrite Hra).
    rewrite N2 in A2. rewrite N3 in A3. cbn zeta.
    set (c := managedCalculateDirectoryMetadata p
                (snd (managedBubbleNeeded p r))) in *.
    destruct (snd (fst c)) as [e|]; cbn [fst snd].
    + destruct (deferredCompletion_signals p (snd c)) as [D1 D2].
      exists false, false. rewrite D1, D2, A2, A3. done.
    + destruct (calm_updateDirectoryMetadata p (fst (fst c)) (snd c))
        as (_ & B2 & B3 & _).
      set (u := updateDirectoryMetadata p (fst (fst c)) (snd c)) in *.
      destruct (signalRepairLoops_spec p (fst (fst c)) (snd u))
        as (_ & _ & _ & _ & S5 & S6).
      set (r3 := snd (signalRepairLoops p (fst (fst c)) (snd u))) in *.
      destruct (calm_closeDirectory (snd (fst u)) r3) as (_ & C2 & C3 & _).
      set (r4 := snd (closeDirectory (snd (fst u)) r3)) in *.
      destruct (deferredCompletion_signals p r4) as [D1 D2].
      eexists _, _. rewrite D1, D2, C2, C3, S5, S6, B2, B3, A2, A3.
      split; [done|]. split; [done|]. by intros ->.
  - exists false, false.
    unfold managedBubbleMetadata, bind, ret.
    rewrite managedBubbleNeeded_unfold in Hadm |- *.
    destruct (bubbleUpdates r !! SiaPath_String p) as [[]|]; cbn in *;
      done.
Qed.

(** X14. The signals of the driver: a run of [managedBubbleMetadata]
    never leaves more units on a signal channel than its capacity, and a
    run on a path that is not the root leaves both channels as they
    are. *)
Theorem signal_channels_within_capacity p r :
  ((repairNeeded r <= signalCapacity)%nat ->
   (repairNeeded (snd (managedBubbleMetadata p r)) <= signalCapacity)%nat)
  /\ ((stuckChunkFound r <= signalCapacity)%nat ->
      (stuckChunkFound (snd (managedBubbleMetadata p r))
       <= signalCapacity)%nat)
  /\ (SiaPath_IsRoot p = false ->
      repairNeeded (snd (managedBubbleMetadata p r)) = repairNeeded r
      /\ stuckChunkFound (snd (managedBubbleMetadata p r))
         = stuckChunkFound r).
Proof.
  destruct (managedBubbleMetadata_signals p r) as (s1 & s2 & -> & -> & Hr).
  split; [apply afterSend_within_capacity|].
  split; [apply afterSend_within_capacity|].
  intros Hroot. by destruct (Hr Hroot) as [-> ->].
Qed.


(** *** What the driver writes *)

Lemma updateDirectoryMetadata_opened p md r d w :
  staticDirSet_Open p (world r) = ((d, None), w) ->
  let written := siaDir_UpdateMetadata d md w in
  updateDirectoryMetadata p md r
  = ((match fst written with
      | Some e =>
          Some (errors_AddContext (errOS e)
                  ("could not update the metadata of the  directory "
                     +:+ SiaPath_SiaDirSysPath p (staticFilesDir r)))
      | None => None
      end, Some d),
     with_world
       (with_trace r (trace r ++ [CallDirOpen p; CallUpdateMetadata d md]))
       (snd written)).
Proof.
  intros Ho. unfold updateDirectoryMetadata, bind, ret, gets, ask, emit.
  cbn [fst snd world trace staticFilesDir with_trace with_world].
  rewrite Ho.
  cbn [fst snd world trace staticFilesDir with_trace with_world].
  destruct (siaDir_UpdateMetadata d md w) as [[e|] w'];
    unfold with_world, with_trace; cbn; by rewrite <- app_assoc.
Qed.

Lemma closeDirectory_opened d r :
  snd (closeDirectory (Some d) r)
  = with_world (with_trace r (trace r ++ [CallDirClose d]))
      (snd (siaDir_Close d (world r))).
Proof.
  unfold closeDirectory, bind, ret, ask, emit.
  cbn [fst snd world trace with_trace with_world].
  by destruct (siaDir_Close d (world r)).
Qed.

(** The body of the driver after a calculation without error, when the
    record of the directory opens. *)
Lemma bubbleBody_after_calculation p r md rc d w :
  managedCalculateDirectoryMetadata p r = ((md, None), rc) ->
  staticDirSet_Open p (world rc) = ((d, None), w) ->
  let written := siaDir_UpdateMetadata d md w in
  (exists sends,
     trace (snd (bubbleBody p r))
     = (trace rc ++ [CallDirOpen p; CallUpdateMetadata d md]
          ++ sends ++ [CallDirClose d])%list
     /\ Forall (fun ev => isSend ev = true) sends)
  /\ bubbleUpdates (snd (bubbleBody p r)) = bubbleUpdates rc
  /\ fst (bubbleBody p r)
     = match fst written with
       | Some e =>
           Some (errors_AddContext (errOS e)
                   ("could not update the metadata of the  directory "
                      +:+ SiaPath_SiaDirSysPath p (staticFilesDir rc)))
       | None => None
       end.
Proof.
  intros Hc Ho written. subst written.
  rewrite bubbleBody_unfold, Hc. cbn [fst snd].
  rewrite (updateDirectoryMetadata_opened p md rc d w Ho). cbn [fst snd].
  set (r2 := with_world _ _).
  destruct (emitsOnly_signalRepairLoops p md r2) as (sends & Hs & Hf).
  destruct (signalRepairLoops_spec p md r2) as (Hbu & _).
  rewrite closeDirectory_opened.
  cbn [trace bubbleUpdates with_world with_trace].
  rewrite Hs, Hbu. subst r2.
  cbn [trace bubbleUpdates with_world with_trace].
  split; [|done]. exists sends. by rewrite <- !app_assoc.
Qed.


(** The calculation when the stop channel is found closed at the first
    entry. *)
Lemma calculation_stopped_at_first_entry p r m0 fi rest r1 :
  startCalculation p r = ((m0, fi :: rest, None), r1) ->
  fst (stopped r1) = true ->
  managedCalculateDirectoryMetadata p r
  = ((Metadata_zero, None), snd (stopped r1)).
Proof.
  intros Hs Hstop.
  rewrite managedCalculateDirectoryMetadata_unfold, Hs. cbn [fst snd].
  rewrite calculateEntries_cons. unfold calculateEntry, bind, ret.
  destruct (stopped r1) as [closed r2]. cbn in Hstop. subst closed. done.
Qed.

(** X16. A shutdown during the calculation makes the driver write
    [siadir.Metadata{}]: in an admitted run on a directory that has
    entries, when the stop channel is found closed at the first entry
    and the directory record opens, the driver calls [UpdateMetadata] on
    the entry with the zero metadata. *)
Theorem shutdown_writes_zero_metadata p r m0 fi rest r1 d w :
  fst (fst (managedBubbleNeeded p r)) = true ->
  startCalculation p (snd (managedBubbleNeeded p r))
  = ((m0, fi :: rest, None), r1) ->
  fst (stopped r1) = true ->
  staticDirSet_Open p (world (snd (stopped r1))) = ((d, None), w) ->
  In (CallUpdateMetadata d Metadata_zero)
    (trace (snd (managedBubbleMetadata p r))).
Proof.
  intros Hadm Hs Hstop Ho.
  rewrite (managedBubbleMetadata_admitted p r Hadm). cbn [snd].
  pose proof (calculation_stopped_at_first_entry p _ m0 fi rest r1 Hs Hstop)
    as Hc.
  destruct (bubbleBody_after_calculation p _ _ _ d w Hc Ho)
    as ((sends & Ht & _) & Hbu & _).
  set (body := bubbleBody p (snd (managedBubbleNeeded p r))) in *.
  assert (exists t, trace (snd (deferredCompletion p (snd body)))
                    = (trace (snd body) ++ t)%list) as [t Hd].
  { unfold deferredCompletion, managedCompleteBubbleUpdate,
      r_saveBubbleUpdates, go_threadedBubbleMetadata, storeStatus,
      deleteStatus.
    assert (emitsOnly (fun _ => true)
              (err <-
                 (let siaPathStr := SiaPath_String p in
                  m <- gets bubbleUpdates ;;
                  match m !! siaPathStr with
                  | Some bubbleError | Some bubbleInit =>
                      ret (Some errInvalidBubbleStatus)
                  | Some bubbleActive =>
                      (m0 <- gets bubbleUpdates ;;
                       putBubbleUpdates (delete siaPathStr m0)) ;;;
                      m0 <- gets bubbleUpdates ;;
                      emit (CallSave m0) ;;;
                      e <- ask (saveBubbleUpdates m0) ;; ret (liftErr e)
                  | Some bubblePending =>
                      (m0 <- gets bubbleUpdates ;;
                       putBubbleUpdates (<[siaPathStr:=bubbleInit]> m0)) ;;;
                      err <-
                        (m0 <- gets bubbleUpdates ;;
                         emit (CallSave m0) ;;;
                         e <- ask (saveBubbleUpdates m0) ;; ret (liftErr e)) ;;
                      emit (CallGo p) ;;; ret err
                  | None => ret None
                  end) ;;
               match err with
               | Some e =>
                   ret (Some (errors_AddContext e
                                "error in completing bubble"))
               | None =>
                   if SiaPath_IsRoot p then ret None
                   else
                     let '(parentDir, err0) := SiaPath_Dir p in
                     match err0 with
                     | Some e =>
                         ret (Some (errors_AddContext e
                                      "failed to defer threadedBubbleMetadata on parent dir"))
                     | None => emit (CallGo parentDir) ;;; ret None
                     end
               end)) as He by emits_tac.
    destruct (He (snd body)) as (t & Ht' & _). by exists t. }
  rewrite Hd, Ht. rewrite !in_app_iff. left. right. left. right. by left.
Qed.

End Engine.


(** * Properties of the contractor *)

Section ContractorProperties.

Context {chain : Chain}.

Implicit Types (c : Contractor) (arb prefix : list byte).

(** ** [hasFCIdentifier] *)

Lemma length_copy (dst src : list byte) : length (copy dst src) = length dst.
Proof.
  unfold copy. rewrite length_app, length_take, length_drop. lia.
Qed.

(** A second [copy] of as many bytes hides the first. *)
Lemma copy_copy (dst a b : list byte) :
  length a = length b -> copy (copy dst a) b = copy dst b.
Proof.
  intros Hab. unfold copy at 1 3. rewrite length_copy. f_equal.
  unfold copy. rewrite <- Hab.
  destruct (decide (length dst <= length a)%nat) as [Hle|Hgt].
  - rewrite (drop_ge dst) by lia. rewrite app_nil_r.
    apply drop_ge. rewrite length_take. lia.
  - rewrite take_ge by lia. by rewrite drop_app_length.
Qed.

Lemma copy_whole (dst src : list byte) :
  length dst = length src -> copy dst src = src.
Proof.
  intros H. unfold copy. rewrite H, take_ge, drop_ge by lia.
  apply app_nil_r.
Qed.

Lemma length_zeroBytes n : length (zeroBytes n) = n.
Proof. apply repeat_length. Qed.

(** Whatever entries were looked at before, the specifier that the loop
    compares is the one of the entry at hand. *)
Lemma hasFCIdentifier_loop_find prefix arbs :
  (forall arb, length arb = FCSignedIdentiferSize ->
               copy prefix arb = specifierOf arb) ->
  hasFCIdentifier_loop prefix arbs
  = match find isIdentifier arbs with
    | Some arb => (arb, true)
    | None => (zeroBytes FCSignedIdentiferSize, false)
    end.
Proof.
  revert prefix. induction arbs as [|arb arbs IH]; intros prefix Hp; [done|].
  cbn [hasFCIdentifier_loop find]. unfold isIdentifier at 1.
  destruct (Nat.eqb_spec (length arb) FCSignedIdentiferSize) as [Hlen|Hlen];
    cbn [negb andb]; [|by apply IH].
  rewrite (Hp arb Hlen).
  destruct (bytes_eqb (specifierOf arb) PrefixNonSia),
    (bytes_eqb (specifierOf arb) PrefixFileContractIdentifier);
    cbn [negb andb orb];
    try (by rewrite copy_whole by (by rewrite length_zeroBytes)).
  apply IH. intros arb' Hlen'. unfold specifierOf.
  apply copy_copy. congruence.
Qed.

(** X20. [hasFCIdentifier] returns the first entry of the arbitrary data
    that is an identifier on its own (it has the length of a signed
    identifier and starts with one of the two prefixes), whole, and
    [true]; when there is none it returns the zero identifier and
    [false].  The specifier that is declared before the loop and
    overwritten in it carries nothing from one entry to the next. *)
Theorem hasFCIdentifier_first_identifier (txn : Transaction) :
  hasFCIdentifier txn
  = match find isIdentifier (ArbitraryData txn) with
    | Some arb => (arb, true)
    | None => (zeroBytes FCSignedIdentiferSize, false)
    end.
Proof.
  unfold hasFCIdentifier. by apply hasFCIdentifier_loop_find.
Qed.

(** ** [managedArchiveContracts] *)

Lemma deleteExpired_delete (s : gmap FileContractID RenterContract) id :
  deleteExpired s id = delete id s.
Proof.
  unfold deleteExpired. destruct (s !! id) eqn:E; [done|].
  symmetry. by apply delete_id.
Qed.

Lemma deleteExpired_fold (expired : list FileContractID)
    (s : gmap FileContractID RenterContract) id :
  fold_left deleteExpired expired s !! id
  = if bool_decide (id ∈ expired) then None else s !! id.
Proof.
  revert s. induction expired as [|x expired IH]; intros s; [done|].
  cbn [fold_left]. rewrite IH, deleteExpired_delete.
  destruct (decide (id = x)) as [->|Hne].
  - rewrite lookup_delete_eq, (bool_decide_eq_true_2 (x ∈ x :: expired))
      by (apply elem_of_cons; by left).
    by destruct (bool_decide (x ∈ expired)).
  - rewrite lookup_delete_ne by done.
    destruct (decide (id ∈ expired)) as [Hin|Hnin].
    + rewrite (bool_decide_eq_true_2 (id ∈ x :: expired))
        by (apply elem_of_cons; by right).
      by rewrite bool_decide_eq_true_2.
    + rewrite (bool_decide_eq_false_2 (id ∈ x :: expired)).
      * by rewrite bool_decide_eq_false_2.
      * intros [?|?]%elem_of_cons; done.
Qed.

(** The first loop, as a fold over the contracts that are archived. *)
Lemma archiveContract_fold_at h c l expired :
  let arch :=
    filter (fun rc => (EndHeight rc <? h)
                      || bool_decide (is_Some (renewedTo c !! ID rc)) = true)
      l in
  let res := fold_left (archiveContract h) l (c, expired) in
  snd res = (expired ++ map ID arch)%list
  /\ oldContracts (fst res)
     = fold_left (fun o rc => <[ID rc := rc]> o) arch (oldContracts c)
  /\ events (fst res)
     = (events c ++ map (fun rc => EvLogArchived (ID rc)) arch)%list
  /\ blockHeight (fst res) = blockHeight c
  /\ staticContracts (fst res) = staticContracts c
  /\ settings (fst res) = settings c.
Proof.
  cbn zeta. revert c expired.
  induction l as [|rc l IH]; intros c expired.
  - cbn. by rewrite !app_nil_r.
  - cbn [fold_left]. rewrite filter_cons.
    destruct ((EndHeight rc <? h)
              || bool_decide (is_Some (renewedTo c !! ID rc))) eqn:Ea.
    + rewrite decide_True by done.
      assert (archiveContract h (c, expired) rc
              = (record (EvLogArchived (ID rc))
                   (with_oldContracts c (<[ID rc := rc]> (oldContracts c))),
                 (expired ++ [ID rc])%list)) as ->
        by (unfold archiveContract; by rewrite Ea).
      match goal with
      | |- context [fold_left _ l (?c1, ?e1)] =>
          destruct (IH c1 e1) as (H1 & H2 & H3 & H4 & H5 & H6)
      end.
      cbn [renewedTo record with_oldContracts] in H1, H2, H3.
      rewrite H1, H2, H3, H4, H5, H6. cbn.
      by rewrite <- !app_assoc.
    + rewrite decide_False by done.
      assert (archiveContract h (c, expired) rc = (c, expired)) as ->
        by (unfold archiveContract; by rewrite Ea).
      by apply IH.
Qed.

Lemma archiveContract_fold c l expired :
  let arch := filter (fun rc => archivable c rc = true) l in
  let res := fold_left (archiveContract (blockHeight c)) l (c, expired) in
  snd res = (expired ++ map ID arch)%list
  /\ oldContracts (fst res)
     = fold_left (fun o rc => <[ID rc := rc]> o) arch (oldContracts c)
  /\ events (fst res)
     = (events c ++ map (fun rc => EvLogArchived (ID rc)) arch)%list
  /\ blockHeight (fst res) = blockHeight c
  /\ staticContracts (fst res) = staticContracts c
  /\ settings (fst res) = settings c.
Proof. apply archiveContract_fold_at. Qed.

Lemma insert_fold_lookup (l : list RenterContract)
    (o : gmap FileContractID RenterContract) id rc :
  (forall rc', rc' ∈ l -> ID rc' = id -> rc' = rc) ->
  o !! id = Some rc \/ (rc ∈ l /\ ID rc = id) ->
  fold_left (fun o rc => <[ID rc := rc]> o) l o !! id = Some rc.
Proof.
  revert o. induction l as [|rc0 l IH]; intros o Huniq Hor.
  - destruct Hor as [H|[H _]]; [done|]. by apply elem_of_nil in H.
  - cbn [fold_left]. apply IH.
    + intros rc' Hin. apply Huniq. by right.
    + destruct (decide (ID rc0 = id)) as [Heq|Hne].
      * left. rewrite <- Heq, lookup_insert_eq. f_equal.
        apply Huniq; [by left|done].
      * rewrite lookup_insert_ne by done.
        destruct Hor as [H|[H1 H2]]; [by left|].
        right. split; [|done].
        apply elem_of_cons in H1 as [->|H1]; [done|done].
Qed.

Lemma insert_fold_other (l : list RenterContract)
    (o : gmap FileContractID RenterContract) id :
  (forall rc, rc ∈ l -> ID rc ≠ id) ->
  fold_left (fun o rc => <[ID rc := rc]> o) l o !! id = o !! id.
Proof.
  revert o. induction l as [|rc0 l IH]; intros o Hne; [done|].
  cbn [fold_left]. rewrite IH by (intros; apply Hne; by right).
  apply lookup_insert_ne, Hne. by left.
Qed.

(** What [managedArchiveContracts] makes of the entry of [id] in the
    contract set and in the old contracts. *)
Lemma managedArchiveContracts_lookup c id :
  (forall rc, rc ∈ ViewAll (staticContracts c)
              <-> exists id, staticContracts c !! id = Some rc) ->
  (forall id rc, staticContracts c !! id = Some rc -> ID rc = id) ->
  let c' := managedArchiveContracts c in
  match staticContracts c !! id with
  | Some rc =>
      if archivable c rc
      then staticContracts c' !! id = None
           /\ oldContracts c' !! id = Some rc
      else staticContracts c' !! id = Some rc
           /\ oldContracts c' !! id = oldContracts c !! id
  | None =>
      staticContracts c' !! id = None
      /\ oldContracts c' !! id = oldContracts c !! id
  end.
Proof.
  intros Hview Hkey c'. subst c'. unfold managedArchiveContracts.
  destruct (archiveContract_fold c (ViewAll (staticContracts c)) [])
    as (He & Ho & _ & _ & Hs & _).
  cbn zeta in He, Ho, Hs.
  set (res := fold_left _ _ _) in *.
  set (arch := filter _ _) in *.
  cbn [save fst snd with_staticContracts with_chainWorld record
         staticContracts oldContracts].
  rewrite He, Ho, Hs, deleteExpired_fold. cbn [app].
  assert (forall rc, rc ∈ arch <->
            staticContracts c !! ID rc = Some rc /\ archivable c rc = true)
    as Harch.
  { intros rc. subst arch. rewrite list_elem_of_filter, Hview. split.
    - intros [Ha [id' Hid]]. split; [|done].
      by rewrite (Hkey _ _ Hid).
    - intros [Hid Ha]. split; [done|]. by exists (ID rc). }
  destruct (staticContracts c !! id) as [rc|] eqn:E.
  - pose proof (Hkey _ _ E) as Hid.
    destruct (archivable c rc) eqn:Ea.
    + assert (rc ∈ arch) as Hin by (apply Harch; by rewrite Hid).
      rewrite bool_decide_eq_true_2
        by (rewrite <- Hid; apply list_elem_of_fmap; by exists rc).
      split; [done|]. apply insert_fold_lookup; [|by right].
      intros rc' Hin' Hid'. apply Harch in Hin' as [Hl _].
      rewrite Hid', E in Hl. congruence.
    + assert (forall rc', rc' ∈ arch -> ID rc' ≠ id) as Hne.
      { intros rc' Hin' Hid'. apply Harch in Hin' as [Hl Ha'].
        rewrite Hid', E in Hl. congruence. }
      rewrite bool_decide_eq_false_2.
      * split; [done|]. by apply insert_fold_other.
      * intros Hin. apply list_elem_of_fmap in Hin as (rc' & Hid' & Hin').
        by apply (Hne rc' Hin').
  - assert (forall rc', rc' ∈ arch -> ID rc' ≠ id) as Hne.
    { intros rc' Hin' Hid'. apply Harch in Hin' as [Hl _].
      rewrite Hid', E in Hl. congruence. }
    split; [by destruct (bool_decide _)|]. by apply insert_fold_other.
Qed.

Lemma managedArchiveContracts_frame c :
  blockHeight (managedArchiveContracts c) = blockHeight c
  /\ currentPeriod (managedArchiveContracts c) = currentPeriod c
  /\ lastChange (managedArchiveContracts c) = lastChange c
  /\ renewedTo (managedArchiveContracts c) = renewedTo c
  /\ exists logs,
       events (managedArchiveContracts c)
       = (events c ++ logs
            ++ [EvSave (blockHeight c) (currentPeriod c) (lastChange c)
                  (oldContracts (managedArchiveContracts c))])%list
       /\ Forall (fun ev => isLogArchived ev = true) logs.
Proof.
  unfold managedArchiveContracts.
  destruct (archiveContract_fold c (ViewAll (staticContracts c)) [])
    as (_ & _ & Hev & Hh & _ & Hset).
  cbn zeta in Hev, Hh, Hset.
  set (res := fold_left _ _ _) in *.
  unfold settings in Hset. injection Hset as Hp _ Hl Hr _.
  cbn [save fst snd with_staticContracts with_chainWorld record
         blockHeight currentPeriod lastChange renewedTo events oldContracts].
  rewrite Hev, Hh, Hp, Hl, Hr. repeat split.
  eexists. rewrite <- app_assoc. split; [done|].
  apply Forall_forall. intros ev Hin.
  by apply list_elem_of_fmap in Hin as (rc & -> & _).
Qed.

(** X21. [managedArchiveContracts] moves to the old contracts exactly
    the contracts of the set that have ended (their end height is below
    the block height) or that have been renewed, and leaves every other
    entry of the set and of the old contracts as it was; in whatever
    order the set is iterated.  It saves once, after the log lines, and
    what it saves already holds the archived contracts. *)
Theorem archive_moves_ended_and_renewed c id :
  (forall rc, rc ∈ ViewAll (staticContracts c)
              <-> exists id, staticContracts c !! id = Some rc) ->
  (forall id rc, staticContracts c !! id = Some rc -> ID rc = id) ->
  let c' := managedArchiveContracts c in
  match staticContracts c !! id with
  | Some rc =>
      if archivable c rc
      then staticContracts c' !! id = None
           /\ oldContracts c' !! id = Some rc
      else staticContracts c' !! id = Some rc
           /\ oldContracts c' !! id = oldContracts c !! id
  | None =>
      staticContracts c' !! id = None
      /\ oldContracts c' !! id = oldContracts c !! id
  end
  /\ exists logs,
       events c'
       = (events c ++ logs
            ++ [EvSave (blockHeight c) (currentPeriod c) (lastChange c)
                  (oldContracts c')])%list
       /\ Forall (fun ev => isLogArchived ev = true) logs.
Proof.
  intros Hview Hkey c'. split.
  - by apply managedArchiveContracts_lookup.
  - apply managedArchiveContracts_frame.
Qed.

(** X22. Archiving again changes nothing: a second run of
    [managedArchiveContracts] finds no contract to move, so the contract
    set and the old contracts are those after the first run. *)
Theorem archive_twice_is_archive_once c :
  (forall s rc, rc ∈ ViewAll s <-> exists id, s !! id = Some rc) ->
  (forall id rc, staticContracts c !! id = Some rc -> ID rc = id) ->
  let c' := managedArchiveContracts c in
  staticContracts (managedArchiveContracts c') = staticContracts c'
  /\ oldContracts (managedArchiveContracts c') = oldContracts c'.
Proof.
  intros Hview Hkey c'.
  assert (forall id rc, staticContracts c' !! id = Some rc ->
            staticContracts c !! id = Some rc /\ archivable c rc = false)
    as Hleft.
  { intros id rc Hl.
    pose proof (managedArchiveContracts_lookup c id (Hview _) Hkey) as H.
    cbn zeta in H. fold c' in H.
    destruct (staticContracts c !! id) as [rc0|];
      [destruct (archivable c rc0) eqn:Ea|]; destruct H as [H _];
      rewrite H in Hl; by simplify_eq. }
  assert (forall rc, archivable c' rc = archivable c rc) as Hsame.
  { intros rc. unfold archivable, c'.
    destruct (managedArchiveContracts_frame c) as (-> & _ & _ & -> & _).
    done. }
  assert (forall id rc, staticContracts c' !! id = Some rc -> ID rc = id)
    as Hkey' by (intros id rc Hl; apply Hkey; by apply Hleft).
  split; apply map_eq; intros id;
    pose proof (managedArchiveContracts_lookup c' id (Hview _) Hkey') as H;
    cbn zeta in H;
    destruct (staticContracts c' !! id) as [rc|] eqn:E;
    try (rewrite Hsame, (proj2 (Hleft _ _ E)) in H);
    destruct H as [H1 H2]; by rewrite ?H1, ?H2.
Qed.

(** ** [recoverContracts] *)

Lemma wipeSeeds_spec (deferred : list RenterSeed) c :
  blockHeight (wipeSeeds deferred c) = blockHeight c
  /\ staticContracts (wipeSeeds deferred c) = staticContracts c
  /\ oldContracts (wipeSeeds deferred c) = oldContracts c
  /\ settings (wipeSeeds deferred c) = settings c
  /\ events (wipeSeeds deferred c)
     = (events c ++ map EvWipe deferred)%list.
Proof.
  unfold wipeSeeds. revert c.
  induction deferred as [|rs deferred IH]; intros c; cbn [fold_left map].
  - by rewrite app_nil_r.
  - destruct (IH (record (EvWipe rs) c)) as (-> & -> & -> & -> & ->).
    cbn. by rewrite <- app_assoc.
Qed.

Lemma recoverable_same (s : Seed) c1 c2 txn i fc :
  blockHeight c1 = blockHeight c2 ->
  staticContracts c1 = staticContracts c2 ->
  recoverable s c1 txn i fc = recoverable s c2 txn i fc.
Proof. unfold recoverable, wanted. by intros -> ->. Qed.

(** The inner loop: it stops at the first contract that passes the three
    checks, or goes through all of them. *)
Lemma recoverFileContracts_spec (s : Seed) csi txn i fcs
    (deferred : list RenterSeed) c :
  (exists j fc deferred',
     fcs !! j = Some fc
     /\ wanted s c csi txn (i + j) fc = true
     /\ recoverFileContracts s csi txn i fcs deferred c
        = (Panicked "not implemented" c, deferred'))
  \/ ((forall j fc, fcs !! j = Some fc ->
                    wanted s c csi txn (i + j) fc = false)
      /\ recoverFileContracts s csi txn i fcs deferred c
         = (Returned c,
            (rev (map (fun fc => EphemeralRenterSeed s (WindowStart fc)) fcs)
               ++ deferred)%list)).
Proof.
  revert i deferred. induction fcs as [|fc fcs IH]; intros i deferred.
  - right. split; [by intros j fc Hj|done].
  - cbn [recoverFileContracts].
    set (rs := EphemeralRenterSeed s (WindowStart fc)).
    assert (wanted s c csi txn (i + 0) fc = false ->
            ((exists j fc0 deferred',
                (fc :: fcs) !! j = Some fc0
                /\ wanted s c csi txn (i + j) fc0 = true
                /\ recoverFileContracts s csi txn (S i) fcs (rs :: deferred) c
                   = (Panicked "not implemented" c, deferred'))
             \/ ((forall j fc0, (fc :: fcs) !! j = Some fc0 ->
                                wanted s c csi txn (i + j) fc0 = false)
                 /\ recoverFileContracts s csi txn (S i) fcs
                      (rs :: deferred) c
                    = (Returned c,
                       (rev (map (fun fc => EphemeralRenterSeed s
                                              (WindowStart fc))
                               (fc :: fcs)) ++ deferred)%list))))
      as Hskip.
    { intros Hw.
      destruct (IH (S i) (rs :: deferred))
        as [(j & fc0 & d' & Hj & Hwj & Hr)|[Hall Hr]].
      - left. exists (S j), fc0, d'. split; [done|].
        split; [|done]. by replace (i + S j)%nat with (S i + j)%nat by lia.
      - right. split.
        + intros [|j] fc0 Hj.
          * by injection Hj as <-.
          * replace (i + S j)%nat with (S i + j)%nat by lia.
            by apply Hall.
        + rewrite Hr. cbn [map rev]. by rewrite <- app_assoc. }
    unfold wanted in Hskip at 1. rewrite Nat.add_0_r in Hskip. fold rs in Hskip.
    destruct (IsValid csi rs txn) eqn:Ev; cbn [negb];
      [|by apply Hskip].
    destruct (WindowEnd fc <=? blockHeight c) eqn:Ee; [by apply Hskip|].
    destruct (bool_decide _) eqn:Ek; [by apply Hskip|].
    cbn [recoverContract]. left. exists 0%nat, fc, (rs :: deferred).
    split; [done|]. split; [|done].
    unfold wanted. rewrite Nat.add_0_r. fold rs. by rewrite Ev, Ee, Ek.
Qed.

Lemma recoverTransactions_spec (s : Seed) txns (deferred : list RenterSeed)
    c :
  (exists txn j fc deferred',
     txn ∈ txns
     /\ FileContracts txn !! j = Some fc
     /\ recoverable s c txn j fc = true
     /\ recoverTransactions s txns deferred c
        = (Panicked "not implemented" c, deferred'))
  \/ ((forall txn j fc, txn ∈ txns -> FileContracts txn !! j = Some fc ->
                        recoverable s c txn j fc = false)
      /\ recoverTransactions s txns deferred c
         = (Returned c, (rev (derivedSeeds s txns) ++ deferred)%list)).
Proof.
  revert deferred. induction txns as [|txn txns IH]; intros deferred.
  - right. split; [|done]. intros txn j fc Hin. by apply elem_of_nil in Hin.
  - cbn [recoverTransactions]. unfold derivedSeeds. cbn [map concat].
    fold (derivedSeeds s txns).
    assert (forall d,
              (forall j fc, FileContracts txn !! j = Some fc ->
                            recoverable s c txn j fc = false) ->
              ((exists txn0 j fc deferred',
                  txn0 ∈ txn :: txns
                  /\ FileContracts txn0 !! j = Some fc
                  /\ recoverable s c txn0 j fc = true
                  /\ recoverTransactions s txns d c
                     = (Panicked "not implemented" c, deferred'))
               \/ ((forall txn0 j fc,
                      txn0 ∈ txn :: txns ->
                      FileContracts txn0 !! j = Some fc ->
                      recoverable s c txn0 j fc = false)
                   /\ recoverTransactions s txns d c
                      = (Returned c, (rev (derivedSeeds s txns) ++ d)%list))))
      as Hrest.
    { intros d Hnone.
      destruct (IH d) as [(txn0 & j & fc & d' & Hin & Hj & Hw & Hr)|[Hall Hr]].
      - left. exists txn0, j, fc, d'. repeat split; try done.
        apply elem_of_cons. by right.
      - right. split; [|done].
        intros txn0 j fc [->|Hin]%elem_of_cons Hj; [by apply Hnone|].
        by apply (Hall txn0). }
    unfold recoverable in *.
    destruct (hasFCIdentifier txn) as [csi [|]] eqn:Eid; cbn [negb fst snd].
    + destruct (recoverFileContracts_spec s csi txn 0 (FileContracts txn)
                  deferred c)
        as [(j & fc & d' & Hj & Hw & ->)|[Hall ->]].
      * left. exists txn, j, fc, d'. rewrite Eid. cbn [fst snd andb].
        repeat split; try done. apply elem_of_cons. by left.
      * rewrite rev_app_distr, <- app_assoc.
        apply Hrest. intros j fc Hj. rewrite ?Eid. cbn [fst snd andb].
        by apply (Hall j fc).
    + rewrite app_nil_l. apply Hrest. intros j fc Hj. by rewrite ?Eid.
Qed.

Lemma recoverContracts_spec (s : Seed) (b : Block) c :
  (exists txn j fc deferred,
     txn ∈ Transactions b
     /\ FileContracts txn !! j = Some fc
     /\ recoverable s c txn j fc = true
     /\ recoverContracts s b c
        = Panicked "not implemented" (wipeSeeds deferred c))
  \/ ((forall txn j fc, txn ∈ Transactions b ->
                        FileContracts txn !! j = Some fc ->
                        recoverable s c txn j fc = false)
      /\ recoverContracts s b c
         = Returned (wipeSeeds (rev (derivedSeeds s (Transactions b))) c)).
Proof.
  unfold recoverContracts.
  destruct (recoverTransactions_spec s (Transactions b) [] c)
    as [(txn & j & fc & d' & Hin & Hj & Hw & ->)|[Hall ->]].
  - left. by exists txn, j, fc, d'.
  - right. by rewrite app_nil_r.
Qed.

(** X23. [recoverContracts] returns exactly when no contract of a
    transaction of the block that carries an identifier passes the three
    checks (valid for the ephemeral seed, window not ended at the block
    height, not a contract of the set); otherwise it panics with
    [not implemented].  Either way the block height, the contract set,
    the old contracts and the other fields of the contractor are as
    before, and all it does is to overwrite ephemeral seeds. *)
Theorem recoverContracts_returns_iff_nothing_to_recover (s : Seed)
    (b : Block) c :
  let o := recoverContracts s b c in
  (returned o = true <->
   forall txn j fc, txn ∈ Transactions b ->
                    FileContracts txn !! j = Some fc ->
                    recoverable s c txn j fc = false)
  /\ (returned o = false ->
      exists c', o = Panicked "not implemented" c')
  /\ blockHeight (final o) = blockHeight c
  /\ staticContracts (final o) = staticContracts c
  /\ oldContracts (final o) = oldContracts c
  /\ settings (final o) = settings c
  /\ exists wiped, events (final o) = (events c ++ map EvWipe wiped)%list.
Proof.
  intros o. subst o.
  destruct (recoverContracts_spec s b c)
    as [(txn & j & fc & d & Hin & Hj & Hw & ->)|[Hall ->]];
    cbn [returned final];
    match goal with
    | |- context [wipeSeeds ?d c] =>
        destruct (wipeSeeds_spec d c) as (-> & -> & -> & -> & ->)
    end.
  - split; [|by eauto 10]. split; [done|].
    intros Hall. by rewrite (Hall txn j fc Hin Hj) in Hw.
  - split; [done|]. split; [done|]. by eauto 10.
Qed.

(** X24. Every ephemeral seed that [recoverContracts] derives is
    overwritten when it returns: the deferred calls overwrite one seed
    for each contract of each transaction that carries an identifier,
    the seed derived last first. *)
Theorem recoverContracts_wipes_every_seed (s : Seed) (b : Block) c c' :
  recoverContracts s b c = Returned c' ->
  events c'
  = (events c ++ map EvWipe (rev (derivedSeeds s (Transactions b))))%list.
Proof.
  intros Hr.
  destruct (recoverContracts_spec s b c)
    as [(txn & j & fc & d & _ & _ & _ & H)|[_ H]];
    rewrite H in Hr; [done|].
  injection Hr as <-.
  by destruct (wipeSeeds_spec (rev (derivedSeeds s (Transactions b))) c)
    as (_ & _ & _ & _ & ->).
Qed.

(** ** [ProcessConsensusChange] *)

Lemma uint64_sub_range a b : 0 <= uint64_sub a b < uint64_modulus.
Proof. unfold uint64_sub. by apply Z.mod_pos_bound. Qed.

Lemma countBlocks_cons (block : Block) blocks :
  countBlocks (block :: blocks)
  = (if notGenesis block then 1 else 0) + countBlocks blocks.
Proof.
  unfold countBlocks. rewrite filter_cons.
  destruct (notGenesis block).
  - rewrite decide_True by done. cbn [length]. lia.
  - by rewrite decide_False by done.
Qed.

Lemma revertBlocks_frame (blocks : list Block) c :
  let c' := fold_left revertBlock blocks c in
  staticContracts c' = staticContracts c
  /\ oldContracts c' = oldContracts c
  /\ settings c' = settings c
  /\ events c' = events c.
Proof.
  cbn zeta. revert c. induction blocks as [|block blocks IH]; intros c;
    [done|].
  cbn [fold_left]. destruct (IH (revertBlock c block)) as (-> & -> & -> & ->).
  unfold revertBlock. by destruct (notGenesis block).
Qed.

Lemma revertBlocks_height (blocks : list Block) c :
  0 <= blockHeight c < uint64_modulus ->
  let c' := fold_left revertBlock blocks c in
  0 <= blockHeight c' < uint64_modulus
  /\ blockHeight c' = (blockHeight c - countBlocks blocks) mod uint64_modulus.
Proof.
  cbn zeta. revert c. induction blocks as [|block blocks IH]; intros c Hr.
  - cbn. by rewrite Z.sub_0_r, Z.mod_small.
  - cbn [fold_left]. rewrite countBlocks_cons.
    assert (revertBlock c block
            = if notGenesis block
              then with_blockHeight c (uint64_sub (blockHeight c) 1)
              else c) as -> by done.
    destruct (notGenesis block).
    + destruct (IH (with_blockHeight c (uint64_sub (blockHeight c) 1)))
        as (Hr' & Hh'); [apply uint64_sub_range|].
      split; [done|]. rewrite Hh'. cbn. unfold uint64_sub.
      rewrite Zminus_mod_idemp_l. f_equal. lia.
    + destruct (IH c Hr) as (Hr' & Hh'). by split.
Qed.

Lemma applyBlocks_frame (s : Seed) (blocks : list Block) c :
  let o := applyBlocks s blocks c in
  staticContracts (final o) = staticContracts c
  /\ oldContracts (final o) = oldContracts c
  /\ settings (final o) = settings c
  /\ (exists wiped, events (final o) = (events c ++ map EvWipe wiped)%list)
  /\ match o with
     | Returned c' => True
     | Panicked msg c' =>
         msg = "not implemented"
         /\ exists block txn j fc,
              block ∈ blocks /\ txn ∈ Transactions block
              /\ FileContracts txn !! j = Some fc
              /\ recoverable s c' txn j fc = true
     end.
Proof.
  cbn zeta. revert c. induction blocks as [|block blocks IH]; intros c.
  - cbn. repeat split; try done. exists []. by rewrite app_nil_r.
  - cbn [applyBlocks].
    set (c1 := if notGenesis block
               then with_blockHeight c (uint64_add (blockHeight c) 1)
               else c).
    assert (staticContracts c1 = staticContracts c
            /\ oldContracts c1 = oldContracts c
            /\ settings c1 = settings c
            /\ events c1 = events c) as (Hs1 & Ho1 & Hset1 & He1)
      by (subst c1; by destruct (notGenesis block)).
    destruct (recoverContracts_spec s block c1)
      as [(txn & j & fc & d & Hin & Hj & Hw & ->)|[Hall ->]];
      match goal with
      | |- context [wipeSeeds ?d c1] =>
          destruct (wipeSeeds_spec d c1) as (Hwh & Hws & Hwo & Hwset & Hwe);
          set (c2 := wipeSeeds d c1) in *
      end.
    + cbn [final]. rewrite Hws, Hwo, Hwset, Hwe, Hs1, Ho1, Hset1, He1.
      repeat split; try done; [by eauto|].
      exists block, txn, j, fc. repeat split; try done.
      * apply elem_of_cons. by left.
      * by rewrite (recoverable_same s c2 c1).
    + destruct (IH c2) as (Hs & Ho & Hset & [wiped Hev] & Hm).
      rewrite Hs, Ho, Hset, Hev, Hws, Hwo, Hwset, Hwe, Hs1, Ho1, Hset1, He1.
      repeat split; try done.
      * eexists. by rewrite <- app_assoc, <- map_app.
      * destruct (applyBlocks s blocks c2) as [c'|msg c']; [done|].
        destruct Hm as (-> & block' & txn & j & fc & Hin & Hrest).
        split; [done|]. exists block', txn, j, fc.
        split; [|done]. apply elem_of_cons. by right.
Qed.

Lemma applyBlocks_height (s : Seed) (blocks : list Block) c c' :
  0 <= blockHeight c < uint64_modulus ->
  applyBlocks s blocks c = Returned c' ->
  blockHeight c' = (blockHeight c + countBlocks blocks) mod uint64_modulus.
Proof.
  revert c. induction blocks as [|block blocks IH]; intros c Hr.
  - cbn. intros [= <-]. by rewrite Z.add_0_r, Z.mod_small.
  - cbn [applyBlocks]. rewrite countBlocks_cons.
    set (c1 := if notGenesis block
               then with_blockHeight c (uint64_add (blockHeight c) 1)
               else c).
    assert (0 <= blockHeight c1 < uint64_modulus
            /\ blockHeight c1
               = (blockHeight c + (if notGenesis block then 1 else 0))
                   mod uint64_modulus) as (Hr1 & Hh1).
    { subst c1. destruct (notGenesis block); cbn.
      - split; [apply uint64_add_wrapped|done].
      - by rewrite Z.add_0_r, Z.mod_small. }
    destruct (recoverContracts_spec s block c1)
      as [(txn & j & fc & d & Hin & Hj & Hw & ->)|[Hall ->]]; [done|].
    destruct (wipeSeeds_spec (rev (derivedSeeds s (Transactions block))) c1)
      as (Hwh & _).
    intros Ha. rewrite <- Hwh in Hr1.
    rewrite (IH _ Hr1 Ha), Hwh, Hh1.
    rewrite Zplus_mod_idemp_l. f_equal. lia.
Qed.

Lemma askWallet_frame c :
  blockHeight (snd (askWallet c)) = blockHeight c
  /\ currentPeriod (snd (askWallet c)) = currentPeriod c
  /\ allowance_Period (snd (askWallet c)) = allowance_Period c
  /\ lastChange (snd (askWallet c)) = lastChange c
  /\ staticContracts (snd (askWallet c)) = staticContracts c
  /\ oldContracts (snd (askWallet c)) = oldContracts c
  /\ renewedTo (snd (askWallet c)) = renewedTo c
  /\ exists logs, events (snd (askWallet c)) = (events c ++ logs)%list
                  /\ Forall (fun ev => quiet ev = true) logs.
Proof.
  unfold askWallet.
  destruct (wallet_PrimarySeed (chainWorld c)) as [[s [e|]] w]; cbn.
  - repeat split. exists [EvLogSeedFailed e]. split; [done|].
    by repeat constructor.
  - repeat split. exists []. by rewrite app_nil_r.
Qed.

Lemma finishConsensusChange_spec (cc : ConsensusChange) c :
  let c' := finishConsensusChange cc c in
  blockHeight c' = blockHeight c
  /\ allowance_Period c' = allowance_Period c
  /\ staticContracts c' = staticContracts c
  /\ renewedTo c' = renewedTo c
  /\ lastChange c' = cc_ID cc
  /\ (if uint64_add (currentPeriod c) (allowance_Period c) <=? blockHeight c
      then currentPeriod c'
           = uint64_add (currentPeriod c) (allowance_Period c)
           /\ oldContracts c' = delete metricsContractID (oldContracts c)
      else currentPeriod c' = currentPeriod c
           /\ oldContracts c' = oldContracts c)
  /\ exists logs,
       events c'
       = (events c
            ++ EvSave (blockHeight c') (currentPeriod c') (lastChange c')
                 (oldContracts c')
            :: logs ++ (if Synced cc then [EvGoMaintenance] else []))%list
       /\ Forall (fun ev => quiet ev = true) logs.
Proof.
  cbn zeta. unfold finishConsensusChange, save.
  destruct (uint64_add (currentPeriod c) (allowance_Period c)
              <=? blockHeight c);
    cbn [blockHeight currentPeriod lastChange oldContracts renewedTo
           chainWorld with_currentPeriod with_oldContracts with_lastChange];
    destruct (persist_save _ _ _ _ _ _) as [[e|] w]; cbn [fst snd];
    destruct (Synced cc); cbn;
    repeat split;
    first [ exists [EvLogSaveFailed e] | exists [] ];
    (split; [by rewrite <- ?app_assoc|by repeat constructor]).
Qed.

Lemma ProcessConsensusChange_unfold (cc : ConsensusChange) c :
  ProcessConsensusChange cc c
  = match applyBlocks (fst (askWallet c)) (AppliedBlocks cc)
            (fold_left revertBlock (RevertedBlocks cc) (snd (askWallet c)))
    with
    | Returned c => Returned (finishConsensusChange cc c)
    | Panicked msg c => Panicked msg c
    end.
Proof. unfold ProcessConsensusChange. by destruct (askWallet c). Qed.

Lemma settings_eq c1 c2 :
  settings c1 = settings c2 ->
  currentPeriod c1 = currentPeriod c2
  /\ allowance_Period c1 = allowance_Period c2
  /\ lastChange c1 = lastChange c2
  /\ renewedTo c1 = renewedTo c2.
Proof. unfold settings. by intros [= -> -> -> -> _]. Qed.

(** What every run of [ProcessConsensusChange] has done when its two
    loops are over. *)
Lemma consensus_loops_frame (cc : ConsensusChange) c :
  let o :=
    applyBlocks (fst (askWallet c)) (AppliedBlocks cc)
      (fold_left revertBlock (RevertedBlocks cc) (snd (askWallet c))) in
  currentPeriod (final o) = currentPeriod c
  /\ allowance_Period (final o) = allowance_Period c
  /\ lastChange (final o) = lastChange c
  /\ renewedTo (final o) = renewedTo c
  /\ staticContracts (final o) = staticContracts c
  /\ oldContracts (final o) = oldContracts c
  /\ exists pre, events (final o) = (events c ++ pre)%list
                 /\ Forall (fun ev => quiet ev = true) pre.
Proof.
  cbn zeta.
  destruct (askWallet_frame c)
    as (_ & Hp & Ha & Hl & Hs & Ho & Hr & logs & He & Hq).
  destruct (revertBlocks_frame (RevertedBlocks cc) (snd (askWallet c)))
    as (Hs1 & Ho1 & Hset1 & He1).
  apply settings_eq in Hset1 as (Hp1 & Ha1 & Hl1 & Hr1).
  destruct (applyBlocks_frame (fst (askWallet c)) (AppliedBlocks cc)
              (fold_left revertBlock (RevertedBlocks cc) (snd (askWallet c))))
    as (Hs2 & Ho2 & Hset2 & [wiped He2] & _).
  apply settings_eq in Hset2 as (Hp2 & Ha2 & Hl2 & Hr2).
  rewrite Hp2, Ha2, Hl2, Hr2, Hs2, Ho2, He2, Hp1, Ha1, Hl1, Hr1, Hs1, Ho1,
    He1, He.
  repeat split; try done.
  exists (logs ++ map EvWipe wiped)%list. split; [by rewrite app_assoc|].
  apply Forall_app. split; [done|].
  apply Forall_forall. intros ev Hin.
  by apply list_elem_of_fmap in Hin as (rs & -> & _).
Qed.

(** X25. [ProcessConsensusChange] moves the block height down by the
    reverted blocks and up by the applied blocks that are not the genesis
    block, in [uint64]. *)
Theorem consensus_change_moves_height (cc : ConsensusChange) c c' :
  0 <= blockHeight c < uint64_modulus ->
  ProcessConsensusChange cc c = Returned c' ->
  blockHeight c'
  = (blockHeight c + countBlocks (AppliedBlocks cc)
       - countBlocks (RevertedBlocks cc)) mod uint64_modulus.
Proof.
  intros Hr. rewrite ProcessConsensusChange_unfold.
  destruct (applyBlocks _ _ _) as [c2|msg c2] eqn:Ea; [|done].
  intros [= <-].
  destruct (finishConsensusChange_spec cc c2) as (-> & _).
  destruct (askWallet_frame c) as (Hh & _).
  destruct (revertBlocks_height (RevertedBlocks cc) (snd (askWallet c)))
    as (Hr1 & Hh1); [by rewrite Hh|].
  rewrite (applyBlocks_height _ _ _ _ Hr1 Ea), Hh1, Hh.
  rewrite Zplus_mod_idemp_l. f_equal. lia.
Qed.

(** X26. [ProcessConsensusChange] that returns has recorded the change
    and advanced the period by at most one allowance period: the period
    advances, and the metrics contract leaves the old contracts, exactly
    when the new block height has reached the end of the period.  A
    contractor that is two periods or more behind is still behind after
    the call.  The contract set and the renewals are not touched. *)
Theorem consensus_change_advances_one_period (cc : ConsensusChange) c c' :
  ProcessConsensusChange cc c = Returned c' ->
  lastChange c' = cc_ID cc
  /\ allowance_Period c' = allowance_Period c
  /\ staticContracts c' = staticContracts c
  /\ renewedTo c' = renewedTo c
  /\ (if uint64_add (currentPeriod c) (allowance_Period c) <=? blockHeight c'
      then currentPeriod c'
           = uint64_add (currentPeriod c) (allowance_Period c)
           /\ oldContracts c' = delete metricsContractID (oldContracts c)
      else currentPeriod c' = currentPeriod c
           /\ oldContracts c' = oldContracts c)
  /\ (0 <= currentPeriod c -> 0 <= allowance_Period c ->
      currentPeriod c + 2 * allowance_Period c < uint64_modulus ->
      currentPeriod c + 2 * allowance_Period c <= blockHeight c' ->
      currentPeriod c' = currentPeriod c + allowance_Period c
      /\ uint64_add (currentPeriod c') (allowance_Period c')
         <= blockHeight c').
Proof.
  rewrite ProcessConsensusChange_unfold.
  pose proof (consensus_loops_frame cc c) as Hf. cbn zeta in Hf.
  destruct (applyBlocks _ _ _) as [c2|msg c2]; [|done].
  intros [= <-]. cbn [final] in Hf.
  destruct Hf as (Hp & Ha & _ & Hr & Hs & Ho & _).
  destruct (finishConsensusChange_spec cc c2)
    as (Hh' & Ha' & Hs' & Hr' & Hl' & Hper & _).
  rewrite Hp, Ha, Ho, <- Hh' in Hper.
  rewrite Hl', Ha', Hs', Hr', Ha, Hs, Hr.
  do 5 (split; [done|]).
  intros Hcp0 Hper0 Hfit Hbehind.
  assert (uint64_add (currentPeriod c) (allowance_Period c)
          = currentPeriod c + allowance_Period c) as Hadd
    by (unfold uint64_add; apply Z.mod_small; lia).
  rewrite Hadd in Hper.
  destruct (Z.leb_spec (currentPeriod c + allowance_Period c)
              (blockHeight (finishConsensusChange cc c2))) as [_|Hlt];
    [|lia].
  destruct Hper as [Hcp _]. rewrite Hcp. split; [done|].
  unfold uint64_add. rewrite Z.mod_small; lia.
Qed.

(** X27. [ProcessConsensusChange] that returns has saved exactly once,
    the contractor as it is at the end (with the new block height, period,
    change and old contracts), and has started the maintenance thread
    exactly when the change is synced, after the save. *)
Theorem consensus_change_saves_once (cc : ConsensusChange) c c' :
  ProcessConsensusChange cc c = Returned c' ->
  exists pre logs,
    events c'
    = (events c ++ pre
         ++ EvSave (blockHeight c') (currentPeriod c') (lastChange c')
              (oldContracts c')
         :: logs ++ (if Synced cc then [EvGoMaintenance] else []))%list
    /\ Forall (fun ev => quiet ev = true) pre
    /\ Forall (fun ev => quiet ev = true) logs.
Proof.
  rewrite ProcessConsensusChange_unfold.
  pose proof (consensus_loops_frame cc c) as Hf. cbn zeta in Hf.
  destruct (applyBlocks _ _ _) as [c2|msg c2]; [|done].
  intros [= <-]. cbn [final] in Hf.
  destruct Hf as (_ & _ & _ & _ & _ & _ & pre & He & Hq).
  destruct (finishConsensusChange_spec cc c2)
    as (_ & _ & _ & _ & _ & _ & logs & He' & Hq').
  exists pre, logs. rewrite He', He, <- app_assoc. done.
Qed.

(** X28. [ProcessConsensusChange] panics only on a contract to recover
    in an applied block, and then the change is not recorded: the last
    change, the period, the old contracts and the contract set are as
    before the call, nothing has been saved and no maintenance thread
    has been started. *)
Theorem consensus_change_panic_records_nothing (cc : ConsensusChange)
    c msg c' :
  ProcessConsensusChange cc c = Panicked msg c' ->
  msg = "not implemented"
  /\ lastChange c' = lastChange c
  /\ currentPeriod c' = currentPeriod c
  /\ oldContracts c' = oldContracts c
  /\ staticContracts c' = staticContracts c
  /\ (exists pre, events c' = (events c ++ pre)%list
                  /\ Forall (fun ev => quiet ev = true) pre)
  /\ exists block txn j fc,
       block ∈ AppliedBlocks cc /\ txn ∈ Transactions block
       /\ FileContracts txn !! j = Some fc
       /\ recoverable (fst (askWallet c)) c' txn j fc = true.
Proof.
  rewrite ProcessConsensusChange_unfold.
  pose proof (consensus_loops_frame cc c) as Hf. cbn zeta in Hf.
  pose proof (applyBlocks_frame (fst (askWallet c)) (AppliedBlocks cc)
                (fold_left revertBlock (RevertedBlocks cc)
                   (snd (askWallet c)))) as Ha.
  cbn zeta in Ha.
  destruct (applyBlocks _ _ _) as [c2|msg2 c2]; [done|].
  intros [= <- <-]. cbn [final] in Hf.
  destruct Hf as (Hp & _ & Hl & _ & Hs & Ho & Hev).
  destruct Ha as (_ & _ & _ & _ & Hmsg & Hrec).
  done.
Qed.

End ContractorProperties.

(** * Properties of new files *)

Section UploadProperties.

Context {files : Files}.

Lemma to_int_small (x : Z) : 0 <= x < int_modulus -> to_int x = x.
Proof.
  unfold to_int, int_modulus, uint64_modulus. intros H.
  rewrite Z.mod_small; lia.
Qed.

Lemma to_int_negative (x : Z) :
  int_modulus <= x < uint64_modulus -> to_int x < 0.
Proof.
  unfold to_int, int_modulus, uint64_modulus. intros H.
  replace (x + 2 ^ 63) with ((x - 2 ^ 63) + 1 * 2 ^ 64) by lia.
  rewrite Z_mod_plus_full, Z.mod_small; lia.
Qed.

Lemma chunkSize_wrapped (rsc : ErasureCoder) (sk : CipherKey) :
  0 <= chunkSize rsc sk < uint64_modulus.
Proof. unfold chunkSize, uint64_mul. by apply Z.mod_pos_bound. Qed.

(** The quotient, one more when there is a remainder, is the quotient
    rounded up. *)
Lemma chunksNeeded_quotient (fileSize size : Z) :
  0 < fileSize -> 0 < size ->
  chunksNeeded fileSize size
  = fileSize / size + (if fileSize mod size =? 0 then 0 else 1).
Proof.
  intros Hf Hs. unfold chunksNeeded.
  destruct (Z.eqb_spec fileSize 0) as [?|_]; [lia|].
  pose proof (Z.div_mod fileSize size ltac:(lia)) as Hdm.
  pose proof (Z.mod_pos_bound fileSize size Hs) as Hm.
  destruct (Z.eqb_spec (fileSize mod size) 0) as [Hz|Hnz].
  - symmetry. rewrite Z.add_0_r.
    apply (Z.div_unique _ _ _ (size - 1)); lia.
  - symmetry.
    apply (Z.div_unique _ _ _ (fileSize mod size - 1)); lia.
Qed.

Lemma chunksNeeded_cover (fileSize size : Z) :
  0 < fileSize -> 0 < size ->
  (chunksNeeded fileSize size - 1) * size < fileSize
  <= chunksNeeded fileSize size * size.
Proof.
  intros Hf Hs. rewrite chunksNeeded_quotient by done.
  pose proof (Z.div_mod fileSize size ltac:(lia)) as Hdm.
  pose proof (Z.mod_pos_bound fileSize size Hs) as Hm.
  destruct (Z.eqb_spec (fileSize mod size) 0) as [Hz|Hnz]; nia.
Qed.

(** The number of chunks that [newFile] computes is the number needed
    when that fits an [int], and negative when it does not. *)
Lemma numChunks_needed (fileSize size : Z) :
  0 < fileSize < uint64_modulus -> 0 < size < uint64_modulus ->
  exists n,
    numChunks fileSize size = Some n
    /\ (if int_modulus <=? chunksNeeded fileSize size
        then n < 0
        else n = chunksNeeded fileSize size /\ 0 < n).
Proof.
  intros Hf Hs. unfold numChunks.
  destruct (Z.ltb_spec 0 fileSize) as [_|?]; [|lia].
  destruct (Z.eqb_spec size 0) as [?|_]; [lia|].
  rewrite chunksNeeded_quotient by lia.
  pose proof (Z.div_mod fileSize size ltac:(lia)) as Hdm.
  pose proof (Z.mod_pos_bound fileSize size ltac:(lia)) as Hm.
  assert (0 <= fileSize / size < uint64_modulus) as Hq.
  { split; [apply Z.div_pos; lia|].
    apply Z.div_lt_upper_bound; [lia|]. nia. }
  eexists. split; [reflexivity|].
  destruct (Z.eqb_spec (fileSize mod size) 0) as [Hr|Hr]; cbn [negb].
  - rewrite Z.add_0_r.
    destruct (Z.leb_spec int_modulus (fileSize / size)) as [Hbig|Hsmall].
    + apply to_int_negative. lia.
    + rewrite to_int_small by lia. split; [done|].
      assert (fileSize / size <> 0); [|lia].
      intros H0. rewrite H0, Hr in Hdm. lia.
  - assert (2 <= size) as Hsize.
    { destruct (Z.eq_dec size 1) as [->|]; [|lia].
      rewrite Z.mod_1_r in Hr. done. }
    assert (fileSize / size < int_modulus) as Hhalf.
    { apply Z.div_lt_upper_bound; [lia|].
      unfold int_modulus, uint64_modulus in *. nia. }
    rewrite (to_int_small (fileSize / size)) by lia.
    destruct (Z.leb_spec int_modulus (fileSize / size + 1)) as [Hbig|Hsmall].
    + apply to_int_negative.
      unfold int_modulus, uint64_modulus in *. lia.
    + rewrite to_int_small by lia. lia.
Qed.

(** X29. The chunks of a new file.  [newFile] panics on the division
    exactly when the file is not empty and the chunk size is zero.
    Otherwise it asks [make] for one erasure coder per chunk, for as many
    chunks as cover the file and not one more (one chunk for an empty
    file): [make] panics when that number does not fit an [int] or takes
    more bytes than the runtime allocates, the process dies when the heap
    cannot provide them, and in every other case [newFile] calls
    [siafile.New] with that many erasure coders, all of them the one
    given. *)
Theorem newFile_one_coder_per_chunk (siaFilePath name : string) (wal : WAL)
    (rsc : ErasureCoder) (sk : CipherKey) (fileSize : Z) (mode : FileMode)
    (source : string) :
  0 <= fileSize < uint64_modulus ->
  let size := chunkSize rsc sk in
  let n := chunksNeeded fileSize size in
  newFile siaFilePath name wal rsc sk fileSize mode source
  = (if (0 <? fileSize) && (size =? 0) then NewFilePanics errDivide
     else if (int_modulus <=? n) || lenOutOfRange ErasureCoder_size n
     then NewFilePanics errMakeslice
     else if heapProvides (ErasureCoder_size * n)
     then NewFileReturns
            (siafile_New siaFilePath name source wal
               (repeat rsc (Z.to_nat n)) sk fileSize mode)
     else NewFileOutOfMemory)
  /\ (fileSize = 0 -> n = 1)
  /\ (0 < fileSize -> 0 < size ->
      (n - 1) * size < fileSize <= n * size).
Proof.
  intros Hf size n.
  split; [|split; [|by apply chunksNeeded_cover]].
  2:{ intros ->. done. }
  subst n. unfold newFile. fold size.
  pose proof (chunkSize_wrapped rsc sk) as Hs. fold size in Hs.
  destruct (Z.ltb_spec 0 fileSize) as [Hpos|Hzero]; cbn [andb].
  2:{ assert (fileSize = 0) as -> by lia.
      assert ((int_modulus <=? chunksNeeded 0 size) = false) as -> by done.
      cbn [orb numChunks Z.ltb Z.compare]. unfold makeErasureCoders.
      change (chunksNeeded 0 size) with 1.
      by destruct (lenOutOfRange ErasureCoder_size 1),
        (heapProvides (ErasureCoder_size * 1)). }
  destruct (Z.eqb_spec size 0) as [Hz|Hnz].
  { unfold numChunks. rewrite Hz.
    by destruct (Z.ltb_spec 0 fileSize) as [_|?]; [|lia]. }
  destruct (numChunks_needed fileSize size) as (k & -> & Hk); [lia|lia|].
  unfold makeErasureCoders.
  destruct (Z.leb_spec int_modulus (chunksNeeded fileSize size))
    as [Hbig|Hsmall]; cbn [orb].
  - unfold lenOutOfRange. destruct (Z.ltb_spec k 0) as [_|?]; [done|lia].
  - destruct Hk as [-> _].
    by destruct (lenOutOfRange ErasureCoder_size
                   (chunksNeeded fileSize size)),
      (heapProvides (ErasureCoder_size * chunksNeeded fileSize size)).
Qed.

End UploadProperties.


(** * Runs on the in-memory collaborators *)

Import Sim.

(** C3 on the run [needed; needed; complete | needed; needed | complete]
    of the path [a]. *)
Lemma coordinator_coalescing_witness :
  (countAdmitted "a" [OpNeeded "a"; OpNeeded "a"]
     (take 2
        (drop 3
           (fst (runOps
                   ([OpNeeded "a"; OpNeeded "a"; OpComplete "a"]
                    ++ [OpNeeded "a"; OpNeeded "a"] ++ [OpComplete "a"])
                   (newRenter filesDir emptyWorld))))) <= 1)%nat.
Proof.
  apply (proj1 (coordinator_coalescing "a"
                  [OpNeeded "a"; OpNeeded "a"; OpComplete "a"]
                  [OpNeeded "a"; OpNeeded "a"] [OpComplete "a"]
                  (newRenter filesDir emptyWorld) eq_refl
                  ltac:(repeat constructor))).
Defined.

(** C10 as stated fails: after [needed; needed; complete] the entry of
    [a] is [bubbleInit], and a further [managedCompleteBubbleUpdate]
    returns the invalid-status error. *)
Lemma invalid_status_reached :
  ~ invalid_status_unreachable "a"
      [OpNeeded "a"; OpNeeded "a"; OpComplete "a"]
      (newRenter filesDir emptyWorld).
Proof.
  intros H. destruct (H eq_refl) as (_ & _ & H3). apply H3.
  vm_compute. reflexivity.
Qed.

(** C10, amended, on the same run. *)
Lemma bubbleError_never_stored_witness :
  fst (managedCompleteBubbleUpdate "a"
         (snd (runOps [OpNeeded "a"; OpNeeded "a"; OpComplete "a"]
                 (newRenter filesDir emptyWorld))))
  = Some errInvalidBubbleStatus
  <-> bubbleUpdates
        (snd (runOps [OpNeeded "a"; OpNeeded "a"; OpComplete "a"]
                (newRenter filesDir emptyWorld))) !! "a"
      = Some bubbleInit.
Proof.
  exact (proj2 (proj2 (bubbleError_never_stored "a"
                         [OpNeeded "a"; OpNeeded "a"; OpComplete "a"]
                         (newRenter filesDir emptyWorld) eq_refl))).
Defined.

(** C2 fails on the code: the single file [x.sia] of the root has 3 stuck
    chunks, the calculation succeeds, and it gives [NumStuckChunks = 6]. *)
Theorem three_stuck_chunks_counted_six :
  snd (fst (managedCalculateDirectoryMetadata ""
              (newRenter filesDir oneFileWorld))) = None
  /\ sumStuckChunks <$>
       processedChildren "" (newRenter filesDir oneFileWorld) = Some 3
  /\ NumStuckChunks
       (fst (fst (managedCalculateDirectoryMetadata ""
                    (newRenter filesDir oneFileWorld)))) = 6.
Proof. vm_compute. done. Qed.

(** C4 as stated fails: with the stop channel closed at the second entry
    of the root, the calculation returns [siadir.Metadata{}], which is
    not the metadata accumulated from the first entry, and no error. *)
Lemma shutdown_returns_neither_partial_metadata_nor_error :
  ~ shutdown_returns_partial_metadata_and_error ""
      (newRenter filesDir shutdownWorld).
Proof.
  intros H.
  pose (s := startCalculation "" (newRenter filesDir shutdownWorld)).
  pose (l := calculateEntries "" None [{| Name := "x.sia"; IsDir := false |}]
               (fst (fst (fst s))) (snd s)).
  destruct (H [{| Name := "x.sia"; IsDir := false |}]
              {| Name := "y.sia"; IsDir := false |} []
              (fst (fst (fst s))) (snd s) (flowMetadata (fst l)) (snd l))
    as [Hmd Herr]; try (vm_compute; reflexivity).
  revert Hmd. vm_compute. intros Hmd. discriminate Hmd.
Qed.

(** The same calculation returns no error, and the metadata accumulated
    when the stop channel is found closed counts one file. *)
Example shutdown_returns_no_error :
  fst (managedCalculateDirectoryMetadata ""
         (newRenter filesDir shutdownWorld)) = (Metadata_zero, None)
  /\ NumFiles
       (flowMetadata
          (fst (calculateEntries "" None
                  [{| Name := "x.sia"; IsDir := false |}]
                  (fst (fst (fst (startCalculation ""
                                    (newRenter filesDir shutdownWorld)))))
                  (snd (startCalculation ""
                          (newRenter filesDir shutdownWorld)))))) = 1.
Proof. vm_compute. done. Qed.

(** C4, amended, on the same calculation. *)
Lemma shutdown_returns_zero_metadata_witness :
  fst (fst (managedCalculateDirectoryMetadata ""
              (newRenter filesDir shutdownWorld))) = Metadata_zero.
Proof.
  pose (s := startCalculation "" (newRenter filesDir shutdownWorld)).
  pose (l := calculateEntries "" None [{| Name := "x.sia"; IsDir := false |}]
               (fst (fst (fst s))) (snd s)).
  apply (shutdown_returns_zero_metadata ""
           (newRenter filesDir shutdownWorld)
           [{| Name := "x.sia"; IsDir := false |}]
           {| Name := "y.sia"; IsDir := false |} []
           (fst (fst (fst s))) (snd s) (flowMetadata (fst l)) (snd l));
    vm_compute; reflexivity.
Defined.

(** C7 fails on the code: with the stop channel closed at the second
    entry of the root, whose files [x.sia] and [y.sia] have health [0.5],
    the calculation returns no error, so it is a successful one, and the
    [Health] that it returns is zero: below the health of [x.sia], which
    it had accumulated when it found the channel closed, and not the
    greatest of [DefaultDirHealth] and the healths of the files.  The
    [return] of line 90 gives the [err] of [ioutil.ReadDir], which is
    [nil] there. *)
Theorem shutdown_health_below_file_child :
  snd (fst (managedCalculateDirectoryMetadata ""
              (newRenter filesDir shutdownWorld))) = None
  /\ Health (fst (fst (managedCalculateDirectoryMetadata ""
                         (newRenter filesDir shutdownWorld))))
     = float64_zero
  /\ fHealth <$> fileRecords shutdownWorld !! "x"
     = Some (S754_finite false 4503599627370496 (-53))
  /\ fHealth <$> fileRecords shutdownWorld !! "y"
     = Some (S754_finite false 4503599627370496 (-53))
  /\ Health
       (flowMetadata
          (fst (calculateEntries "" None
                  [{| Name := "x.sia"; IsDir := false |}]
                  (fst (fst (fst (startCalculation ""
                                    (newRenter filesDir shutdownWorld)))))
                  (snd (startCalculation ""
                          (newRenter filesDir shutdownWorld))))))
     = S754_finite false 4503599627370496 (-53)
  /\ maxHealth DefaultDirHealth
       [S754_finite false 4503599627370496 (-53);
        S754_finite false 4503599627370496 (-53)]
     = S754_finite false 4503599627370496 (-53)
  /\ flt (Health (fst (fst (managedCalculateDirectoryMetadata ""
                              (newRenter filesDir shutdownWorld)))))
         (maxHealth DefaultDirHealth
            [S754_finite false 4503599627370496 (-53);
             S754_finite false 4503599627370496 (-53)]) = true.
Proof. vm_compute. done. Qed.

(** X30 on a root that holds a file of health [0.5] and a subdirectory of
    health [0.75]: the [Health] of the root is [0.5]. *)
Lemma health_of_file_children_only_witness :
  Health (fst (fst (managedCalculateDirectoryMetadata ""
                      (newRenter filesDir nestedWorld))))
  = S754_finite false 4503599627370496 (-53).
Proof.
  refine (eq_trans
            (proj2 (health_of_file_children_only ""
                      (newRenter filesDir nestedWorld)
                      (default []
                         (processedChildren ""
                            (newRenter filesDir nestedWorld))) _ _)) _);
    vm_compute; reflexivity.
Defined.

(** C8 on a root that holds [x.sia], [broken.sia], [y.sia] and [gone]:
    the failed probe of [broken.sia] leaves the calculation to go on with
    [y.sia] and [gone], and the failed read of [gone] ends it. *)
Lemma probe_failure_skips_subdirectory_failure_aborts_witness :
  (exists m1 r4,
     managedCalculateDirectoryMetadata "" (newRenter filesDir mixedWorld)
     = bind (calculateEntries "" None
               [{| Name := "y.sia"; IsDir := false |};
                {| Name := "gone"; IsDir := true |}] m1)
         finishCalculation r4)
  /\ (exists r4,
        managedCalculateDirectoryMetadata "" (newRenter filesDir mixedWorld)
        = ((Metadata_zero, Some (errOS (errAbsent "/renter/gone"))), r4)).
Proof.
  pose (s := startCalculation "" (newRenter filesDir mixedWorld)).
  split.
  - pose (l := calculateEntries "" None
                 [{| Name := "x.sia"; IsDir := false |}]
                 (fst (fst (fst s))) (snd s)).
    pose (r3 := snd (stopped (snd l))).
    pose (pr := managedCalculateAndUpdateFileMetadata "broken" r3).
    exists (flowMetadata (fst l)).
    exists (snd (log ("failed to calculate file metadata " +:+ "broken.sia")
                   (snd pr))).
    refine (proj1 (probe_failure_skips_subdirectory_failure_aborts ""
                    (newRenter filesDir mixedWorld)
                    [{| Name := "x.sia"; IsDir := false |}]
                    {| Name := "broken.sia"; IsDir := false |}
                    [{| Name := "y.sia"; IsDir := false |};
                     {| Name := "gone"; IsDir := true |}]
                    (fst (fst (fst s))) (snd s) (flowMetadata (fst l))
                    (snd l) r3 _ _ _)
              "broken" (fst (fst pr)) (errOS (errAbsent "broken")) (snd pr)
              _ _ _);
      vm_compute; reflexivity.
  - pose (l := calculateEntries "" None
                 [{| Name := "x.sia"; IsDir := false |};
                  {| Name := "broken.sia"; IsDir := false |};
                  {| Name := "y.sia"; IsDir := false |}]
                 (fst (fst (fst s))) (snd s)).
    pose (r3 := snd (stopped (snd l))).
    pose (dr := managedDirectoryMetadata "gone" r3).
    exists (snd dr).
    refine (proj2 (probe_failure_skips_subdirectory_failure_aborts ""
                    (newRenter filesDir mixedWorld)
                    [{| Name := "x.sia"; IsDir := false |};
                     {| Name := "broken.sia"; IsDir := false |};
                     {| Name := "y.sia"; IsDir := false |}]
                    {| Name := "gone"; IsDir := true |} []
                    (fst (fst (fst s))) (snd s) (flowMetadata (fst l))
                    (snd l) r3 _ _ _)
              "gone" (fst (fst dr)) (errOS (errAbsent "/renter/gone"))
              (snd dr) _ _ _ _);
      vm_compute; reflexivity.
Defined.

(** C9 fails on the code: the directory [sub] is not empty and has no
    record; [managedDirectoryMetadata] creates the record with
    [NewSiaDir] and then returns the error of [Open] with
    [siadir.Metadata{}], not the metadata of the new record. *)
Theorem record_created_but_absent_error_returned :
  fst (managedDirectoryMetadata "sub" (newRenter filesDir absentRecordWorld))
  = (Metadata_zero, Some (errOS (errAbsent "sub")))
  /\ trace (snd (managedDirectoryMetadata "sub"
                   (newRenter filesDir absentRecordWorld)))
     = [CallStat "/renter/sub"; CallDirOpen "sub";
        CallReadDir "/renter/sub"; CallNewSiaDir "sub"]
  /\ dirRecords
       (world (snd (managedDirectoryMetadata "sub"
                      (newRenter filesDir absentRecordWorld)))) !! "sub"
     = Some defaultMetadata.
Proof. vm_compute. done. Qed.

(** C1 as stated fails: at the root, the directory cannot be read, the
    calculation returns an error, and the driver does not open the
    directory record. *)
Lemma calculation_error_short_circuits :
  ~ calculation_error_does_not_short_circuit ""
      (newRenter filesDir unreadableWorld).
Proof.
  intros H.
  assert (~ In (CallDirOpen "")
              (trace (snd (managedBubbleMetadata ""
                             (newRenter filesDir unreadableWorld))))) as Hno.
  { vm_compute. intros Hin.
    repeat (destruct Hin as [Hin|Hin]; [discriminate Hin|]).
    exact Hin. }
  apply Hno, (H eq_refl (errOS (errAbsent "/renter"))).
  vm_compute. reflexivity.
Qed.

(** C1, amended, at a root whose file has stuck chunks and whose record
    cannot be written: the error of the write is returned and both
    signals are sent. *)
Lemma calculation_error_returns_at_once_witness :
  fst (managedBubbleMetadata "" (newRenter filesDir writeFailsWorld))
  = Some (errors_AddContext (errOS (errIO "write failed"))
            "could not update the metadata of the  directory /renter")
  /\ repairNeeded
       (snd (managedBubbleMetadata "" (newRenter filesDir writeFailsWorld)))
     = 1%nat
  /\ stuckChunkFound
       (snd (managedBubbleMetadata "" (newRenter filesDir writeFailsWorld)))
     = 1%nat.
Proof.
  destruct (proj2 (calculation_error_returns_at_once ""
                     (newRenter filesDir writeFailsWorld) eq_refl))
    as (T1 & _ & _ & T4 & T5).
  { vm_compute. reflexivity. }
  split; [|split].
  - exact (eq_trans T1 ltac:(vm_compute; reflexivity)).
  - exact (eq_trans T4 ltac:(vm_compute; reflexivity)).
  - exact (eq_trans T5 ltac:(vm_compute; reflexivity)).
Defined.



(** [filepath.Ext] and [strings.TrimSuffix] on names of entries. *)
Example filepath_Ext_examples :
  filepath_Ext "x.sia" = ".sia"
  /\ filepath_Ext "a.b.sia" = ".sia"
  /\ filepath_Ext "sub" = ""
  /\ filepath_Ext ".siadir" = ".siadir"
  /\ filepath_Ext "a.b/c" = ""
  /\ strings_TrimSuffix "x.sia" ".sia" = "x"
  /\ strings_TrimSuffix "x.txt" ".sia" = "x.txt".
Proof. vm_compute. done. Qed.

(** ** Further runs on the in-memory collaborators *)

(** X1 on the empty root. *)
Lemma empty_directory_metadata_witness :
  fst (fst (managedCalculateDirectoryMetadata ""
              (newRenter filesDir emptyWorld)))
  = emptyDirectoryMetadata 100 101.
Proof.
  pose (s := startCalculation "" (newRenter filesDir emptyWorld)).
  refine (eq_trans
            (f_equal (fun x => fst (fst x))
               (empty_directory_metadata "" (newRenter filesDir emptyWorld)
                  (fst (fst (fst s))) (snd s) _)) _);
    vm_compute; reflexivity.
Defined.

(** X2 on the root that holds one file and the directory [sub] of four
    files. *)
Lemma counts_of_children_witness :
  let md := fst (fst (managedCalculateDirectoryMetadata ""
                        (newRenter filesDir nestedWorld))) in
  NumFiles md = 1 /\ NumSubDirs md = 1
  /\ AggregateNumFiles md = 5 /\ AggregateSize md = 5120.
Proof.
  set (r := newRenter _ _).
  pose (cs := default [] (processedChildren "" r)).
  assert (processedChildren "" r = Some cs) as H by (vm_compute; reflexivity).
  destruct (counts_of_children "" r cs H) as (H1 & H2 & H3 & H4).
  split; [|split; [|split]];
    [ refine (eq_trans H1 _) | refine (eq_trans H2 _)
    | refine (eq_trans H3 _) | refine (eq_trans H4 _) ];
    vm_compute; reflexivity.
Defined.

(** X3 on the same root: the file has health [0.5], the directory
    [0.75]. *)
Lemma aggregate_health_bounds_children_witness :
  AggregateHealth (fst (fst (managedCalculateDirectoryMetadata ""
                               (newRenter filesDir nestedWorld))))
  = S754_finite false 6755399441055744 (-53).
Proof.
  set (r := newRenter _ _).
  pose (cs := default [] (processedChildren "" r)).
  refine (eq_trans (proj1 (aggregate_health_bounds_children "" r cs _)) _);
    vm_compute; reflexivity.
Defined.


(** X5 on the same root: the file has redundancy [3], the directory
    [1]. *)
Lemma min_redundancy_bounds_children_witness :
  MinRedundancy (fst (fst (managedCalculateDirectoryMetadata ""
                             (newRenter filesDir nestedWorld))))
  = S754_finite false 4503599627370496 (-52).
Proof.
  set (r := newRenter _ _).
  pose (cs := default [] (processedChildren "" r)).
  refine (eq_trans (proj1 (min_redundancy_bounds_children "" r cs _)) _);
    vm_compute; reflexivity.
Defined.


(** X13 on a second driver of the path [a] while the first is
    running. *)
Lemma coalesced_driver_does_nothing_witness :
  fst (managedBubbleMetadata "a"
         (snd (managedBubbleNeeded "a"
                 (newRenter filesDir (subdirectoryWorld false)))))
  = None.
Proof.
  refine (proj1 (coalesced_driver_does_nothing "a"
                   (snd (managedBubbleNeeded "a"
                           (newRenter filesDir (subdirectoryWorld false))))
                   _)).
  left. vm_compute. reflexivity.
Defined.


(** X16 on the root whose stop channel is closed at the first poll. *)
Lemma shutdown_writes_zero_metadata_witness :
  exists pre post,
    trace (snd (managedBubbleMetadata "" (newRenter filesDir stoppedWorld)))
    = (pre ++ CallUpdateMetadata "" Metadata_zero :: post)%list.
Proof.
  set (r := newRenter _ _).
  pose (s := startCalculation "" (snd (managedBubbleNeeded "" r))).
  pose (o := staticDirSet_Open "" (world (snd (stopped (snd s))))).
  apply in_split.
  refine (shutdown_writes_zero_metadata "" r (fst (fst (fst s)))
            {| Name := "x.sia"; IsDir := false |} [] (snd s) "" (snd o)
            _ _ _ _);
    vm_compute; reflexivity.
Defined.

(** X17 on the path [a]: a request on [b] and a request on [a] while [a]
    is active. *)
Lemma overlapping_request_is_rerun_witness :
  let r := snd (managedBubbleNeeded "a" (newRenter filesDir emptyWorld)) in
  let r1 := snd (runOps [OpNeeded "b"; OpNeeded "a"] r) in
  fst (fst (managedBubbleNeeded "a"
              (snd (managedCompleteBubbleUpdate "a" r1)))) = true.
Proof.
  intros r r1.
  refine (proj2 (proj2 (proj2
            (overlapping_request_is_rerun "a" [OpNeeded "b"; OpNeeded "a"] r
               _ _)))).
  - vm_compute. reflexivity.
  - reflexivity.
Defined.

(** X18 on the path [a] and a run on [b]. *)
Lemma calls_on_other_paths_leave_entry_witness :
  let r := snd (managedBubbleNeeded "a" (newRenter filesDir emptyWorld)) in
  bubbleUpdates (snd (runOps [OpNeeded "b"; OpComplete "b"] r)) !! "a"
  = bubbleUpdates r !! "a".
Proof.
  intros r.
  refine (proj1 (calls_on_other_paths_leave_entry "a"
                   [OpNeeded "b"; OpComplete "b"] r _)).
  reflexivity.
Defined.

(** X19 on the path [a] with a request on [b] in between. *)
Lemma admitted_run_removes_entry_witness :
  let r := newRenter filesDir emptyWorld in
  let r1 := snd (runOps [OpNeeded "b"] (snd (managedBubbleNeeded "a" r))) in
  bubbleUpdates (snd (managedCompleteBubbleUpdate "a" r1)) !! "a" = None.
Proof.
  intros r r1.
  refine (proj1 (proj2 (admitted_run_removes_entry "a" [OpNeeded "b"] r
                          _ _))).
  - vm_compute. reflexivity.
  - reflexivity.
Defined.


(** ** Runs of the contractor on the numbered chain *)

Import SimChain SimContractor.

Lemma simView (s : gmap Z (Z * Z)) (rc : Z * Z) :
  rc ∈ ViewAll s <-> exists id, s !! id = Some rc.
Proof.
  cbn [ViewAll simChain]. rewrite list_elem_of_fmap. split.
  - intros ([id rc'] & -> & Hin). exists id. by apply elem_of_map_to_list.
  - intros [id Hid]. exists (id, rc). split; [done|].
    by apply elem_of_map_to_list.
Qed.

Lemma simKey (id : Z) (rc : Z * Z) :
  staticContracts simContractor !! id = Some rc -> ID rc = id.
Proof.
  cbn [staticContracts simContractor].
  rewrite !lookup_insert_Some, lookup_empty.
  intros [[<- <-]|[_ [[<- <-]|[_ [[<- <-]|[_ H]]]]]]; done.
Qed.

Lemma archive_moves_ended_and_renewed_witness :
  let c' := managedArchiveContracts simContractor in
  (staticContracts c' !! 3 = None /\ oldContracts c' !! 3 = Some (3, 60))
  /\ exists logs,
       events c'
       = ([] ++ logs ++ [EvSave 10 0 0 (oldContracts c')])%list
       /\ Forall (fun ev => isLogArchived ev = true) logs.
Proof.
  exact (archive_moves_ended_and_renewed simContractor 3
           (simView (staticContracts simContractor)) simKey).
Defined.

Lemma archive_twice_is_archive_once_witness :
  let c' := managedArchiveContracts simContractor in
  staticContracts (managedArchiveContracts c') = staticContracts c'
  /\ oldContracts (managedArchiveContracts c') = oldContracts c'.
Proof.
  exact (archive_twice_is_archive_once simContractor simView simKey).
Defined.

Lemma recoverContracts_wipes_every_seed_witness :
  events (final (recoverContracts 42 plainBlock simContractor))
  = [EvWipe (42, 21); EvWipe (42, 20)].
Proof.
  refine (eq_trans
            (recoverContracts_wipes_every_seed 42 plainBlock simContractor
               (final (recoverContracts 42 plainBlock simContractor)) _) _);
    vm_compute; reflexivity.
Defined.

Lemma consensus_change_moves_height_witness :
  blockHeight (final (ProcessConsensusChange simChange simContractor)) = 11.
Proof.
  refine (eq_trans
            (consensus_change_moves_height simChange simContractor
               (final (ProcessConsensusChange simChange simContractor)) _ _)
            _).
  - cbn [blockHeight simContractor]. unfold uint64_modulus. lia.
  - vm_compute. reflexivity.
  - vm_compute. reflexivity.
Defined.

Lemma consensus_change_advances_one_period_witness :
  let c' := final (ProcessConsensusChange simChange simContractor) in
  lastChange c' = 77
  /\ currentPeriod c' = 4
  /\ oldContracts c' !! metricsContractID = None.
Proof.
  pose (c' := final (ProcessConsensusChange simChange simContractor)).
  assert (ProcessConsensusChange simChange simContractor = Returned c') as Hr
    by (vm_compute; reflexivity).
  destruct (consensus_change_advances_one_period simChange simContractor c' Hr)
    as (Hl & _ & _ & _ & _ & Hbehind).
  split; [exact Hl|].
  split.
  - refine (proj1 (Hbehind _ _ _ _)); vm_compute;
      first [reflexivity | intros H; discriminate H].
  - vm_compute. reflexivity.
Defined.

Lemma consensus_change_saves_once_witness :
  let c' := final (ProcessConsensusChange simChange simContractor) in
  exists pre logs,
    events c'
    = (events simContractor ++ pre
         ++ EvSave (blockHeight c') (currentPeriod c') (lastChange c')
              (oldContracts c')
         :: logs ++ (if Synced simChange then [EvGoMaintenance] else []))%list
    /\ Forall (fun ev => quiet ev = true) pre
    /\ Forall (fun ev => quiet ev = true) logs.
Proof.
  refine (consensus_change_saves_once simChange simContractor
            (final (ProcessConsensusChange simChange simContractor)) _).
  vm_compute. reflexivity.
Defined.

Lemma consensus_change_panic_records_nothing_witness :
  let c' := final (ProcessConsensusChange simPanicChange simContractor) in
  lastChange c' = lastChange simContractor
  /\ blockHeight c' = 12.
Proof.
  split.
  - refine (proj1 (proj2
              (consensus_change_panic_records_nothing simPanicChange
                 simContractor "not implemented"
                 (final (ProcessConsensusChange simPanicChange simContractor))
                 _))).
    vm_compute. reflexivity.
  - vm_compute. reflexivity.
Defined.

(** ** A new file on sectors of 4096 bytes *)

Import SimFiles.

(** X29 on a file of 10000 bytes with 2 data pieces and a key of
    overhead 96: chunks of 8000 bytes, two of them. *)
Lemma newFile_one_coder_per_chunk_witness :
  newFile "/renter/x.sia" "x" tt 2 96 10000 tt "/home/x"
  = NewFileReturns (2%nat, 10000).
Proof.
  refine (eq_trans
            (proj1 (newFile_one_coder_per_chunk "/renter/x.sia" "x" tt 2 96
                      10000 tt "/home/x" _)) _).
  - unfold uint64_modulus. lia.
  - reflexivity.
Defined.
